(** * MacOSXWatchService.c: the native core of the macOS watch service

    A shallow embedding of
    [src/java.base/macosx/native/libnio/fs/MacOSXWatchService.c]:
    the FSEvents callback that reports events to the Java handler in chunks
    ([callback], [createJavaArray], [convertToJavaStringArray]) and the
    JNI entry points that create a stream, schedule it, stop the run loop and
    dispose of the stream.

    The C code talks to two outside worlds: the JVM through JNI, and
    CoreFoundation / FSEvents.  Neither is part of the file.  Both are
    modelled by a small explicit state, and every answer the outside world
    is free to give (an allocation that fails, a handler that throws) is
    read from an oracle record, so that a statement can quantify over all
    answers or fix them. *)

From Stdlib Require Import ZArith List Bool String Lia.
Import ListNotations.
Local Open Scope Z_scope.

(** ** Machine integers *)

Module CInt.

(** [INT_MAX] of a 32-bit [int]; [jint] and [jsize] are that type. *)
Definition INT_MAX : Z := 2147483647.

(** Conversion to [size_t] (64 bits, unsigned): reduction modulo 2^64. *)
Definition to_size_t (z : Z) : Z := z mod 18446744073709551616.

(** Conversion to [jsize] / [jint] (32 bits, signed), as the compilers of
    the platform do it: reduction modulo 2^32 into [-2^31, 2^31). *)
Definition to_jint (z : Z) : Z := (z + 2147483648) mod 4294967296 - 2147483648.

Definition JNI_OK : Z := 0.
Definition JNI_ERR : Z := -1.

End CInt.

(** ** The callback dispatcher *)

Module Dispatcher.
Import CInt.

(** A C path as FSEvents hands it over, and a Java string. *)
Definition cstring := string.
Definition jstring := string.

(** A [jobjectArray] of strings: [None] is the [NULL] reference, an
    element [None] is a [null] slot (what [NewObjectArray] fills in). *)
Definition jobjectArray := option (list (option jstring)).

(** One call of the handler's [callback(JJ[Ljava/lang/String;JJ)V]:
    the stream, the count, the path array as it is when the call is made,
    and the two pointers [&eventFlags[i]] and [&eventIds[i]], kept as the
    index [i] into the arrays FSEvents passed.  The count [fc_numEvents]
    is the [jsize numEventsToReport] as the code hands it to the variadic
    [JNU_CallMethodByName]; the handler reads a [J] there, which is this
    number when it is not negative, and is not fixed by C when it is. *)
Record Forward : Type := mkForward {
  fc_handler : Z;
  fc_stream : Z;
  fc_numEvents : Z;
  fc_paths : jobjectArray;
  fc_flags : Z;
  fc_ids : Z
}.

(** What the code can observe or change of the JVM: whether an exception
    is pending in the thread, the local frames pushed, the calls made to
    the handler (oldest first) and the diagnostic output. *)
Record JNIState : Type := mkJNI {
  pending : bool;
  frames : nat;
  calls : list Forward;
  diag : list string
}.

Definition initial : JNIState :=
  {| pending := false; frames := 0%nat; calls := []; diag := [] |}.

Inductive JniOutcome : Type :=
| Succeeds
| Fails (throws : bool).

Inductive NewString : Type :=
| JString (s : jstring)
| NullString (throws : bool).

(** The answers of the JVM that the C code does not determine. *)
Record World : Type := mkWorld {
  (** [JNU_GetEnv] returns an environment *)
  GetEnv_valid : bool;
  (** [PushLocalFrame(capacity)] *)
  PushLocalFrame_outcome : Z -> JniOutcome;
  (** [NewObjectArray(length, String, NULL)] finds the memory *)
  NewObjectArray_succeeds : Z -> bool;
  (** [JNU_NewStringPlatform(path)] *)
  NewStringPlatform_result : cstring -> NewString;
  (** the handler's Java method throws, given the number of calls made
      before this one and the call *)
  handler_throws : nat -> Forward -> bool
}.

(** *** A state monad with two ways not to return *)

Inductive Res (A : Type) : Type :=
| Ok (a : A) (s : JNIState)
| Undefined (s : JNIState)
| OutOfFuel.
Arguments Ok {A} a s.
Arguments Undefined {A} s.
Arguments OutOfFuel {A}.

Definition M (A : Type) : Type := JNIState -> Res A.

Definition ret {A} (a : A) : M A := fun s => Ok a s.

Definition bind {A B} (m : M A) (k : A -> M B) : M B :=
  fun s =>
    match m s with
    | Ok a s' => k a s'
    | Undefined s' => Undefined s'
    | OutOfFuel => OutOfFuel
    end.

Definition undefined {A} : M A := fun s => Undefined s.

Definition when (b : bool) (m : M unit) : M unit :=
  if b then m else ret tt.

Declare Scope jni_scope.
Delimit Scope jni_scope with jni.
Notation "x <- m ;; k" := (bind m (fun x => k))
  (at level 61, m at next level, right associativity) : jni_scope.
Notation "m ;; k" := (bind m (fun _ => k))
  (at level 61, right associativity) : jni_scope.
Local Open Scope jni_scope.

(** *** JNI and libc, as far as the code uses them *)

Definition printf (line : string) : M unit :=
  fun s => Ok tt {| pending := pending s; frames := frames s;
                    calls := calls s; diag := diag s ++ [line] |}.

Definition ExceptionCheck : M bool := fun s => Ok (pending s) s.

Definition throw : M unit :=
  fun s => Ok tt {| pending := true; frames := frames s;
                    calls := calls s; diag := diag s |}.

(** [ExceptionDescribe] prints the pending exception and, as the JNI
    specification says, clears it as a side effect. *)
Definition ExceptionDescribe : M unit :=
  fun s =>
    if pending s
    then Ok tt {| pending := false; frames := frames s; calls := calls s;
                  diag := diag s ++ ["Exception in thread"%string] |}
    else Ok tt s.

Definition PushLocalFrame (w : World) (capacity : Z) : M Z :=
  match PushLocalFrame_outcome w capacity with
  | Succeeds =>
      fun s => Ok JNI_OK {| pending := pending s; frames := S (frames s);
                           calls := calls s; diag := diag s |}
  | Fails throws => when throws throw ;; ret JNI_ERR
  end.

Definition PopLocalFrame : M unit :=
  fun s => Ok tt {| pending := pending s; frames := Nat.pred (frames s);
                    calls := calls s; diag := diag s |}.

(** [NewObjectArray(env, length, JNU_ClassString(env), NULL)]: a new
    array of [length] null slots, or [NULL] with an exception pending (no
    memory, or a negative length).  JNI defines the call only while no
    exception is pending; the code makes it also with one pending, in a
    turn after the handler has thrown, and there the JVM is taken to
    answer as it does without one. *)
Definition NewObjectArray (w : World) (length : Z) : M jobjectArray :=
  if (0 <=? length) && NewObjectArray_succeeds w length
  then ret (Some (repeat None (Z.to_nat length)))
  else throw ;; ret None.

Definition JNU_NewStringPlatform (w : World) (p : cstring) : M (option jstring) :=
  match NewStringPlatform_result w p with
  | JString s => ret (Some s)
  | NullString throws => when throws throw ;; ret None
  end.

Fixpoint store {A} (l : list A) (i : nat) (v : A) : list A :=
  match l, i with
  | [], _ => []
  | _ :: t, O => v :: t
  | h :: t, S j => h :: store t j v
  end.

(** [SetObjectArrayElement]: stores into the array the reference names;
    an index outside it leaves an [ArrayIndexOutOfBoundsException]
    pending, and a [NULL] array is outside what JNI defines. *)
Definition SetObjectArrayElement (a : jobjectArray) (i : Z) (v : jstring)
  : M jobjectArray :=
  match a with
  | None => undefined
  | Some elems =>
      if (0 <=? i) && (i <? Z.of_nat (List.length elems))
      then ret (Some (store elems (Z.to_nat i) (Some v)))
      else throw ;; ret a
  end.

(** [JNU_CallMethodByName(env, &hasException, obj, "callback", ...)]:
    the call is made, and [hasException] is what [ExceptionCheck] says
    after it. *)
Definition JNU_CallMethodByName (w : World) (c : Forward) : M bool :=
  fun s =>
    let raised := handler_throws w (List.length (calls s)) c in
    let s' := {| pending := pending s || raised; frames := frames s;
                 calls := calls s ++ [c]; diag := diag s |} in
    Ok (pending s') s'.

(** [eventPathsArray[i]]: a read outside the array FSEvents passed is
    undefined. *)
Definition read_path (eventPaths : list cstring) (i : Z) : M cstring :=
  if i <? 0 then undefined
  else match nth_error eventPaths (Z.to_nat i) with
       | Some p => ret p
       | None => undefined
       end.

Section Callback.

(** The static [tracingEnabled] and the JVM the thread runs in. *)
Variable tracingEnabled : bool.
Variable w : World.

(** The body of the loop of [convertToJavaStringArray], [todo]
    iterations from index [i] on.  It returns the [jboolean] and the
    array, which the function fills in place. *)
Fixpoint convert_from (todo : nat) (i : Z) (eventPaths : list cstring)
    (eventIndex : Z) (javaEventPathsArray : jobjectArray)
  : M (bool * jobjectArray) :=
  match todo with
  | O => ret (true, javaEventPathsArray)
  | S todo' =>
      c <- read_path eventPaths (eventIndex + i) ;;
      path <- JNU_NewStringPlatform w c ;;
      match path with
      | None =>
          exc <- ExceptionCheck ;;
          when (exc && tracingEnabled) ExceptionDescribe ;;
          ret (false, javaEventPathsArray)
      | Some p =>
          a <- SetObjectArrayElement javaEventPathsArray i p ;;
          convert_from todo' (i + 1) eventPaths eventIndex a
      end
  end.

Definition convertToJavaStringArray (eventPaths : list cstring)
    (eventIndex numEventsToReport : Z) (javaEventPathsArray : jobjectArray)
  : M (bool * jobjectArray) :=
  convert_from (Z.to_nat numEventsToReport) 0 eventPaths eventIndex
    javaEventPathsArray.

Definition createJavaArray (numEventsToReport : Z) : M (bool * jobjectArray) :=
  a <- NewObjectArray w numEventsToReport ;;
  exc <- ExceptionCheck ;;
  if exc
  then when tracingEnabled ExceptionDescribe ;; ret (false, a)
  else ret (true, a).

Definition MAX_EVENTS_TO_REPORT_AT_ONCE : Z := INT_MAX - 2.

(** The [jsize numEventsToReport] of lines 104-107, for a loop whose
    chunks hold at most [limit] events. *)
Definition numEventsToReport_for (limit numEventsTotal eventIndex : Z) : Z :=
  let numEventsRemaining := to_size_t (numEventsTotal - eventIndex) in
  to_jint (if numEventsRemaining >? limit then limit else numEventsTotal).

(** The [jsize numEventsToReport] of one turn of the loop. *)
Definition numEventsToReport_at (numEventsTotal eventIndex : Z) : Z :=
  numEventsToReport_for MAX_EVENTS_TO_REPORT_AT_ONCE numEventsTotal eventIndex.

(** Lines 109-119: the local frame, the array and its strings.  The
    result is [localFramePushed], [OK] and [javaEventPathsArray].  The
    capacity [numEventsToReport + 5] is an [int]; above [INT_MAX] the sum
    is not defined by C, and wraps around as the platform computes it. *)
Definition build_chunk (eventPaths : list cstring)
    (eventIndex numEventsToReport : Z) : M (bool * bool * jobjectArray) :=
  rc <- PushLocalFrame w (to_jint (numEventsToReport + 5)) ;;
  let localFramePushed := rc =? JNI_OK in
  let OK := localFramePushed in
  r1 <- (if OK then createJavaArray numEventsToReport
         else ret (OK, None)) ;;
  r2 <- (if fst r1
         then convertToJavaStringArray eventPaths eventIndex
                numEventsToReport (snd r1)
         else ret r1) ;;
  ret (localFramePushed, fst r2, snd r2).

(** One turn of the loop of [callback]: the new [OK] and [eventIndex]. *)
Definition callback_turn (streamRef clientCallBackInfo numEventsTotal : Z)
    (eventPaths : list cstring) (eventIndex : Z) : M (bool * Z) :=
  let numEventsToReport := numEventsToReport_at numEventsTotal eventIndex in
  b <- build_chunk eventPaths eventIndex numEventsToReport ;;
  let '(localFramePushed, OK, javaEventPathsArray) := b in
  let handlerThreadObject := clientCallBackInfo in
  hasException <-
    JNU_CallMethodByName w
      {| fc_handler := handlerThreadObject; fc_stream := streamRef;
         fc_numEvents := numEventsToReport;
         fc_paths := javaEventPathsArray;
         fc_flags := eventIndex; fc_ids := eventIndex |} ;;
  when tracingEnabled (when hasException ExceptionDescribe) ;;
  when localFramePushed PopLocalFrame ;;
  ret (OK, to_size_t (eventIndex + numEventsToReport)).

(** [for (size_t eventIndex = 0; OK && (eventIndex < numEventsTotal); )]:
    the loop need not end, so it runs on fuel, one unit per test of its
    condition. *)
Fixpoint callback_loop (fuel : nat)
    (streamRef clientCallBackInfo numEventsTotal : Z)
    (eventPaths : list cstring) (OK : bool) (eventIndex : Z) : M unit :=
  match fuel with
  | O => fun _ => OutOfFuel
  | S fuel' =>
      if OK && (eventIndex <? numEventsTotal)
      then
        r <- callback_turn streamRef clientCallBackInfo numEventsTotal
               eventPaths eventIndex ;;
        callback_loop fuel' streamRef clientCallBackInfo numEventsTotal
          eventPaths (fst r) (snd r)
      else ret tt
  end.

(** [callback]: [eventFlags] and [eventIds] are not read, only their
    addresses are passed on; they are no argument here. *)
Definition callback (fuel : nat)
    (streamRef clientCallBackInfo numEventsTotal : Z)
    (eventPaths : list cstring) : M unit :=
  when tracingEnabled
    (printf "Callback fired!" ;; printf "handler thread 0x%p") ;;
  if GetEnv_valid w
  then callback_loop fuel streamRef clientCallBackInfo numEventsTotal
         eventPaths true 0
  else ret tt.

End Callback.

(** *** What the handler is handed *)

(** The [count] entries from index [from] on that a call lets the
    handler read in an array of FSEvents. *)
Definition subrange {A} (l : list A) (from count : Z) : list A :=
  firstn (Z.to_nat count) (skipn (Z.to_nat from) l).

Definition paths_of (c : Forward) : list (option jstring) :=
  match fc_paths c with
  | Some a => a
  | None => []
  end.

Definition flags_of (eventFlags : list Z) (c : Forward) : list Z :=
  subrange eventFlags (fc_flags c) (fc_numEvents c).

Definition ids_of (eventIds : list Z) (c : Forward) : list Z :=
  subrange eventIds (fc_ids c) (fc_numEvents c).

Definition not_null (e : option jstring) : bool :=
  match e with
  | Some _ => true
  | None => false
  end.

(** A batch is fully constructed when its array exists, has one slot per
    reported event and no slot is [null]. *)
Definition fully_constructed (c : Forward) : bool :=
  match fc_paths c with
  | None => false
  | Some a => (Z.of_nat (List.length a) =? fc_numEvents c) && forallb not_null a
  end.

(** A world in which every JNI call succeeds, strings are converted by
    [conv], and the handler throws exactly in the calls [throws] picks. *)
Definition world_of (conv : cstring -> NewString) (throws : nat -> bool) : World :=
  {| GetEnv_valid := true;
     PushLocalFrame_outcome := fun _ => Succeeds;
     NewObjectArray_succeeds := fun _ => true;
     NewStringPlatform_result := conv;
     handler_throws := fun k _ => throws k |}.

Definition calm : World := world_of JString (fun _ => false).

(** As [calm], but no Java string can be made of the path [bad]:
    [JNU_NewStringPlatform] returns [NULL] and leaves an exception. *)
Definition world_failing_on (bad : cstring) : World :=
  world_of (fun p => if String.eqb p bad then NullString true else JString p)
           (fun _ => false).

(** As [calm], but the handler throws in its second call. *)
Definition world_throwing_second : World := world_of JString (Nat.eqb 1).

(** As [calm], but [PushLocalFrame] fails. *)
Definition world_without_frames : World :=
  {| GetEnv_valid := true;
     PushLocalFrame_outcome := fun _ => Fails false;
     NewObjectArray_succeeds := fun _ => true;
     NewStringPlatform_result := JString;
     handler_throws := fun _ _ => false |}.

(** As [calm], but the thread has no JNI environment. *)
Definition world_without_env : World :=
  {| GetEnv_valid := false;
     PushLocalFrame_outcome := fun _ => Succeeds;
     NewObjectArray_succeeds := fun _ => true;
     NewStringPlatform_result := JString;
     handler_throws := fun _ _ => false |}.

(** A computation that makes no call to the handler. *)
Definition keeps_calls {A} (m : M A) : Prop :=
  forall s r s', m s = Ok r s' -> calls s' = calls s.

(** The Java string of a path in a world, [null] when there is none. *)
Definition converted (w : World) (p : cstring) : option jstring :=
  match NewStringPlatform_result w p with
  | JString s => Some s
  | NullString _ => None
  end.

Definition convertible (w : World) (p : cstring) : bool :=
  match NewStringPlatform_result w p with
  | JString _ => true
  | NullString _ => false
  end.

(** The state a turn of the loop leaves when nothing failed: one more
    call, made with [throws] telling whether the handler threw. *)
Definition forwarded (tracingEnabled throws : bool) (c : Forward)
    (s : JNIState) : JNIState :=
  {| pending := throws && negb tracingEnabled;
     frames := frames s;
     calls := calls s ++ [c];
     diag := diag s ++ (if throws && tracingEnabled
                        then ["Exception in thread"%string] else []) |}.

End Dispatcher.

(** ** Streams, run loops and the handler's global reference *)

Module Lifecycle.

Definition jobject := Z.
Definition CFStringRef := string.
Definition CFRunLoopRef := Z.
(** A stream reference; [0] is [NULL]. *)
Definition FSEventStreamRef := Z.
(** A [jdouble] is only handed on to FSEvents: its 64 bits. *)
Definition jdouble := Z.

(** [kFSEventStreamEventIdSinceNow] of [FSEvents.h],
    [0xFFFFFFFFFFFFFFFFULL]. *)
Definition kFSEventStreamEventIdSinceNow : Z := 18446744073709551615.

(** The calls of the entry points that take or give back a global
    reference or a stream, or act on a stream or a run loop, with their
    arguments.  [flags] is the [jint] as it is passed; FSEvents reads its
    32 bits as [FSEventStreamCreateFlags]. *)
Inductive Effect : Type :=
| NewGlobalRef (local global : jobject)
| DeleteGlobalRef (global : jobject)
| FSEventStreamCreate (info : jobject) (pathsToWatch : list CFStringRef)
    (sinceWhen : Z) (latency : jdouble) (flags : Z) (result : FSEventStreamRef)
| SetField_globalThisRef (obj value : jobject)
| FSEventStreamScheduleWithRunLoop (stream : FSEventStreamRef) (runLoop : CFRunLoopRef)
| FSEventStreamStart (stream : FSEventStreamRef)
| FSEventStreamStop (stream : FSEventStreamRef)
| FSEventStreamInvalidate (stream : FSEventStreamRef)
| FSEventStreamRelease (stream : FSEventStreamRef)
| CFRunLoopStop (runLoop : CFRunLoopRef).

(** The calls that make or look up an object of CoreFoundation, with
    their results: [toCFString] ([None] for [NULL]), [CFArrayCreate]
    ([false] for [NULL]) and [CFRunLoopGetCurrent].  The file hands none of
    these objects to [CFRelease]. *)
Inductive CFCall : Type :=
| Call_toCFString (dir : string) (result : option CFStringRef)
| Call_CFArrayCreate (values : list CFStringRef) (result : bool)
| Call_CFRunLoopGetCurrent (result : CFRunLoopRef).

(** The run loop of a thread, with the states of section 4.3 of the
    specification: [CFRunLoopRun] pumps until a stop was requested and
    only its return makes the loop [Stopped]. *)
Inductive LoopState : Type := Idle | Pumping | StopRequested | Stopped.

(** What FSEvents keeps of a stream. *)
Record Stream : Type := mkStream {
  delivering : bool;
  scheduled_on : option CFRunLoopRef;
  retain_count : nat;
  context_info : jobject;
  since_when : Z
}.

Record Native : Type := mkNative {
  streams : FSEventStreamRef -> option Stream;
  loops : CFRunLoopRef -> LoopState;
  global_refs : list jobject;
  effects : list Effect;
  cf_calls : list CFCall;
  out : list string
}.

(** The answers of the outside world to [createNewEventStreamFor]. *)
Record OS : Type := mkOS {
  (** [toCFString(env, dir)], [None] for [NULL] *)
  toCFString_result : string -> option CFStringRef;
  (** [CFArrayCreate] returns an array *)
  CFArrayCreate_succeeds : bool;
  (** the global reference [NewGlobalRef] makes of a local one *)
  NewGlobalRef_result : jobject -> jobject;
  (** the stream [FSEventStreamCreate] returns for these paths, [0] for
      [NULL] *)
  FSEventStreamCreate_result : list CFStringRef -> FSEventStreamRef;
  (** [JNU_SetFieldByName] leaves an exception *)
  SetField_throws : bool
}.

Definition log (e : Effect) (n : Native) : Native :=
  {| streams := streams n; loops := loops n; global_refs := global_refs n;
     effects := effects n ++ [e]; cf_calls := cf_calls n; out := out n |}.

Definition print (line : string) (n : Native) : Native :=
  {| streams := streams n; loops := loops n; global_refs := global_refs n;
     effects := effects n; cf_calls := cf_calls n;
     out := out n ++ [line] |}.

Definition note (c : CFCall) (n : Native) : Native :=
  {| streams := streams n; loops := loops n; global_refs := global_refs n;
     effects := effects n; cf_calls := cf_calls n ++ [c]; out := out n |}.

Definition trace_if (tracingEnabled : bool) (lines : list string) (n : Native)
  : Native :=
  if tracingEnabled then fold_left (fun m l => print l m) lines n else n.

Definition set_stream (r : FSEventStreamRef) (s : option Stream) (n : Native)
  : Native :=
  {| streams := fun r' => if r' =? r then s else streams n r';
     loops := loops n; global_refs := global_refs n;
     effects := effects n; cf_calls := cf_calls n; out := out n |}.

Definition update_stream (r : FSEventStreamRef) (f : Stream -> Stream)
    (n : Native) : Native :=
  match streams n r with
  | Some s => set_stream r (Some (f s)) n
  | None => n
  end.

Definition set_loop (l : CFRunLoopRef) (st : LoopState) (n : Native) : Native :=
  {| streams := streams n;
     loops := fun l' => if l' =? l then st else loops n l';
     global_refs := global_refs n; effects := effects n;
     cf_calls := cf_calls n; out := out n |}.

Fixpoint remove_one (x : jobject) (l : list jobject) : list jobject :=
  match l with
  | [] => []
  | y :: t => if y =? x then t else y :: remove_one x t
  end.

(** *** The outside calls *)

Definition do_NewGlobalRef (os : OS) (local : jobject) (n : Native)
  : jobject * Native :=
  let g := NewGlobalRef_result os local in
  (g, log (NewGlobalRef local g)
        {| streams := streams n; loops := loops n;
           global_refs := g :: global_refs n;
           effects := effects n; cf_calls := cf_calls n; out := out n |}).

Definition do_DeleteGlobalRef (g : jobject) (n : Native) : Native :=
  log (DeleteGlobalRef g)
    {| streams := streams n; loops := loops n;
       global_refs := remove_one g (global_refs n);
       effects := effects n; cf_calls := cf_calls n; out := out n |}.

Definition do_FSEventStreamCreate (os : OS) (info : jobject)
    (pathsToWatch : list CFStringRef) (sinceWhen : Z) (latency : jdouble)
    (flags : Z) (n : Native) : FSEventStreamRef * Native :=
  let r := FSEventStreamCreate_result os pathsToWatch in
  let n' := log (FSEventStreamCreate info pathsToWatch sinceWhen latency flags r) n in
  if r =? 0 then (r, n')
  else (r, set_stream r
             (Some {| delivering := false; scheduled_on := None;
                      retain_count := 1; context_info := info;
                      since_when := sinceWhen |}) n').

Definition do_FSEventStreamScheduleWithRunLoop (r : FSEventStreamRef)
    (l : CFRunLoopRef) (n : Native) : Native :=
  log (FSEventStreamScheduleWithRunLoop r l)
    (update_stream r
       (fun s => {| delivering := delivering s; scheduled_on := Some l;
                    retain_count := retain_count s;
                    context_info := context_info s;
                    since_when := since_when s |}) n).

Definition do_FSEventStreamStart (r : FSEventStreamRef) (n : Native) : Native :=
  log (FSEventStreamStart r)
    (update_stream r
       (fun s => {| delivering := true; scheduled_on := scheduled_on s;
                    retain_count := retain_count s;
                    context_info := context_info s;
                    since_when := since_when s |}) n).

(** Unregisters with the FS Events service: no more callbacks. *)
Definition do_FSEventStreamStop (r : FSEventStreamRef) (n : Native) : Native :=
  log (FSEventStreamStop r)
    (update_stream r
       (fun s => {| delivering := false; scheduled_on := scheduled_on s;
                    retain_count := retain_count s;
                    context_info := context_info s;
                    since_when := since_when s |}) n).

(** Unschedules from any run loop. *)
Definition do_FSEventStreamInvalidate (r : FSEventStreamRef) (n : Native)
  : Native :=
  log (FSEventStreamInvalidate r)
    (update_stream r
       (fun s => {| delivering := delivering s; scheduled_on := None;
                    retain_count := retain_count s;
                    context_info := context_info s;
                    since_when := since_when s |}) n).

(** Decrements the reference count; the stream is gone at zero. *)
Definition do_FSEventStreamRelease (r : FSEventStreamRef) (n : Native)
  : Native :=
  log (FSEventStreamRelease r)
    match streams n r with
    | Some s =>
        match retain_count s with
        | S (S k) =>
            set_stream r
              (Some {| delivering := delivering s;
                       scheduled_on := scheduled_on s;
                       retain_count := S k;
                       context_info := context_info s;
                       since_when := since_when s |}) n
        | _ => set_stream r None n
        end
    | None => n
    end.

(** [CFRunLoopStop] asks the loop to stop and returns; it is the return
    of [CFRunLoopRun], on the loop's own thread, that ends the pumping. *)
Definition request_stop (st : LoopState) : LoopState :=
  match st with
  | Pumping => StopRequested
  | other => other
  end.

Definition do_CFRunLoopStop (l : CFRunLoopRef) (n : Native) : Native :=
  log (CFRunLoopStop l) (set_loop l (request_stop (loops n l)) n).

(** The two steps of [CFRunLoopRun] on the hosting thread. *)
Definition run_enters (st : LoopState) : LoopState :=
  match st with
  | Idle => Pumping
  | other => other
  end.

Definition run_returns (st : LoopState) : LoopState :=
  match st with
  | StopRequested => Stopped
  | other => other
  end.

Section EntryPoints.

Variable tracingEnabled : bool.

(** [Java_sun_nio_fs_MacOSXWatchService_createNewEventStreamFor] *)
Definition createNewEventStreamFor (os : OS) (dir : string)
    (latencyInSeconds : jdouble) (flags : Z)
    (localHandlerThreadObject : jobject) (n : Native) : Z * Native :=
  let n_path := note (Call_toCFString dir (toCFString_result os dir)) n in
  match toCFString_result os dir with
  | None => (0, n_path)
  | Some path =>
      let n_array :=
        note (Call_CFArrayCreate [path] (CFArrayCreate_succeeds os)) n_path in
      if negb (CFArrayCreate_succeeds os) then (0, n_array)
      else
        let pathsToWatch := [path] in
        let (handlerThreadObject, n1) :=
          do_NewGlobalRef os localHandlerThreadObject n_array in
        let payload_info := handlerThreadObject in
        let (stream, n2) :=
          do_FSEventStreamCreate os payload_info pathsToWatch
            kFSEventStreamEventIdSinceNow latencyInSeconds flags n1 in
        let n3 :=
          if negb (stream =? 0)
          then log (SetField_globalThisRef handlerThreadObject
                      handlerThreadObject) n2
          else n2 in
        if negb (stream =? 0) && SetField_throws os then (0, n3)
        else
          (stream,
           trace_if tracingEnabled
             ["handler thread 0x%p"; "Created event stream 0x%p"]%string n3)
  end.

(** [Java_sun_nio_fs_MacOSXWatchService_scheduleEventLoop], on the
    thread whose run loop is [current]: [CFRunLoopGetCurrent()] is called
    for the run loop to schedule on, and once more for the line that is
    printed with tracing on. *)
Definition scheduleEventLoop (current : CFRunLoopRef)
    (eventStreamRef : Z) (n : Native) : Native :=
  let stream := eventStreamRef in
  let n0 := note (Call_CFRunLoopGetCurrent current) n in
  let n1 := do_FSEventStreamScheduleWithRunLoop stream current n0 in
  let n2 := do_FSEventStreamStart stream n1 in
  if tracingEnabled
  then print "Scheduled stream 0x%p on thread 0x%p"
         (note (Call_CFRunLoopGetCurrent current) n2)
  else n2.

(** [Java_sun_nio_fs_MacOSXWatchService_CFRunLoopGetCurrent] *)
Definition CFRunLoopGetCurrent (current : CFRunLoopRef) (n : Native)
  : Z * Native :=
  let currentRunLoop := current in
  let n1 := note (Call_CFRunLoopGetCurrent currentRunLoop) n in
  (currentRunLoop,
   trace_if tracingEnabled ["Get current run loop: 0x%p"%string] n1).

(** [Java_sun_nio_fs_MacOSXWatchService_runLoopStop] *)
Definition runLoopStop (runLoopRef : Z) (handlerThreadObject : Z)
    (n : Native) : Native :=
  let n1 := trace_if tracingEnabled ["Stopping run loop 0x%p"%string] n in
  let n2 := do_CFRunLoopStop runLoopRef n1 in
  do_DeleteGlobalRef handlerThreadObject n2.

(** [Java_sun_nio_fs_MacOSXWatchService_FSEventStreamInvalidate] *)
Definition dispose (eventStreamRef : Z) (n : Native) : Native :=
  let streamRef := eventStreamRef in
  let n1 := do_FSEventStreamStop streamRef n in
  let n2 := do_FSEventStreamInvalidate streamRef n1 in
  do_FSEventStreamRelease streamRef n2.

End EntryPoints.

Definition empty : Native :=
  {| streams := fun _ => None; loops := fun _ => Idle; global_refs := [];
     effects := []; cf_calls := []; out := [] |}.

(** A thread pumping the run loop [l] for a watch whose handler is kept
    alive by the global reference [g]. *)
Definition pumping (l : CFRunLoopRef) (g : jobject) : Native :=
  {| streams := fun _ => None;
     loops := fun l' => if l' =? l then Pumping else Idle;
     global_refs := [g]; effects := []; cf_calls := []; out := [] |}.

(** The creation of a watch for [dir] fails: no path string, no array,
    or FSEvents returns no stream. *)
Definition creation_fails (os : OS) (dir : string) : bool :=
  match toCFString_result os dir with
  | None => true
  | Some path =>
      negb (CFArrayCreate_succeeds os)
      || (FSEventStreamCreate_result os [path] =? 0)
  end.

Definition is_DeleteGlobalRef (e : Effect) : bool :=
  match e with
  | DeleteGlobalRef _ => true
  | _ => false
  end.

(** What the specification asks of [runLoopStop]: once it has released
    the reference of the handler, [CFRunLoopRun] has returned. *)
Definition released_only_after_loop_stopped : Prop :=
  forall (tracingEnabled : bool) (runLoopRef handlerThreadObject : Z)
         (n : Native),
    In handlerThreadObject (global_refs n) ->
    ~ In handlerThreadObject
        (global_refs (runLoopStop tracingEnabled runLoopRef
                        handlerThreadObject n)) ->
    loops (runLoopStop tracingEnabled runLoopRef handlerThreadObject n)
      runLoopRef = Stopped.

(** An operating system that hands out the stream [7] and the global
    reference [g + 100] for the local reference [g], and one that has no
    stream to give. *)
Definition generous : OS :=
  {| toCFString_result := fun dir => Some dir;
     CFArrayCreate_succeeds := true;
     NewGlobalRef_result := fun g => g + 100;
     FSEventStreamCreate_result := fun _ => 7;
     SetField_throws := false |}.

Definition exhausted : OS :=
  {| toCFString_result := fun dir => Some dir;
     CFArrayCreate_succeeds := true;
     NewGlobalRef_result := fun g => g + 100;
     FSEventStreamCreate_result := fun _ => 0;
     SetField_throws := false |}.

End Lifecycle.

(** ** Reading the tracing flag *)

Module Startup.
Import Dispatcher.
Local Open Scope jni_scope.

(** A [jfieldID]: [None] is [NULL], and the id of the static field
    [tracingEnabled] of the class carries the value the field holds. *)
Definition jfieldID := option bool.

(** [GetStaticFieldID(env, clazz, "tracingEnabled", "Z")] on a class
    whose field, if it has one, holds [field]: without the field the id is
    [NULL] and a [NoSuchFieldError] is pending. *)
Definition GetStaticFieldID (field : option bool) : M jfieldID :=
  match field with
  | Some b => ret (Some b)
  | None => throw ;; ret None
  end.

(** [GetStaticBooleanField]: JNI defines nothing for a [NULL] id. *)
Definition GetStaticBooleanField (id : jfieldID) : M bool :=
  match id with
  | Some b => ret b
  | None => undefined
  end.

(** [Java_sun_nio_fs_MacOSXWatchService_initIDs]: the result is the value
    stored into the static [tracingEnabled]. *)
Definition initIDs (field : option bool) : M bool :=
  tracingEnabledFieldID <- GetStaticFieldID field ;;
  when (match tracingEnabledFieldID with None => true | Some _ => false end)
    ExceptionDescribe ;;
  tracingEnabled <- GetStaticBooleanField tracingEnabledFieldID ;;
  exc <- ExceptionCheck ;;
  when exc ExceptionDescribe ;;
  ret tracingEnabled.

End Startup.

(** ** What a run of the loop hands over, call by call *)

Module Batches.
Import CInt Dispatcher.

(** A computation that pushes and pops no local frame. *)
Definition keeps_frames {A} (m : M A) : Prop :=
  forall s r s', m s = Ok r s' -> frames s' = frames s.

(** The calls [new] of a loop that starts at [eventIndex]: each is made to
    the handler for the stream, passes the addresses of the flags and ids
    at the index its turn starts at, reports the count of that turn, and is
    followed by the turn that starts where it ends; a call that is not the
    last one has a complete array. *)
Fixpoint chained (handler stream total eventIndex : Z) (new : list Forward)
  : Prop :=
  match new with
  | [] => True
  | c :: rest =>
      fc_handler c = handler
      /\ fc_stream c = stream
      /\ fc_flags c = eventIndex
      /\ fc_ids c = eventIndex
      /\ fc_numEvents c = numEventsToReport_at total eventIndex
      /\ (rest <> [] -> fully_constructed c = true)
      /\ chained handler stream total
           (to_size_t (eventIndex + fc_numEvents c)) rest
  end.

(** The calls start at [eventIndex] and each starts where the one before
    it ends, for the flags and for the ids. *)
Fixpoint contiguous (eventIndex : Z) (new : list Forward) : bool :=
  match new with
  | [] => true
  | c :: rest =>
      (fc_flags c =? eventIndex) && (fc_ids c =? eventIndex)
      && contiguous (to_size_t (eventIndex + fc_numEvents c)) rest
  end.

(** A computation that does not run out of fuel: it returns or runs into
    what C leaves undefined. *)
Definition ends {A} (m : M A) : Prop :=
  forall s, m s <> OutOfFuel.

(** The call is made to this handler, for this stream. *)
Definition addressed_to (handler stream : Z) (c : Forward) : bool :=
  (fc_handler c =? handler) && (fc_stream c =? stream).

(** The state a run stops in: the one it returns in, or the one in which
    it runs into what C or JNI leave undefined; there is none when the
    bound on the turns of the loop is used up. *)
Definition reached {A} (r : Res A) : option JNIState :=
  match r with
  | Ok _ s => Some s
  | Undefined s => Some s
  | OutOfFuel => None
  end.

(** A computation that has called the handler no further when it runs
    into undefined behaviour. *)
Definition stuck_keeps_calls {A} (m : M A) : Prop :=
  forall s s', m s = Undefined s' -> calls s' = calls s.

(** The first [turns] turns of the loop of [callback], or all its turns
    when it ends before: [callback_loop] looked at after that many turns,
    also when it would go on. *)
Fixpoint callback_prefix (tracingEnabled : bool) (w : World) (turns : nat)
    (streamRef clientCallBackInfo numEventsTotal : Z)
    (eventPaths : list cstring) (OK : bool) (eventIndex : Z) : M unit :=
  match turns with
  | O => ret tt
  | S turns' =>
      if OK && (eventIndex <? numEventsTotal)
      then
        bind (callback_turn tracingEnabled w streamRef clientCallBackInfo
                numEventsTotal eventPaths eventIndex)
          (fun r =>
             callback_prefix tracingEnabled w turns' streamRef
               clientCallBackInfo numEventsTotal eventPaths (fst r) (snd r))
      else ret tt
  end.

(** A computation that clears no pending exception. *)
Definition keeps_exception {A} (m : M A) : Prop :=
  forall s r s', m s = Ok r s' -> pending s = true -> pending s' = true.

(** The handler throws in one of the calls [new], the first of which is
    the call number [k] of the thread. *)
Fixpoint thrown (w : World) (k : nat) (new : list Forward) : bool :=
  match new with
  | [] => false
  | c :: rest => handler_throws w k c || thrown w (S k) rest
  end.

(** A JVM whose [PushLocalFrame] refuses a negative capacity with
    [JNI_ERR] and no exception, as that of HotSpot does, and in which
    nothing else fails. *)
Definition world_checking_capacity : World :=
  {| GetEnv_valid := true;
     PushLocalFrame_outcome :=
       fun capacity => if capacity <? 0 then Fails false else Succeeds;
     NewObjectArray_succeeds := fun _ => true;
     NewStringPlatform_result := JString;
     handler_throws := fun _ _ => false |}.

End Batches.

(** ** Watches from their creation to their disposal *)

Module Watch.
Import Lifecycle.

(** Two states of the native side with the same streams, run loops and
    global references, reached by the same calls of [Effect]; what was
    printed and which objects of CoreFoundation were made or looked up is
    left open. *)
Definition same_watches (n m : Native) : Prop :=
  (forall r, streams n r = streams m r)
  /\ (forall l, loops n l = loops m l)
  /\ global_refs n = global_refs m
  /\ effects n = effects m.

(** An operating system that gives the stream [7], and a JVM in which the
    field [globalThisRef] of the handler cannot be set. *)
Definition unsettable : OS :=
  {| toCFString_result := fun dir => Some dir;
     CFArrayCreate_succeeds := true;
     NewGlobalRef_result := fun g => g + 100;
     FSEventStreamCreate_result := fun _ => 7;
     SetField_throws := true |}.

(** A stream as [FSEventStreamCreate] leaves it. *)
Definition created_stream (info : jobject) : Stream :=
  {| delivering := false; scheduled_on := None; retain_count := 1;
     context_info := info; since_when := kFSEventStreamEventIdSinceNow |}.

End Watch.

Import CInt Dispatcher.
Local Open Scope jni_scope.

(** * Properties of the dispatcher *)

(** ** Stepping through the monad *)

Lemma bind_Ok {A B} (m : M A) (k : A -> M B) s a s' :
  m s = Ok a s' -> bind m k s = k a s'.
Proof. intros H. unfold bind. now rewrite H. Qed.

Lemma bind_Undefined {A B} (m : M A) (k : A -> M B) s s' :
  m s = Undefined s' -> bind m k s = Undefined s'.
Proof. intros H. unfold bind. now rewrite H. Qed.

Lemma callback_loop_S tracing w fuel stream info total paths OK idx :
  callback_loop tracing w (S fuel) stream info total paths OK idx =
  if OK && (idx <? total)
  then (r <- callback_turn tracing w stream info total paths idx ;;
        callback_loop tracing w fuel stream info total paths (fst r) (snd r))
  else ret tt.
Proof. reflexivity. Qed.

Lemma convert_from_S tracing w todo i paths idx a :
  convert_from tracing w (S todo) i paths idx a =
  (c <- read_path paths (idx + i) ;;
   path <- JNU_NewStringPlatform w c ;;
   match path with
   | None =>
       exc <- ExceptionCheck ;;
       when (exc && tracing) ExceptionDescribe ;;
       ret (false, a)
   | Some p =>
       a' <- SetObjectArrayElement a i p ;;
       convert_from tracing w todo (i + 1) paths idx a'
   end).
Proof. reflexivity. Qed.

(** ** Lists and arrays *)

Lemma store_app {A} (l1 l2 : list A) (x v : A) :
  store (l1 ++ x :: l2) (List.length l1) v = l1 ++ v :: l2.
Proof. induction l1 as [|h t IH]; simpl; [reflexivity | now rewrite IH]. Qed.

Lemma read_path_middle (pre rest post : list cstring) (c : cstring) :
  forall s, read_path (pre ++ (c :: rest) ++ post) (Z.of_nat (List.length pre)) s
            = Ok c s.
Proof.
  intros s. unfold read_path.
  destruct (Z.ltb_spec (Z.of_nat (List.length pre)) 0); [lia|].
  rewrite Nat2Z.id, nth_error_app2 by lia.
  now rewrite Nat.sub_diag.
Qed.

Lemma read_path_outside (paths : list cstring) (i : Z) s :
  Z.of_nat (List.length paths) <= i -> read_path paths i s = Undefined s.
Proof.
  intros H. unfold read_path.
  destruct (Z.ltb_spec i 0); [reflexivity|].
  destruct (nth_error paths (Z.to_nat i)) eqn:N; [|reflexivity].
  assert (Z.to_nat i < List.length paths)%nat
    by (apply nth_error_Some; congruence).
  lia.
Qed.

(** ** [convertToJavaStringArray] on paths that all convert *)

Lemma convert_from_all tracing w :
  forall (rest pre done post : list cstring) (done_js : list (option jstring)) s,
    List.length done_js = List.length done ->
    forallb (convertible w) rest = true ->
    convert_from tracing w (List.length rest) (Z.of_nat (List.length done))
      (pre ++ done ++ rest ++ post) (Z.of_nat (List.length pre))
      (Some (done_js ++ repeat None (List.length rest))) s
    = Ok (true, Some (done_js ++ map (converted w) rest)) s.
Proof.
  induction rest as [|c rest IH]; intros pre done post done_js s Hlen Hall.
  - simpl. now rewrite !app_nil_r.
  - simpl in Hall. apply andb_true_iff in Hall as [Hc Hall].
    change (List.length (c :: rest)) with (S (List.length rest)).
    rewrite convert_from_S.
    replace (Z.of_nat (List.length pre) + Z.of_nat (List.length done))
      with (Z.of_nat (List.length (pre ++ done))) by (rewrite length_app; lia).
    rewrite (bind_Ok _ _ s c s)
      by (rewrite (app_assoc pre done); apply read_path_middle).
    unfold convertible in Hc. unfold JNU_NewStringPlatform.
    destruct (NewStringPlatform_result w c) as [js|] eqn:Ec; [|discriminate].
    rewrite (bind_Ok _ _ s (Some js) s) by reflexivity.
    rewrite (bind_Ok _ _ s
               (Some (done_js ++ Some js :: repeat None (List.length rest))) s).
    + specialize (IH pre (done ++ [c]) post (done_js ++ [Some js]) s).
      rewrite !length_app in IH. simpl in IH.
      rewrite <- !app_assoc in IH. simpl in IH.
      replace (Z.of_nat (List.length done) + 1)
        with (Z.of_nat (List.length done + 1)) by lia.
      change ((c :: rest) ++ post) with (c :: rest ++ post).
      rewrite IH by (try lia; assumption).
      simpl. unfold converted. now rewrite Ec.
    + unfold SetObjectArrayElement.
      rewrite length_app. simpl List.length. rewrite repeat_length.
      destruct (Z.leb_spec 0 (Z.of_nat (List.length done))); [|lia].
      destruct (Z.ltb_spec (Z.of_nat (List.length done))
                  (Z.of_nat (List.length done_js + S (List.length rest))));
        [|lia].
      cbn [andb].
      rewrite Nat2Z.id, <- Hlen.
      change (repeat None (S (List.length rest)))
        with (@None jstring :: repeat None (List.length rest)).
      now rewrite store_app.
Qed.

(** ** One turn of the loop when the chunk is built *)

Lemma createJavaArray_ok tracing w n s :
  pending s = false -> 0 <= n -> NewObjectArray_succeeds w n = true ->
  createJavaArray tracing w n s = Ok (true, Some (repeat None (Z.to_nat n))) s.
Proof.
  intros Hp Hn Hw. unfold createJavaArray, NewObjectArray.
  destruct (Z.leb_spec 0 n); [|lia]. rewrite Hw. cbn [andb].
  unfold bind, ret, ExceptionCheck. now rewrite Hp.
Qed.

Lemma build_chunk_ok tracing w (pre chunk post : list cstring) s :
  let n := Z.of_nat (List.length chunk) in
  pending s = false ->
  PushLocalFrame_outcome w (to_jint (n + 5)) = Succeeds ->
  NewObjectArray_succeeds w n = true ->
  forallb (convertible w) chunk = true ->
  build_chunk tracing w (pre ++ chunk ++ post) (Z.of_nat (List.length pre)) n s
  = Ok (true, true, Some (map (converted w) chunk))
       {| pending := pending s; frames := S (frames s);
          calls := calls s; diag := diag s |}.
Proof.
  intros n Hp Hpush Hnew Hall. unfold build_chunk, PushLocalFrame.
  rewrite Hpush.
  erewrite bind_Ok by reflexivity.
  change (JNI_OK =? JNI_OK) with true. cbv iota.
  erewrite bind_Ok
    by (apply createJavaArray_ok; [exact Hp | subst n; lia | exact Hnew]).
  cbn [fst snd]. unfold convertToJavaStringArray.
  subst n. rewrite Nat2Z.id.
  pose proof (convert_from_all tracing w chunk pre [] post []) as H.
  simpl in H. erewrite bind_Ok by (apply H; [reflexivity | exact Hall]).
  reflexivity.
Qed.

Lemma callback_turn_ok tracing w stream info total
    (pre chunk post : list cstring) s :
  let n := Z.of_nat (List.length chunk) in
  let idx := Z.of_nat (List.length pre) in
  let c := {| fc_handler := info; fc_stream := stream; fc_numEvents := n;
              fc_paths := Some (map (converted w) chunk);
              fc_flags := idx; fc_ids := idx |} in
  numEventsToReport_at total idx = n ->
  pending s = false ->
  PushLocalFrame_outcome w (to_jint (n + 5)) = Succeeds ->
  NewObjectArray_succeeds w n = true ->
  forallb (convertible w) chunk = true ->
  callback_turn tracing w stream info total (pre ++ chunk ++ post) idx s
  = Ok (true, to_size_t (idx + n))
       (forwarded tracing (handler_throws w (List.length (calls s)) c) c s).
Proof.
  intros n idx c Hn Hp Hpush Hnew Hall. unfold callback_turn.
  rewrite Hn.
  erewrite bind_Ok by (apply build_chunk_ok; assumption).
  fold idx. fold n. fold c.
  unfold JNU_CallMethodByName, forwarded, bind, when, ret, ExceptionDescribe,
    PopLocalFrame.
  cbn [pending frames calls diag]. rewrite Hp. subst c.
  destruct (handler_throws w (List.length (calls s)) _), tracing;
    cbn; rewrite ?app_nil_r; reflexivity.
Qed.

(** ** The size of a chunk *)

Lemma to_size_t_small z : 0 <= z < 18446744073709551616 -> to_size_t z = z.
Proof. intros H. unfold to_size_t. now apply Z.mod_small. Qed.

Lemma to_jint_small z : -2147483648 <= z < 2147483648 -> to_jint z = z.
Proof. intros H. unfold to_jint. rewrite Z.mod_small; lia. Qed.

Lemma numEventsToReport_at_fits total :
  0 <= total <= MAX_EVENTS_TO_REPORT_AT_ONCE ->
  numEventsToReport_at total 0 = total.
Proof.
  unfold MAX_EVENTS_TO_REPORT_AT_ONCE, INT_MAX. intros H.
  unfold numEventsToReport_at, numEventsToReport_for,
    MAX_EVENTS_TO_REPORT_AT_ONCE, INT_MAX.
  rewrite Z.sub_0_r, to_size_t_small by lia.
  destruct (Z.gtb_spec total (2147483647 - 2)); [lia|].
  apply to_jint_small; lia.
Qed.

(** ** A callback whose events fit one chunk *)

Lemma callback_single_chunk tracing w fuel stream info (paths : list cstring) s :
  let total := Z.of_nat (List.length paths) in
  let c := {| fc_handler := info; fc_stream := stream; fc_numEvents := total;
              fc_paths := Some (map (converted w) paths);
              fc_flags := 0; fc_ids := 0 |} in
  GetEnv_valid w = true ->
  0 < total <= MAX_EVENTS_TO_REPORT_AT_ONCE ->
  pending s = false ->
  PushLocalFrame_outcome w (to_jint (total + 5)) = Succeeds ->
  NewObjectArray_succeeds w total = true ->
  forallb (convertible w) paths = true ->
  handler_throws w (List.length (calls s)) c = false ->
  callback tracing w (S (S fuel)) stream info total paths s
  = Ok tt {| pending := false; frames := frames s; calls := calls s ++ [c];
             diag := (diag s
                      ++ (if tracing
                          then ["Callback fired!"; "handler thread 0x%p"]%string
                          else []))
                     ++ [] |}.
Proof.
  intros total c Henv Htotal Hp Hpush Hnew Hall Hthrow.
  unfold callback. rewrite Henv.
  set (s1 := {| pending := pending s; frames := frames s; calls := calls s;
                diag := diag s ++ (if tracing
                                   then ["Callback fired!"; "handler thread 0x%p"]%string
                                   else []) |}).
  assert (Hs1 : when tracing (printf "Callback fired!" ;; printf "handler thread 0x%p") s
                = Ok tt s1).
  { subst s1. destruct tracing; unfold when, bind, printf, ret; cbn.
    - now rewrite <- app_assoc.
    - rewrite app_nil_r. now destruct s. }
  rewrite (bind_Ok _ _ _ _ _ Hs1).
  rewrite callback_loop_S.
  destruct (Z.ltb_spec 0 total); [|lia]. cbn [andb].
  pose proof (callback_turn_ok tracing w stream info total [] paths [] s1) as T.
  rewrite app_nil_r in T. change ([] ++ paths) with paths in T.
  change (Z.of_nat (List.length (@nil cstring))) with 0 in T.
  cbv zeta in T. fold total in T.
  rewrite (bind_Ok _ _ _ _ _
             (T (numEventsToReport_at_fits total ltac:(lia)) Hp Hpush Hnew Hall)).
  cbn [fst snd]. rewrite callback_loop_S.
  rewrite Z.add_0_l, to_size_t_small
    by (unfold MAX_EVENTS_TO_REPORT_AT_ONCE, INT_MAX in Htotal; lia).
  rewrite Z.ltb_irrefl. cbn [andb].
  change (calls s1) with (calls s). fold c. rewrite Hthrow.
  reflexivity.
Qed.

(** ** One event more than a chunk holds *)

Lemma read_path_inside (paths : list cstring) (i : Z) s :
  0 <= i < Z.of_nat (List.length paths) ->
  exists c, read_path paths i s = Ok c s /\ In c paths.
Proof.
  intros H. unfold read_path.
  destruct (Z.ltb_spec i 0); [lia|].
  destruct (nth_error paths (Z.to_nat i)) as [c|] eqn:N.
  - exists c. split; [reflexivity | eapply nth_error_In; eassumption].
  - apply nth_error_None in N. lia.
Qed.

Lemma in_firstn {A} (n : nat) (l : list A) (x : A) :
  In x (firstn n l) -> In x l.
Proof.
  intros H. rewrite <- (firstn_skipn n l). apply in_or_app. now left.
Qed.

Lemma in_skipn {A} (n : nat) (l : list A) (x : A) :
  In x (skipn n l) -> In x l.
Proof.
  intros H. rewrite <- (firstn_skipn n l). apply in_or_app. now right.
Qed.

(** The paths of a part of [eventPaths] convert when all of them do. *)
Ltac convertible_part Hall :=
  apply forallb_forall; intros ? ?;
  repeat match goal with
         | H : In _ (firstn _ _) |- _ => apply in_firstn in H
         | H : In _ (skipn _ _) |- _ => apply in_skipn in H
         end;
  rewrite forallb_forall in Hall; now apply Hall.

Lemma forallb_convertible_calm (paths : list cstring) :
  forallb (convertible calm) paths = true.
Proof. induction paths as [|p t IH]; simpl; [reflexivity | exact IH]. Qed.

Lemma max_events_value : MAX_EVENTS_TO_REPORT_AT_ONCE = 2147483645.
Proof. reflexivity. Qed.

Lemma callback_overreads tracing w fuel stream info (paths : list cstring) s
    (m : Z) :
  let total := m + 1 in
  let c := {| fc_handler := info; fc_stream := stream; fc_numEvents := m;
              fc_paths := Some (map (converted w) (firstn (Z.to_nat m) paths));
              fc_flags := 0; fc_ids := 0 |} in
  m = MAX_EVENTS_TO_REPORT_AT_ONCE ->
  Z.of_nat (List.length paths) = total ->
  GetEnv_valid w = true ->
  pending s = false ->
  PushLocalFrame_outcome w (to_jint (m + 5)) = Succeeds ->
  PushLocalFrame_outcome w (to_jint (total + 5)) = Succeeds ->
  NewObjectArray_succeeds w m = true ->
  NewObjectArray_succeeds w total = true ->
  forallb (convertible w) paths = true ->
  handler_throws w (List.length (calls s)) c = false ->
  exists s', callback tracing w (S (S fuel)) stream info total paths s = Undefined s'
             /\ calls s' = calls s ++ [c].
Proof.
  intros total c Hm Hlen Henv Hp Hpush1 Hpush2 Hnew1 Hnew2 Hall Hthrow.
  subst c. set (chunk := firstn (Z.to_nat m) paths) in *.
  set (c := {| fc_handler := info; fc_stream := stream; fc_numEvents := m;
               fc_paths := Some (map (converted w) chunk);
               fc_flags := 0; fc_ids := 0 |}) in *.
  assert (Hmax : m = 2147483645) by (rewrite Hm; apply max_events_value).
  clear Hm.
  assert (Htotal : total = 2147483646) by (subst total; lia).
  unfold callback. rewrite Henv.
  assert (Hs1 : exists s1, when tracing (printf "Callback fired!" ;;
                                         printf "handler thread 0x%p") s = Ok tt s1
                           /\ pending s1 = false /\ calls s1 = calls s).
  { destruct tracing; unfold when, bind, printf, ret; cbn; eauto. }
  destruct Hs1 as (s1 & Hs1 & Hp1 & Hc1).
  rewrite (bind_Ok _ _ _ _ _ Hs1). clear Hs1.
  (* first turn: the chunk of [m] events *)
  set (post := skipn (Z.to_nat m) paths).
  assert (Hsplit : paths = [] ++ chunk ++ post)
    by (subst chunk post; rewrite app_nil_l; now rewrite firstn_skipn).
  assert (Hchunk : Z.of_nat (List.length chunk) = m)
    by (subst chunk; rewrite length_firstn; lia).
  assert (Hall1 : forallb (convertible w) chunk = true)
    by (subst chunk; convertible_part Hall).
  rewrite callback_loop_S.
  destruct (Z.ltb_spec 0 total); [|lia]. cbn [andb].
  pose proof (callback_turn_ok tracing w stream info total [] chunk post s1) as T.
  cbv zeta in T. rewrite <- Hsplit, Hchunk in T.
  change (Z.of_nat (List.length (@nil cstring))) with 0 in T.
  assert (Hn1 : numEventsToReport_at total 0 = m)
    by (rewrite Htotal, Hmax; reflexivity).
  rewrite (bind_Ok _ _ _ _ _ (T Hn1 Hp1 Hpush1 Hnew1 Hall1)). clear T.
  cbn [fst snd]. rewrite Hc1. fold c. rewrite Hthrow.
  rewrite Z.add_0_l, to_size_t_small by lia.
  set (s2 := forwarded tracing false c s1).
  (* second turn: one event is left, [total] are asked for *)
  rewrite callback_loop_S.
  destruct (Z.ltb_spec m total); [|lia]. cbn [andb].
  assert (Hn2 : numEventsToReport_at total m = total)
    by (rewrite Htotal, Hmax; reflexivity).
  unfold callback_turn. rewrite Hn2.
  assert (Hconv : forall st,
             convertToJavaStringArray tracing w paths m total
               (Some (repeat None (Z.to_nat total))) st = Undefined st).
  { intros st. unfold convertToJavaStringArray.
    replace (Z.to_nat total) with (S (S (Z.to_nat (total - 2)))) by lia.
    rewrite convert_from_S.
    destruct (read_path_inside paths (m + 0) st) as (p & Hr & Hin); [lia|].
    rewrite (bind_Ok _ _ _ _ _ Hr).
    rewrite forallb_forall in Hall. specialize (Hall p Hin).
    unfold convertible in Hall. unfold JNU_NewStringPlatform at 1.
    destruct (NewStringPlatform_result w p) as [js|]; [|discriminate].
    erewrite bind_Ok by reflexivity.
    unfold SetObjectArrayElement at 1. rewrite repeat_length.
    destruct (Z.leb_spec 0 0); [|lia].
    destruct (Z.ltb_spec 0 (Z.of_nat (S (S (Z.to_nat (total - 2)))))); [|lia].
    cbn [andb]. erewrite bind_Ok by reflexivity.
    rewrite convert_from_S.
    now erewrite bind_Undefined by (apply read_path_outside; lia). }
  assert (Hb : exists s3, build_chunk tracing w paths m total s2 = Undefined s3
                          /\ calls s3 = calls s2).
  { unfold build_chunk, PushLocalFrame. rewrite Hpush2.
    erewrite bind_Ok by reflexivity.
    change (JNI_OK =? JNI_OK) with true. cbv iota.
    erewrite bind_Ok
      by (apply createJavaArray_ok; [reflexivity | lia | exact Hnew2]).
    cbn [fst snd]. erewrite bind_Undefined by apply Hconv.
    eexists. split; reflexivity. }
  destruct Hb as (s3 & Hb & Hc3).
  rewrite (bind_Undefined _ _ s2 s3) by (apply bind_Undefined; exact Hb).
  exists s3. split; [reflexivity|].
  rewrite Hc3. subst s2. unfold forwarded. cbn [calls]. now rewrite Hc1.
Qed.

(** ** A turn that starts with an exception pending, tracing off *)

Lemma callback_turn_pending w stream info total (paths : list cstring) idx s :
  let n := numEventsToReport_at total idx in
  let c := {| fc_handler := info; fc_stream := stream; fc_numEvents := n;
              fc_paths := Some (repeat None (Z.to_nat n));
              fc_flags := idx; fc_ids := idx |} in
  pending s = true ->
  0 <= n ->
  PushLocalFrame_outcome w (to_jint (n + 5)) = Succeeds ->
  NewObjectArray_succeeds w n = true ->
  callback_turn false w stream info total paths idx s
  = Ok (false, to_size_t (idx + n))
       {| pending := true; frames := frames s; calls := calls s ++ [c];
          diag := diag s |}.
Proof.
  intros n c Hp Hn Hpush Hnew. unfold callback_turn. fold n.
  assert (Hb : build_chunk false w paths idx n s
               = Ok (true, false, Some (repeat None (Z.to_nat n)))
                    {| pending := true; frames := S (frames s);
                       calls := calls s; diag := diag s |}).
  { unfold build_chunk, PushLocalFrame. rewrite Hpush.
    erewrite bind_Ok by reflexivity.
    change (JNI_OK =? JNI_OK) with true. cbv iota.
    unfold createJavaArray, NewObjectArray.
    destruct (Z.leb_spec 0 n); [|lia]. rewrite Hnew. cbn [andb].
    unfold bind, ret, ExceptionCheck, when. cbn [pending fst snd].
    now rewrite Hp. }
  rewrite (bind_Ok _ _ _ _ _ Hb).
  unfold JNU_CallMethodByName, bind, when, ret, PopLocalFrame.
  cbn [pending frames calls diag orb Nat.pred].
  reflexivity.
Qed.

(** ** Three chunks, and the handler throws in the second call *)

Lemma callback_loop_two_full_chunks tracing w fuel stream info
    (paths : list cstring) s (m : Z) :
  let total := 2 * m + 12 in
  let k := Z.to_nat m in
  let c1 := {| fc_handler := info; fc_stream := stream; fc_numEvents := m;
               fc_paths := Some (map (converted w) (firstn k paths));
               fc_flags := 0; fc_ids := 0 |} in
  let c2 := {| fc_handler := info; fc_stream := stream; fc_numEvents := m;
               fc_paths := Some (map (converted w) (firstn k (skipn k paths)));
               fc_flags := m; fc_ids := m |} in
  m = MAX_EVENTS_TO_REPORT_AT_ONCE ->
  Z.of_nat (List.length paths) = total ->
  pending s = false ->
  (forall n, PushLocalFrame_outcome w n = Succeeds) ->
  (forall n, NewObjectArray_succeeds w n = true) ->
  forallb (convertible w) paths = true ->
  (forall c, handler_throws w (List.length (calls s)) c = false) ->
  (forall c, handler_throws w (S (List.length (calls s))) c = true) ->
  callback_loop tracing w (S (S fuel)) stream info total paths true 0 s
  = callback_loop tracing w fuel stream info total paths true (2 * m)
      (forwarded tracing true c2 (forwarded tracing false c1 s)).
Proof.
  intros total k c1 c2 Hm Hlen Hp Hpush Hnew Hall Hquiet Hthrow.
  assert (Hmax : m = 2147483645) by (rewrite Hm; apply max_events_value).
  clear Hm.
  assert (Htotal : total = 4294967302) by (subst total; lia).
  subst c1 c2.
  set (chunk1 := firstn k paths).
  set (rest1 := skipn k paths).
  set (chunk2 := firstn k rest1).
  set (rest2 := skipn k rest1).
  assert (Hk : Z.of_nat k = m) by (subst k; lia).
  assert (Hpaths : paths = chunk1 ++ chunk2 ++ rest2)
    by (subst chunk1 chunk2 rest2 rest1; now rewrite !firstn_skipn).
  assert (Hrest1 : List.length rest1 = (List.length paths - k)%nat)
    by (subst rest1; apply length_skipn).
  assert (Hl1 : Z.of_nat (List.length chunk1) = m)
    by (subst chunk1; rewrite length_firstn; lia).
  assert (Hl2 : Z.of_nat (List.length chunk2) = m)
    by (subst chunk2; rewrite length_firstn; lia).
  assert (Hall1 : forallb (convertible w) chunk1 = true)
    by (subst chunk1; convertible_part Hall).
  assert (Hall2 : forallb (convertible w) chunk2 = true)
    by (subst chunk2 rest1; convertible_part Hall).
  (* first turn *)
  rewrite callback_loop_S.
  destruct (Z.ltb_spec 0 total); [|lia]. cbn [andb].
  pose proof (callback_turn_ok tracing w stream info total [] chunk1
                (chunk2 ++ rest2) s) as T1.
  cbv zeta in T1. rewrite app_nil_l, <- Hpaths, Hl1 in T1.
  change (Z.of_nat (List.length (@nil cstring))) with 0 in T1.
  assert (Hn1 : numEventsToReport_at total 0 = m)
    by (rewrite Htotal, Hmax; reflexivity).
  rewrite (bind_Ok _ _ _ _ _ (T1 Hn1 Hp (Hpush _) (Hnew _) Hall1)). clear T1.
  cbn [fst snd]. rewrite Hquiet.
  rewrite Z.add_0_l, to_size_t_small by lia.
  match goal with |- context [forwarded tracing false ?c s] =>
    set (c1 := c); set (s1 := forwarded tracing false c1 s) end.
  assert (Hp1 : pending s1 = false) by reflexivity.
  assert (Hc1 : calls s1 = calls s ++ [c1]) by reflexivity.
  (* second turn: the handler throws *)
  rewrite callback_loop_S.
  destruct (Z.ltb_spec m total); [|lia]. cbn [andb].
  pose proof (callback_turn_ok tracing w stream info total chunk1 chunk2
                rest2 s1) as T2.
  cbv zeta in T2. rewrite <- Hpaths, Hl1, Hl2 in T2.
  assert (Hn2 : numEventsToReport_at total m = m)
    by (rewrite Htotal, Hmax; reflexivity).
  rewrite (bind_Ok _ _ _ _ _ (T2 Hn2 Hp1 (Hpush _) (Hnew _) Hall2)). clear T2.
  cbn [fst snd]. rewrite Hc1, length_app, Nat.add_1_r, Hthrow.
  replace (to_size_t (m + m)) with (2 * m)
    by (rewrite to_size_t_small; lia).
  reflexivity.
Qed.

Lemma callback_goes_on_after_throw w fuel stream info (paths : list cstring) s
    (m : Z) :
  let total := 2 * m + 12 in
  m = MAX_EVENTS_TO_REPORT_AT_ONCE ->
  Z.of_nat (List.length paths) = total ->
  GetEnv_valid w = true ->
  pending s = false ->
  (forall n, PushLocalFrame_outcome w n = Succeeds) ->
  (forall n, NewObjectArray_succeeds w n = true) ->
  forallb (convertible w) paths = true ->
  (forall c, handler_throws w (List.length (calls s)) c = false) ->
  (forall c, handler_throws w (S (List.length (calls s))) c = true) ->
  exists s' c1 c2 c3,
    callback false w (S (S (S (S fuel)))) stream info total paths s = Ok tt s'
    /\ calls s' = calls s ++ [c1; c2; c3]
    /\ map fc_numEvents [c1; c2; c3] = [m; m; 6]
    /\ map fc_flags [c1; c2; c3] = [0; m; 2 * m]
    /\ fc_paths c3 = Some (repeat None 6)
    /\ pending s' = true.
Proof.
  intros total Hm Hlen Henv Hp Hpush Hnew Hall Hquiet Hthrow.
  unfold callback, when. rewrite Henv.
  erewrite bind_Ok by reflexivity.
  cbv beta iota.
  pose proof (callback_loop_two_full_chunks false w (S (S fuel)) stream info
                paths s m Hm Hlen Hp Hpush Hnew Hall Hquiet Hthrow) as T12.
  cbv zeta in T12. fold total in T12. rewrite T12. clear T12.
  assert (Hmax : m = 2147483645) by (rewrite Hm; apply max_events_value).
  clear Hm.
  assert (Htotal : total = 4294967302) by (subst total; lia).
  match goal with |- context [forwarded false true ?c (forwarded false false ?d s)] =>
    set (c2 := c); set (c1 := d);
    set (s2 := forwarded false true c2 (forwarded false false c1 s)) end.
  assert (Hp2 : pending s2 = true) by reflexivity.
  assert (Hc2 : calls s2 = calls s ++ [c1; c2])
    by (subst s2; unfold forwarded; cbn [calls]; now rewrite <- app_assoc).
  (* third turn: the exception of the second call is still pending *)
  rewrite callback_loop_S.
  destruct (Z.ltb_spec (2 * m) total); [|lia]. cbn [andb].
  assert (Hn3 : numEventsToReport_at total (2 * m) = 6)
    by (rewrite Htotal, Hmax; reflexivity).
  pose proof (callback_turn_pending w stream info total paths (2 * m) s2) as T3.
  cbv zeta in T3. rewrite Hn3 in T3.
  rewrite (bind_Ok _ _ _ _ _ (T3 Hp2 ltac:(lia) (Hpush _) (Hnew _))). clear T3.
  cbn [fst snd]. rewrite callback_loop_S. cbn [andb].
  do 4 eexists. split; [reflexivity|].
  cbn [calls pending]. rewrite Hc2, <- app_assoc.
  split; [reflexivity|]. repeat split; reflexivity.
Qed.

(** With tracing on, [ExceptionDescribe] has cleared the exception of the
    second call when the third turn starts: the loop goes on to the end. *)
Lemma callback_goes_on_after_throw_traced w fuel stream info
    (paths : list cstring) s (m : Z) :
  let total := 2 * m + 12 in
  m = MAX_EVENTS_TO_REPORT_AT_ONCE ->
  Z.of_nat (List.length paths) = total ->
  GetEnv_valid w = true ->
  pending s = false ->
  (forall n, PushLocalFrame_outcome w n = Succeeds) ->
  (forall n, NewObjectArray_succeeds w n = true) ->
  forallb (convertible w) paths = true ->
  (forall k c, k <> S (List.length (calls s)) -> handler_throws w k c = false) ->
  (forall c, handler_throws w (S (List.length (calls s))) c = true) ->
  exists s' c1 c2 c3 c4,
    callback true w (S (S (S (S (S fuel))))) stream info total paths s = Ok tt s'
    /\ calls s' = calls s ++ [c1; c2; c3; c4]
    /\ map fc_numEvents [c1; c2; c3; c4] = [m; m; 6; 6]
    /\ map fc_flags [c1; c2; c3; c4] = [0; m; 2 * m; 2 * m + 6]
    /\ pending s' = false.
Proof.
  intros total Hm Hlen Henv Hp Hpush Hnew Hall Hquiet Hthrow.
  unfold callback, when. rewrite Henv.
  erewrite bind_Ok by reflexivity.
  cbv beta iota.
  match goal with |- context [callback_loop _ _ _ _ _ _ _ _ _ ?st] =>
    set (s0 := st) end.
  assert (Hp0 : pending s0 = false) by exact Hp.
  assert (Hc0 : calls s0 = calls s) by reflexivity.
  pose proof (callback_loop_two_full_chunks true w (S (S (S fuel))) stream info
                paths s0 m Hm Hlen Hp0 Hpush Hnew Hall
                (fun c => Hquiet _ c (n_Sn _)) Hthrow) as T12.
  cbv zeta in T12. fold total in T12. rewrite T12. clear T12.
  assert (Hmax : m = 2147483645) by (rewrite Hm; apply max_events_value).
  clear Hm.
  assert (Htotal : total = 4294967302) by (subst total; lia).
  match goal with |- context [forwarded true true ?c (forwarded true false ?d s0)] =>
    set (c2 := c); set (c1 := d);
    set (s2 := forwarded true true c2 (forwarded true false c1 s0)) end.
  assert (Hp2 : pending s2 = false) by reflexivity.
  assert (Hc2 : calls s2 = calls s ++ [c1; c2])
    by (subst s2; unfold forwarded; cbn [calls]; now rewrite <- app_assoc).
  (* the events that are left *)
  set (k := Z.to_nat m).
  set (chunk1 := firstn k paths).
  set (rest1 := skipn k paths).
  set (chunk2 := firstn k rest1).
  set (rest2 := skipn k rest1).
  set (chunk3 := firstn 6 rest2).
  set (chunk4 := skipn 6 rest2).
  assert (Hpaths : paths = (chunk1 ++ chunk2) ++ chunk3 ++ chunk4)
    by (subst chunk1 chunk2 chunk3 chunk4 rest2 rest1;
        now rewrite <- app_assoc, !firstn_skipn).
  assert (Hrest1 : List.length rest1 = (List.length paths - k)%nat)
    by (subst rest1; apply length_skipn).
  assert (Hrest2 : List.length rest2 = (List.length rest1 - k)%nat)
    by (subst rest2; apply length_skipn).
  assert (Hl12 : Z.of_nat (List.length (chunk1 ++ chunk2)) = 2 * m)
    by (subst chunk1 chunk2; rewrite length_app, !length_firstn; lia).
  assert (Hl3 : Z.of_nat (List.length chunk3) = 6)
    by (subst chunk3; rewrite length_firstn; lia).
  assert (Hl4 : Z.of_nat (List.length chunk4) = 6)
    by (subst chunk4; rewrite length_skipn; lia).
  assert (Hall3 : forallb (convertible w) chunk3 = true)
    by (subst chunk3 rest2 rest1; convertible_part Hall).
  assert (Hall4 : forallb (convertible w) chunk4 = true)
    by (subst chunk4 rest2 rest1; convertible_part Hall).
  (* third turn *)
  rewrite callback_loop_S.
  destruct (Z.ltb_spec (2 * m) total); [|lia]. cbn [andb].
  pose proof (callback_turn_ok true w stream info total (chunk1 ++ chunk2)
                chunk3 chunk4 s2) as T3.
  cbv zeta in T3. rewrite <- Hpaths, Hl12, Hl3 in T3.
  assert (Hn3 : numEventsToReport_at total (2 * m) = 6)
    by (rewrite Htotal, Hmax; reflexivity).
  rewrite (bind_Ok _ _ _ _ _ (T3 Hn3 Hp2 (Hpush _) (Hnew _) Hall3)). clear T3.
  cbn [fst snd].
  rewrite Hquiet by (rewrite Hc2, length_app; cbn [List.length]; lia).
  match goal with |- context [forwarded true false ?c s2] =>
    set (c3 := c); set (s3 := forwarded true false c3 s2) end.
  assert (Hp3 : pending s3 = false) by reflexivity.
  assert (Hc3 : calls s3 = calls s ++ [c1; c2; c3])
    by (subst s3; unfold forwarded; cbn [calls]; rewrite Hc2;
        now rewrite <- app_assoc).
  replace (to_size_t (2 * m + 6)) with (2 * m + 6)
    by (rewrite to_size_t_small; lia).
  (* fourth turn *)
  rewrite callback_loop_S.
  destruct (Z.ltb_spec (2 * m + 6) total); [|lia]. cbn [andb].
  pose proof (callback_turn_ok true w stream info total
                ((chunk1 ++ chunk2) ++ chunk3) chunk4 [] s3) as T4.
  cbv zeta in T4.
  assert (Hl123 : Z.of_nat (List.length ((chunk1 ++ chunk2) ++ chunk3))
                  = 2 * m + 6)
    by (rewrite length_app; lia).
  assert (Hpaths4 : paths = ((chunk1 ++ chunk2) ++ chunk3) ++ chunk4 ++ [])
    by (rewrite app_nil_r, <- (app_assoc (chunk1 ++ chunk2)); exact Hpaths).
  rewrite <- Hpaths4, Hl123, Hl4 in T4.
  assert (Hn4 : numEventsToReport_at total (2 * m + 6) = 6)
    by (rewrite Htotal, Hmax; reflexivity).
  rewrite (bind_Ok _ _ _ _ _ (T4 Hn4 Hp3 (Hpush _) (Hnew _) Hall4)). clear T4.
  cbn [fst snd].
  rewrite Hquiet by (rewrite Hc3, length_app; cbn [List.length]; lia).
  replace (to_size_t (2 * m + 6 + 6)) with total
    by (rewrite to_size_t_small; lia).
  match goal with |- context [forwarded true false ?c s3] =>
    set (c4 := c); set (s4 := forwarded true false c4 s3) end.
  assert (Hc4 : calls s4 = calls s ++ [c1; c2; c3; c4])
    by (subst s4; unfold forwarded; cbn [calls]; rewrite Hc3;
        now rewrite <- app_assoc).
  rewrite callback_loop_S, Z.ltb_irrefl. cbn [andb].
  exists s4, c1, c2, c3, c4. split; [reflexivity|].
  split; [exact Hc4|]. repeat split; reflexivity.
Qed.

(** ** Building a chunk makes no call to the handler *)

Lemma keeps_calls_ret {A} (a : A) : keeps_calls (ret a).
Proof. intros s r s' H. unfold ret in H. now inversion H. Qed.

Lemma keeps_calls_bind {A B} (m : M A) (k : A -> M B) :
  keeps_calls m -> (forall a, keeps_calls (k a)) -> keeps_calls (bind m k).
Proof.
  intros Hm Hk s r s' H. unfold bind in H.
  destruct (m s) as [a s1| |] eqn:E; try discriminate.
  rewrite (Hk a s1 r s' H). exact (Hm s a s1 E).
Qed.

Lemma keeps_calls_when b (m : M unit) : keeps_calls m -> keeps_calls (when b m).
Proof. intros H. destruct b; [exact H | apply keeps_calls_ret]. Qed.

Lemma keeps_calls_throw : keeps_calls throw.
Proof. intros s r s' H. unfold throw in H. now inversion H. Qed.

Lemma keeps_calls_ExceptionCheck : keeps_calls ExceptionCheck.
Proof. intros s r s' H. unfold ExceptionCheck in H. now inversion H. Qed.

Lemma keeps_calls_ExceptionDescribe : keeps_calls ExceptionDescribe.
Proof.
  intros s r s' H. unfold ExceptionDescribe in H.
  destruct (pending s); now inversion H.
Qed.

Lemma keeps_calls_read_path paths i : keeps_calls (read_path paths i).
Proof.
  intros s r s' H. unfold read_path in H.
  destruct (i <? 0); [discriminate|].
  destruct (nth_error paths (Z.to_nat i)); [|discriminate].
  unfold ret in H. now inversion H.
Qed.

Lemma keeps_calls_NewStringPlatform w p : keeps_calls (JNU_NewStringPlatform w p).
Proof.
  unfold JNU_NewStringPlatform.
  destruct (NewStringPlatform_result w p) as [js|throws].
  - apply keeps_calls_ret.
  - apply keeps_calls_bind; [|intros; apply keeps_calls_ret].
    apply keeps_calls_when, keeps_calls_throw.
Qed.

Lemma keeps_calls_SetObjectArrayElement a i v :
  keeps_calls (SetObjectArrayElement a i v).
Proof.
  unfold SetObjectArrayElement. destruct a as [elems|].
  - destruct ((0 <=? i) && (i <? Z.of_nat (List.length elems))).
    + apply keeps_calls_ret.
    + apply keeps_calls_bind; [apply keeps_calls_throw|].
      intros; apply keeps_calls_ret.
  - intros s r s' H. discriminate.
Qed.

Lemma keeps_calls_convert_from tracing w paths idx :
  forall todo i a, keeps_calls (convert_from tracing w todo i paths idx a).
Proof.
  induction todo as [|todo IH]; intros i a.
  - apply keeps_calls_ret.
  - rewrite convert_from_S.
    apply keeps_calls_bind; [apply keeps_calls_read_path|]. intros c.
    apply keeps_calls_bind; [apply keeps_calls_NewStringPlatform|].
    intros [p|].
    + apply keeps_calls_bind; [apply keeps_calls_SetObjectArrayElement|].
      intros a'. apply IH.
    + apply keeps_calls_bind; [apply keeps_calls_ExceptionCheck|]. intros exc.
      apply keeps_calls_bind;
        [apply keeps_calls_when, keeps_calls_ExceptionDescribe|].
      intros; apply keeps_calls_ret.
Qed.

Lemma keeps_calls_createJavaArray tracing w n :
  keeps_calls (createJavaArray tracing w n).
Proof.
  unfold createJavaArray.
  apply keeps_calls_bind.
  - unfold NewObjectArray.
    destruct ((0 <=? n) && NewObjectArray_succeeds w n).
    + apply keeps_calls_ret.
    + apply keeps_calls_bind; [apply keeps_calls_throw|].
      intros; apply keeps_calls_ret.
  - intros a. apply keeps_calls_bind; [apply keeps_calls_ExceptionCheck|].
    intros [|]; [|apply keeps_calls_ret].
    apply keeps_calls_bind;
      [apply keeps_calls_when, keeps_calls_ExceptionDescribe|].
    intros; apply keeps_calls_ret.
Qed.

Lemma keeps_calls_build_chunk tracing w paths idx n :
  keeps_calls (build_chunk tracing w paths idx n).
Proof.
  unfold build_chunk.
  apply keeps_calls_bind.
  - unfold PushLocalFrame.
    destruct (PushLocalFrame_outcome w (to_jint (n + 5))) as [|throws].
    + intros s r s' H. now inversion H.
    + apply keeps_calls_bind; [|intros; apply keeps_calls_ret].
      apply keeps_calls_when, keeps_calls_throw.
  - intros rc. apply keeps_calls_bind.
    + destruct (rc =? JNI_OK);
        [apply keeps_calls_createJavaArray | apply keeps_calls_ret].
    + intros r1. apply keeps_calls_bind; [|intros; apply keeps_calls_ret].
      destruct (fst r1); [|apply keeps_calls_ret].
      apply keeps_calls_convert_from.
Qed.

(** ** Every turn calls the handler once *)

Lemma callback_turn_calls_once tracing w stream info total
    (paths : list cstring) idx s ok idx' s' :
  callback_turn tracing w stream info total paths idx s = Ok (ok, idx') s' ->
  idx' = to_size_t (idx + numEventsToReport_at total idx)
  /\ exists arr,
       calls s'
       = calls s ++ [{| fc_handler := info; fc_stream := stream;
                        fc_numEvents := numEventsToReport_at total idx;
                        fc_paths := arr; fc_flags := idx; fc_ids := idx |}].
Proof.
  unfold callback_turn. intros H. unfold bind at 1 in H.
  destruct (build_chunk tracing w paths idx (numEventsToReport_at total idx) s)
    as [[[pushed ok1] arr] s1| |] eqn:Eb; try discriminate.
  pose proof (keeps_calls_build_chunk _ _ _ _ _ _ _ _ Eb) as Hc.
  unfold JNU_CallMethodByName, bind, when, ret, ExceptionDescribe,
    PopLocalFrame in H.
  rewrite <- Hc.
  destruct tracing, pushed, (pending s1) eqn:Ep, (handler_throws w _ _);
    cbn in H; rewrite ?Ep in H; inversion H; subst;
    (split; [reflexivity | eexists; reflexivity]).
Qed.

(** ** A turn whose chunk could not be built is the last one *)

Lemma callback_loop_after_failure tracing w fuel stream info total
    (paths : list cstring) idx s pushed arr s1 :
  idx < total ->
  build_chunk tracing w paths idx (numEventsToReport_at total idx) s
  = Ok (pushed, false, arr) s1 ->
  exists s',
    callback_loop tracing w (S (S fuel)) stream info total paths true idx s
    = Ok tt s'
    /\ calls s'
       = calls s ++ [{| fc_handler := info; fc_stream := stream;
                        fc_numEvents := numEventsToReport_at total idx;
                        fc_paths := arr; fc_flags := idx; fc_ids := idx |}].
Proof.
  intros Hidx Hb.
  pose proof (keeps_calls_build_chunk _ _ _ _ _ _ _ _ Hb) as Hc.
  set (c := {| fc_handler := info; fc_stream := stream;
               fc_numEvents := numEventsToReport_at total idx;
               fc_paths := arr; fc_flags := idx; fc_ids := idx |}).
  assert (Ht : exists s2 idx',
             callback_turn tracing w stream info total paths idx s
             = Ok (false, idx') s2 /\ calls s2 = calls s ++ [c]).
  { unfold callback_turn. rewrite (bind_Ok _ _ _ _ _ Hb). cbv beta iota.
    fold c.
    unfold JNU_CallMethodByName, bind, when, ret, ExceptionDescribe,
      PopLocalFrame.
    rewrite <- Hc.
    destruct tracing, pushed, (pending s1), (handler_throws w _ _);
      cbn [pending frames calls diag orb]; do 2 eexists; split; reflexivity. }
  destruct Ht as (s2 & idx' & Ht & Hc2).
  rewrite callback_loop_S.
  destruct (Z.ltb_spec idx total); [|lia]. cbn [andb].
  rewrite (bind_Ok _ _ _ _ _ Ht).
  rewrite callback_loop_S. cbn [fst andb].
  exists s2. split; [reflexivity | exact Hc2].
Qed.

(** ** One event more than a chunk holds, whatever the JVM answers *)

(** With 2147483646 events no answer of the JVM makes the callback hand
    over the last event in a call of its own: if it returns, it has made
    no call (no environment), one call of 2147483645 events, or that call
    and one that asks for 2147483646 events. *)
Lemma callback_never_reports_the_last_event tracing w fuel stream info
    (paths : list cstring) s s' :
  callback tracing w fuel stream info 2147483646 paths s = Ok tt s' ->
  exists new,
    calls s' = calls s ++ new
    /\ (map fc_numEvents new = []
        \/ map fc_numEvents new = [2147483645]
        \/ map fc_numEvents new = [2147483645; 2147483646]).
Proof.
  unfold callback. intros H.
  assert (Hs0 : exists s0, when tracing (printf "Callback fired!" ;;
                                         printf "handler thread 0x%p") s = Ok tt s0
                           /\ calls s0 = calls s).
  { destruct tracing; unfold when, bind, printf, ret; cbn; eauto. }
  destruct Hs0 as (s0 & Hs0 & Hc0).
  rewrite (bind_Ok _ _ _ _ _ Hs0) in H. clear Hs0. rewrite <- Hc0.
  destruct (GetEnv_valid w).
  2:{ inversion H. exists []. rewrite app_nil_r. split; [reflexivity | now left]. }
  destruct fuel as [|fuel]; [discriminate|].
  rewrite callback_loop_S in H. cbn [andb] in H.
  change (0 <? 2147483646) with true in H. cbv iota in H.
  unfold bind at 1 in H.
  destruct (callback_turn tracing w stream info 2147483646 paths 0 s0)
    as [[ok1 idx1] s1| |] eqn:E1; try discriminate.
  apply callback_turn_calls_once in E1 as (-> & arr1 & Hc1).
  change (numEventsToReport_at 2147483646 0) with 2147483645 in *.
  change (to_size_t (0 + 2147483645)) with 2147483645 in H.
  cbn [fst snd] in H.
  destruct fuel as [|fuel]; [discriminate|].
  rewrite callback_loop_S in H.
  change (2147483645 <? 2147483646) with true in H.
  destruct ok1; cbn [andb] in H; cbv iota in H.
  2:{ inversion H; subst. eexists. split; [exact Hc1|]. right. now left. }
  unfold bind at 1 in H.
  destruct (callback_turn tracing w stream info 2147483646 paths 2147483645 s1)
    as [[ok2 idx2] s2| |] eqn:E2; try discriminate.
  apply callback_turn_calls_once in E2 as (-> & arr2 & Hc2).
  change (numEventsToReport_at 2147483646 2147483645) with 2147483646 in *.
  change (to_size_t (2147483645 + 2147483646)) with 4294967291 in H.
  cbn [fst snd] in H.
  destruct fuel as [|fuel]; [discriminate|].
  rewrite callback_loop_S in H.
  change (4294967291 <? 2147483646) with false in H.
  rewrite andb_false_r in H. inversion H; subst.
  eexists. split; [rewrite Hc2, Hc1, <- app_assoc; reflexivity|].
  right. now right.
Qed.

(** ** A chunk that was built is complete *)

Lemma createJavaArray_true tracing w n a s s' :
  createJavaArray tracing w n s = Ok (true, a) s' ->
  0 <= n /\ a = Some (repeat None (Z.to_nat n)).
Proof.
  unfold createJavaArray, NewObjectArray, bind, ret, throw, ExceptionCheck, when,
    ExceptionDescribe.
  destruct (Z.leb_spec 0 n) as [Hn|Hn]; cbn [andb].
  - destruct (NewObjectArray_succeeds w n); cbn [pending].
    + destruct (pending s) eqn:Ep, tracing; cbv beta iota; rewrite ?Ep;
        intros H; inversion H; now split.
    + destruct tracing; cbn; intros H; inversion H.
  - destruct tracing; cbn; intros H; inversion H.
Qed.

Lemma convert_from_complete tracing w paths idx :
  forall todo (filled : list (option jstring)) s a s',
    forallb not_null filled = true ->
    convert_from tracing w todo (Z.of_nat (List.length filled)) paths idx
      (Some (filled ++ repeat None todo)) s = Ok (true, a) s' ->
    exists rest,
      a = Some (filled ++ rest)
      /\ List.length rest = todo
      /\ forallb not_null rest = true.
Proof.
  induction todo as [|todo IH]; intros filled s a s' Hfilled H.
  - cbn in H. inversion H. exists []. now split.
  - rewrite convert_from_S in H. unfold bind at 1 in H.
    destruct (read_path paths (idx + Z.of_nat (List.length filled)) s)
      as [c s1| |]; try discriminate.
    unfold bind at 1 in H.
    destruct (JNU_NewStringPlatform w c s1) as [[p|] s2| |] eqn:Ep;
      try discriminate.
    + unfold bind at 1, SetObjectArrayElement in H.
      rewrite length_app, repeat_length in H.
      destruct (Z.leb_spec 0 (Z.of_nat (List.length filled))); [|lia].
      destruct (Z.ltb_spec (Z.of_nat (List.length filled))
                  (Z.of_nat (List.length filled + S todo))); [|lia].
      cbn [andb] in H. unfold ret at 1 in H.
      rewrite Nat2Z.id in H.
      change (repeat None (S todo)) with (@None jstring :: repeat None todo) in H.
      rewrite store_app in H.
      replace (filled ++ Some p :: repeat None todo)
        with ((filled ++ [Some p]) ++ repeat None todo) in H
        by (now rewrite <- app_assoc).
      replace (Z.of_nat (List.length filled) + 1)
        with (Z.of_nat (List.length (filled ++ [Some p]))) in H
        by (rewrite length_app; cbn [List.length]; lia).
      apply IH in H.
      * destruct H as (rest & -> & Hlen & Hrest).
        exists (Some p :: rest). rewrite <- app_assoc. cbn [app].
        split; [reflexivity|]. split; [cbn; now rewrite Hlen | exact Hrest].
      * rewrite forallb_app, Hfilled. reflexivity.
    + unfold bind, ExceptionCheck, when, ExceptionDescribe, ret in H.
      destruct (pending s2) eqn:E2, tracing; cbn in H; rewrite ?E2 in H;
        inversion H.
Qed.

Lemma built_chunk_is_complete tracing w paths idx n s pushed a s' info stream :
  build_chunk tracing w paths idx n s = Ok (pushed, true, a) s' ->
  fully_constructed {| fc_handler := info; fc_stream := stream;
                       fc_numEvents := n; fc_paths := a;
                       fc_flags := idx; fc_ids := idx |} = true.
Proof.
  unfold build_chunk. intros H. unfold bind at 1 in H.
  destruct (PushLocalFrame w (to_jint (n + 5)) s) as [rc s1| |];
    try discriminate.
  destruct (rc =? JNI_OK).
  - unfold bind at 1 in H.
    destruct (createJavaArray tracing w n s1) as [[ok1 a1] s2| |] eqn:Ec;
      try discriminate.
    cbn [fst snd] in H. destruct ok1.
    + apply createJavaArray_true in Ec as [Hn ->].
      unfold bind at 1, convertToJavaStringArray in H.
      destruct (convert_from tracing w (Z.to_nat n) 0 paths idx
                  (Some (repeat None (Z.to_nat n))) s2)
        as [[ok2 a2] s3| |] eqn:Ev; try discriminate.
      unfold ret in H. cbn [fst snd] in H. inversion H; subst.
      destruct (convert_from_complete tracing w paths idx (Z.to_nat n) []
                  s2 a s' eq_refl Ev) as (rest & -> & Hlen & Hrest).
      unfold fully_constructed. cbn [fc_paths fc_numEvents app].
      rewrite Hlen, Z2Nat.id, Z.eqb_refl by exact Hn. exact Hrest.
    + unfold bind, ret in H. cbn [fst snd] in H. inversion H.
  - unfold bind, ret in H. cbn [fst snd] in H. inversion H.
Qed.

(** ** No event, no call *)

Lemma callback_without_events tracing w fuel stream info paths s :
  GetEnv_valid w = true ->
  callback tracing w (S fuel) stream info 0 paths s
  = Ok tt {| pending := pending s; frames := frames s; calls := calls s;
             diag := diag s
                     ++ (if tracing
                         then ["Callback fired!"; "handler thread 0x%p"]%string
                         else []) |}.
Proof.
  intros Henv. unfold callback. rewrite Henv.
  destruct tracing; unfold when, bind, printf, ret;
    cbn [pending frames calls diag callback_loop andb Z.ltb Z.compare].
  - now rewrite <- app_assoc.
  - rewrite app_nil_r. now destruct s.
Qed.

(** ** Tracing is silent when nothing fails *)

(** X11.  For events that fit one chunk, in a JVM that gives the frame,
    the array and the strings and with a handler that does not throw,
    the callback makes the same call and leaves the same exception state
    and frames with tracing on as with tracing off. *)
Lemma tracing_only_prints_when_nothing_fails w fuel stream info
    (paths : list cstring) s :
  let total := Z.of_nat (List.length paths) in
  GetEnv_valid w = true ->
  0 < total <= MAX_EVENTS_TO_REPORT_AT_ONCE ->
  pending s = false ->
  PushLocalFrame_outcome w (to_jint (total + 5)) = Succeeds ->
  NewObjectArray_succeeds w total = true ->
  forallb (convertible w) paths = true ->
  (forall c, handler_throws w (List.length (calls s)) c = false) ->
  exists s_on s_off,
    callback true w (S (S fuel)) stream info total paths s = Ok tt s_on
    /\ callback false w (S (S fuel)) stream info total paths s = Ok tt s_off
    /\ calls s_on = calls s_off
    /\ pending s_on = pending s_off
    /\ frames s_on = frames s_off.
Proof.
  intros total Henv Htotal Hp Hpush Hnew Hall Hquiet.
  do 2 eexists.
  split; [apply callback_single_chunk; try assumption; apply Hquiet|].
  split; [apply callback_single_chunk; try assumption; apply Hquiet|].
  repeat split; reflexivity.
Qed.

(** ** A small run *)

(** Three events with the ids 10, 11 and 12 are one call, which hands the
    three paths over in their order and lets the handler read the three
    flags and the three ids. *)
Example three_events_one_batch :
  exists c,
    callback false calm 2 7 8 3 ["/tmp/a/x"; "/tmp/a/y"; "/tmp/a/z"]%string
      initial
    = Ok tt {| pending := false; frames := 0; calls := [c]; diag := [] |}
    /\ paths_of c = [Some "/tmp/a/x"; Some "/tmp/a/y"; Some "/tmp/a/z"]%string
    /\ flags_of [0; 256; 512] c = [0; 256; 512]
    /\ ids_of [10; 11; 12] c = [10; 11; 12].
Proof.
  eexists. split; [vm_compute; reflexivity|].
  repeat split; reflexivity.
Qed.

(** * The specification's statements about the dispatcher *)

(** C1, at the input that breaks it.  With 2147483646 events, one more than
    [MAX_EVENTS_TO_REPORT_AT_ONCE], the second turn of the loop has one
    event left and sets [numEventsToReport] to [numEventsTotal]: in a JVM
    where every JNI call succeeds and the handler never throws, the
    handler has received one call, of 2147483645 events, when
    [convertToJavaStringArray] reads past the end of [eventPaths]; the
    last event is never delivered. *)
Theorem callback_one_event_past_the_limit :
  forall (tracing : bool) (fuel : nat),
    numEventsToReport_at 2147483646 2147483645 = 2147483646
    /\ exists s',
         callback tracing calm (S (S fuel)) 7 8 2147483646
           (repeat "/p"%string (Z.to_nat 2147483646)) initial
         = Undefined s'
         /\ map fc_numEvents (calls s') = [2147483645].
Proof.
  intros tracing fuel. split; [reflexivity|].
  assert (Hlen : Z.of_nat (List.length (repeat "/p"%string (Z.to_nat 2147483646)))
                 = 2147483645 + 1)
    by (rewrite repeat_length; now rewrite Z2Nat.id).
  destruct (callback_overreads tracing calm fuel 7 8
              (repeat "/p"%string (Z.to_nat 2147483646)) initial 2147483645
              eq_refl Hlen eq_refl eq_refl eq_refl eq_refl eq_refl eq_refl
              (forallb_convertible_calm _) eq_refl)
    as (s' & Hrun & Hcalls).
  exists s'. split; [exact Hrun|]. rewrite Hcalls. reflexivity.
Qed.

(** C2, at inputs that break it.  First, two events and no Java string
    for the first path: the chunk cannot be built, and the handler is
    called all the same.  Second, 4294967302 events, three chunks for the
    specification, and a handler that throws in its second call.  The loop
    does not look at [hasException].  With tracing off it goes on to a
    third turn, in which [createJavaArray] sees the pending exception and
    the handler is called all the same, with six [null] slots: three calls
    are made, not two.  With tracing on [ExceptionDescribe] has cleared
    the exception and the loop runs to its end: four calls. *)
Theorem handler_is_called_after_failures :
  (exists s' c,
      callback false (world_failing_on "/a"%string) 2 7 8 2
        ["/a"; "/b"]%string initial
      = Ok tt s'
      /\ calls s' = [c]
      /\ fc_paths c = Some [None; None])
  /\ (exists s' c1 c2 c3,
        callback false world_throwing_second 4 7 8 4294967302
          (repeat "/p"%string (Z.to_nat 4294967302)) initial
        = Ok tt s'
        /\ calls s' = [c1; c2; c3]
        /\ map fc_numEvents [c1; c2; c3] = [2147483645; 2147483645; 6]
        /\ map fc_flags [c1; c2; c3] = [0; 2147483645; 4294967290]
        /\ fc_paths c3 = Some (repeat None 6)
        /\ List.length (calls s') <> 2%nat)
  /\ (exists s' c1 c2 c3 c4,
        callback true world_throwing_second 5 7 8 4294967302
          (repeat "/p"%string (Z.to_nat 4294967302)) initial
        = Ok tt s'
        /\ calls s' = [c1; c2; c3; c4]
        /\ map fc_numEvents [c1; c2; c3; c4] = [2147483645; 2147483645; 6; 6]
        /\ List.length (calls s') <> 2%nat).
Proof.
  assert (Hlen : Z.of_nat (List.length (repeat "/p"%string (Z.to_nat 4294967302)))
                 = 2 * 2147483645 + 12)
    by (rewrite repeat_length; now rewrite Z2Nat.id).
  assert (Hall : forall l, forallb (convertible world_throwing_second) l = true)
    by (induction l as [|p t IH]; [reflexivity | exact IH]).
  split; [|split].
  - do 2 eexists. split; [vm_compute; reflexivity|]. split; reflexivity.
  - destruct (callback_goes_on_after_throw world_throwing_second 0 7 8
                (repeat "/p"%string (Z.to_nat 4294967302)) initial 2147483645
                eq_refl Hlen eq_refl eq_refl (fun _ => eq_refl)
                (fun _ => eq_refl) (Hall _) (fun _ => eq_refl)
                (fun _ => eq_refl))
      as (s' & c1 & c2 & c3 & Hrun & Hcalls & Hcounts & Hfrom & Hnull & _).
    exists s', c1, c2, c3. split; [exact Hrun|]. split; [exact Hcalls|].
    split; [exact Hcounts|]. split; [exact Hfrom|]. split; [exact Hnull|].
    rewrite Hcalls. discriminate.
  - assert (Hquiet : forall (k : nat) (c : Forward),
               k <> 1%nat -> handler_throws world_throwing_second k c = false).
    { intros k c Hk. destruct k as [|[|k]]; [reflexivity | congruence | reflexivity]. }
    destruct (callback_goes_on_after_throw_traced world_throwing_second 0 7 8
                (repeat "/p"%string (Z.to_nat 4294967302)) initial 2147483645
                eq_refl Hlen eq_refl eq_refl (fun _ => eq_refl)
                (fun _ => eq_refl) (Hall _) Hquiet (fun _ => eq_refl))
      as (s' & c1 & c2 & c3 & c4 & Hrun & Hcalls & Hcounts & _).
    exists s', c1, c2, c3, c4. split; [exact Hrun|]. split; [exact Hcalls|].
    split; [exact Hcounts|]. rewrite Hcalls. discriminate.
Qed.

(** What does hold when a chunk cannot be built (the local frame, the
    array or one of its strings fails, so [OK] is [FALSE]): the loop ends
    with that turn.  The callback returns, every call it has made to the
    handler since starts at the index of the failing chunk, so no event of
    a later chunk is forwarded, and nothing is tried again. *)
Lemma failed_chunk_ends_the_loop :
  forall tracing w fuel stream info total (paths : list cstring) idx s
         pushed arr s1,
    idx < total ->
    build_chunk tracing w paths idx (numEventsToReport_at total idx) s
    = Ok (pushed, false, arr) s1 ->
    exists s' new,
      callback_loop tracing w (S (S fuel)) stream info total paths true idx s
      = Ok tt s'
      /\ calls s' = calls s ++ new
      /\ Forall (fun c => fc_flags c = idx /\ fc_ids c = idx) new
      /\ (List.length new <= 1)%nat.
Proof.
  intros tracing w fuel stream info total paths idx s pushed arr s1 Hidx Hb.
  destruct (callback_loop_after_failure tracing w fuel stream info total paths
              idx s pushed arr s1 Hidx Hb) as (s' & Hrun & Hcalls).
  exists s'. eexists. split; [exact Hrun|]. split; [exact Hcalls|].
  split.
  - constructor; [split; reflexivity | constructor].
  - simpl. lia.
Qed.

(** Two events, no Java string for the second: the loop ends with its one
    turn. *)
Example failed_chunk_ends_the_loop_at_two_events :
  exists s' new,
    callback_loop false (world_failing_on "/b"%string) 2 7 8 2 ["/a"; "/b"]%string
      true 0 initial = Ok tt s'
    /\ calls s' = calls initial ++ new
    /\ Forall (fun c => fc_flags c = 0 /\ fc_ids c = 0) new
    /\ (List.length new <= 1)%nat.
Proof.
  apply (failed_chunk_ends_the_loop false (world_failing_on "/b"%string) 0 7 8 2
           ["/a"; "/b"]%string 0 initial true (Some [Some "/a"%string; None])
           {| pending := true; frames := 1; calls := []; diag := [] |}).
  - lia.
  - vm_compute. reflexivity.
Qed.

(** C3, at inputs that break it.  The call of the handler is not guarded
    by [OK].  With two events of which the second has no Java string, the
    handler is called with a count of 2 and an array whose second slot is
    [null]; when [PushLocalFrame] fails it is called with a [NULL] array. *)
Theorem handler_gets_unfinished_batches :
  (exists c s',
     callback false (world_failing_on "/b"%string) 2 7 8 2 ["/a"; "/b"]%string initial
     = Ok tt s'
     /\ calls s' = [c]
     /\ fc_numEvents c = 2
     /\ fc_paths c = Some [Some "/a"%string; None]
     /\ fully_constructed c = false)
  /\ (exists c s',
        callback false world_without_frames 2 7 8 2 ["/a"; "/b"]%string initial
        = Ok tt s'
        /\ calls s' = [c]
        /\ fc_numEvents c = 2
        /\ fc_paths c = None
        /\ fully_constructed c = false).
Proof.
  split; do 2 eexists; (split; [vm_compute; reflexivity|]);
    repeat split; reflexivity.
Qed.

(** C4 as stated fails.  The limit of a chunk is the constant
    [INT_MAX - 2], not 65536: 150000 events are reported in one call of
    150000 events, not in three calls of 65536, 65536 and 18368.  Were the
    limit 65536, lines 104-107 would size the third chunk 150000, the
    total, where 18928 events remain; 18368 is neither. *)
Lemma one_batch_for_150000_events :
  MAX_EVENTS_TO_REPORT_AT_ONCE = 2147483645
  /\ numEventsToReport_for 65536 150000 131072 = 150000
  /\ Z.min (150000 - 131072) 65536 = 18928
  /\ exists s',
       callback false calm 2 7 8 150000 (repeat "/p"%string (Z.to_nat 150000))
         initial = Ok tt s'
       /\ map fc_numEvents (calls s') = [150000]
       /\ map fc_numEvents (calls s') <> [65536; 65536; 18368].
Proof.
  split; [reflexivity|]. split; [reflexivity|]. split; [reflexivity|].
  assert (Hlen : Z.of_nat (@List.length cstring
                             (repeat "/p"%string (Z.to_nat 150000)))
                 = 150000)
    by (rewrite repeat_length; now rewrite Z2Nat.id).
  pose proof (callback_single_chunk false calm 0 7 8
                (repeat "/p"%string (Z.to_nat 150000)) initial) as H.
  cbv zeta in H. rewrite Hlen in H.
  eexists. split.
  - apply H;
      [ reflexivity
      | unfold MAX_EVENTS_TO_REPORT_AT_ONCE, INT_MAX; lia
      | reflexivity | reflexivity | reflexivity
      | apply forallb_convertible_calm
      | reflexivity ].
  - cbn [calls app map fc_numEvents]. split; [reflexivity | discriminate].
Qed.

(** C4, amended.  The limit of a chunk is [INT_MAX - 2] = 2147483645.  A
    callback with [total] events, [0 < total <= INT_MAX - 2] (150000 is
    such a count), makes one call to the handler, when nothing fails: its
    size is the minimum of the events that remain and of the limit, which
    is [total]; it carries every path, converted, in the order of arrival,
    and the flags and ids from their first entry on. *)
Theorem one_chunk_of_min_remaining_and_limit :
  forall tracing w fuel stream info (paths : list cstring) s,
    let total := Z.of_nat (List.length paths) in
    GetEnv_valid w = true ->
    0 < total <= MAX_EVENTS_TO_REPORT_AT_ONCE ->
    pending s = false ->
    PushLocalFrame_outcome w (to_jint (total + 5)) = Succeeds ->
    NewObjectArray_succeeds w total = true ->
    forallb (convertible w) paths = true ->
    (forall c, handler_throws w (List.length (calls s)) c = false) ->
    exists c s',
      callback tracing w (S (S fuel)) stream info total paths s = Ok tt s'
      /\ calls s' = calls s ++ [c]
      /\ fc_numEvents c = Z.min (total - 0) MAX_EVENTS_TO_REPORT_AT_ONCE
      /\ fc_numEvents c = total
      /\ paths_of c = map (converted w) paths
      /\ fully_constructed c = true
      /\ (forall eventFlags : list Z,
             List.length eventFlags = List.length paths ->
             flags_of eventFlags c = eventFlags)
      /\ (forall eventIds : list Z,
             List.length eventIds = List.length paths ->
             ids_of eventIds c = eventIds).
Proof.
  intros tracing w fuel stream info paths s total Henv Htotal Hp Hpush Hnew
    Hall Hquiet.
  eexists. eexists. split.
  { apply callback_single_chunk; try assumption. apply Hquiet. }
  cbn [calls]. split; [reflexivity|].
  cbn [fc_numEvents fc_paths fc_flags fc_ids]. fold total.
  split; [lia|]. split; [reflexivity|]. split; [reflexivity|].
  split; [|split].
  - unfold fully_constructed. cbn [fc_paths fc_numEvents].
    rewrite length_map. fold total. rewrite Z.eqb_refl. cbn [andb].
    apply forallb_forall. intros e He.
    apply in_map_iff in He as (p & <- & Hin).
    rewrite forallb_forall in Hall. specialize (Hall p Hin).
    unfold convertible in Hall. unfold converted.
    now destruct (NewStringPlatform_result w p).
  - intros eventFlags Hl. unfold flags_of, subrange.
    cbn [fc_flags fc_numEvents]. change (Z.to_nat 0) with 0%nat.
    cbn [skipn]. subst total. rewrite Nat2Z.id, <- Hl.
    apply firstn_all.
  - intros eventIds Hl. unfold ids_of, subrange.
    cbn [fc_ids fc_numEvents]. change (Z.to_nat 0) with 0%nat.
    cbn [skipn]. subst total. rewrite Nat2Z.id, <- Hl.
    apply firstn_all.
Qed.

(** C4, amended, at three events in a JVM where nothing fails. *)
Lemma one_chunk_of_min_remaining_and_limit_witness :
  exists c s',
    callback false calm 2 7 8 3 ["/a"; "/b"; "/c"]%string initial = Ok tt s'
    /\ calls s' = calls initial ++ [c]
    /\ fc_numEvents c = Z.min (3 - 0) MAX_EVENTS_TO_REPORT_AT_ONCE
    /\ fc_numEvents c = 3
    /\ paths_of c = map (converted calm) ["/a"; "/b"; "/c"]%string
    /\ fully_constructed c = true
    /\ (forall eventFlags : list Z,
           List.length eventFlags = 3%nat -> flags_of eventFlags c = eventFlags)
    /\ (forall eventIds : list Z,
           List.length eventIds = 3%nat -> ids_of eventIds c = eventIds).
Proof.
  apply (one_chunk_of_min_remaining_and_limit false calm 0 7 8
           ["/a"; "/b"; "/c"]%string initial);
    try reflexivity.
  unfold MAX_EVENTS_TO_REPORT_AT_ONCE, INT_MAX. simpl. lia.
Defined.

(** C9, at inputs that break it.  First, one event whose path has no
    Java string, [JNU_NewStringPlatform] leaving an exception pending.
    With tracing on, [convertToJavaStringArray] calls [ExceptionDescribe],
    which clears the exception: the handler is called with none pending
    and the callback returns with none pending.  With tracing off the same
    call is made with the exception pending, and it is still pending when
    the callback returns.  Second, 4294967302 events and a handler that
    throws in its second call: with tracing on the exception is described
    and cleared and the loop makes four calls; with tracing off the third
    turn fails on the pending exception and the loop ends after three. *)
Theorem tracing_changes_what_the_callback_does :
  (exists s_on s_off,
      callback true (world_failing_on "/b"%string) 2 7 8 1 ["/b"%string] initial
      = Ok tt s_on
      /\ callback false (world_failing_on "/b"%string) 2 7 8 1 ["/b"%string]
           initial
         = Ok tt s_off
      /\ calls s_on = calls s_off
      /\ pending s_on = false
      /\ pending s_off = true)
  /\ (exists s_on s_off,
        callback true world_throwing_second 5 7 8 4294967302
          (repeat "/p"%string (Z.to_nat 4294967302)) initial
        = Ok tt s_on
        /\ callback false world_throwing_second 5 7 8 4294967302
             (repeat "/p"%string (Z.to_nat 4294967302)) initial
           = Ok tt s_off
        /\ map fc_numEvents (calls s_on) = [2147483645; 2147483645; 6; 6]
        /\ map fc_numEvents (calls s_off) = [2147483645; 2147483645; 6]
        /\ pending s_on = false
        /\ pending s_off = true).
Proof.
  split.
  - do 2 eexists.
    split; [vm_compute; reflexivity|].
    split; [vm_compute; reflexivity|].
    repeat split; reflexivity.
  - assert (Hlen : Z.of_nat (List.length
                               (repeat "/p"%string (Z.to_nat 4294967302)))
                   = 2 * 2147483645 + 12)
      by (rewrite repeat_length; now rewrite Z2Nat.id).
    assert (Hall : forall l,
               forallb (convertible world_throwing_second) l = true)
      by (induction l as [|p t IH]; [reflexivity | exact IH]).
    assert (Hquiet : forall (k : nat) (c : Forward),
               k <> 1%nat -> handler_throws world_throwing_second k c = false).
    { intros k c Hk.
      destruct k as [|[|k]]; [reflexivity | congruence | reflexivity]. }
    destruct (callback_goes_on_after_throw_traced world_throwing_second 0 7 8
                (repeat "/p"%string (Z.to_nat 4294967302)) initial 2147483645
                eq_refl Hlen eq_refl eq_refl (fun _ => eq_refl)
                (fun _ => eq_refl) (Hall _) Hquiet (fun _ => eq_refl))
      as (s_on & c1 & c2 & c3 & c4 & Hon & Hcalls_on & Hcounts_on & _ & Hp_on).
    destruct (callback_goes_on_after_throw world_throwing_second 1 7 8
                (repeat "/p"%string (Z.to_nat 4294967302)) initial 2147483645
                eq_refl Hlen eq_refl eq_refl (fun _ => eq_refl)
                (fun _ => eq_refl) (Hall _) (fun _ => eq_refl)
                (fun _ => eq_refl))
      as (s_off & d1 & d2 & d3 & Hoff & Hcalls_off & Hcounts_off & _ & _ & Hp_off).
    exists s_on, s_off. split; [exact Hon|]. split; [exact Hoff|].
    rewrite Hcalls_on, Hcalls_off.
    split; [exact Hcounts_on|]. split; [exact Hcounts_off|].
    split; assumption.
Qed.

(** C10.  When [JNU_GetEnv] returns no environment the callback returns at
    once: no call is made to the handler, no exception is left pending, no
    local frame is pushed, and the only output is the two lines printed on
    entry when tracing is on; with tracing off nothing is printed. *)
Theorem callback_without_environment :
  forall tracing w fuel stream info total (paths : list cstring) s,
    GetEnv_valid w = false ->
    callback tracing w fuel stream info total paths s
    = Ok tt {| pending := pending s; frames := frames s; calls := calls s;
               diag := diag s
                       ++ (if tracing
                           then ["Callback fired!"; "handler thread 0x%p"]%string
                           else []) |}.
Proof.
  intros tracing w fuel stream info total paths s Henv.
  unfold callback. rewrite Henv.
  destruct tracing; unfold when, bind, printf, ret; cbn [pending frames calls diag].
  - now rewrite <- app_assoc.
  - rewrite app_nil_r. now destruct s.
Qed.

(** C10 at three events and no environment, tracing on and off. *)
Lemma callback_without_environment_witness :
  callback true world_without_env 5 7 8 3 ["/a"; "/b"; "/c"]%string initial
  = Ok tt {| pending := false; frames := 0; calls := [];
             diag := ["Callback fired!"; "handler thread 0x%p"]%string |}
  /\ callback false world_without_env 5 7 8 3 ["/a"; "/b"; "/c"]%string initial
     = Ok tt initial.
Proof.
  split.
  - apply (callback_without_environment true world_without_env 5 7 8 3
             ["/a"; "/b"; "/c"]%string initial).
    reflexivity.
  - apply (callback_without_environment false world_without_env 5 7 8 3
             ["/a"; "/b"; "/c"]%string initial).
    reflexivity.
Defined.

(** * The specification's statements about streams, run loops and the
    handler's reference *)

Module LifecycleFacts.
Import Lifecycle.

Lemma effects_trace_if tracing lines n :
  effects (trace_if tracing lines n) = effects n.
Proof.
  unfold trace_if. destruct tracing; [|reflexivity].
  revert n. induction lines as [|l t IH]; intros n; [reflexivity|].
  simpl. now rewrite IH.
Qed.

Lemma loops_trace_if tracing lines n :
  loops (trace_if tracing lines n) = loops n.
Proof.
  unfold trace_if. destruct tracing; [|reflexivity].
  revert n. induction lines as [|l t IH]; intros n; [reflexivity|].
  simpl. now rewrite IH.
Qed.

Lemma global_refs_trace_if tracing lines n :
  global_refs (trace_if tracing lines n) = global_refs n.
Proof.
  unfold trace_if. destruct tracing; [|reflexivity].
  revert n. induction lines as [|l t IH]; intros n; [reflexivity|].
  simpl. now rewrite IH.
Qed.

Lemma streams_trace_if tracing lines n :
  streams (trace_if tracing lines n) = streams n.
Proof.
  unfold trace_if. destruct tracing; [|reflexivity].
  revert n. induction lines as [|l t IH]; intros n; [reflexivity|].
  simpl. now rewrite IH.
Qed.

Lemma cf_calls_trace_if tracing lines n :
  cf_calls (trace_if tracing lines n) = cf_calls n.
Proof.
  unfold trace_if. destruct tracing; [|reflexivity].
  revert n. induction lines as [|l t IH]; intros n; [reflexivity|].
  simpl. now rewrite IH.
Qed.

Lemma count_occ_remove_one (g h : jobject) (l : list jobject) :
  count_occ Z.eq_dec (remove_one h l) g
  = if g =? h then Nat.pred (count_occ Z.eq_dec l g)
    else count_occ Z.eq_dec l g.
Proof.
  destruct (Z.eqb_spec g h) as [->|Hgh].
  - induction l as [|y t IH]; [reflexivity|].
    cbn [remove_one]. destruct (Z.eqb_spec y h) as [->|Hy].
    + cbn [count_occ]. destruct (Z.eq_dec h h); [reflexivity | congruence].
    + cbn [count_occ]. destruct (Z.eq_dec y h); [congruence | exact IH].
  - induction l as [|y t IH]; [reflexivity|].
    cbn [remove_one]. destruct (Z.eqb_spec y h) as [->|Hy].
    + cbn [count_occ]. destruct (Z.eq_dec h g); [congruence | reflexivity].
    + cbn [count_occ]. destruct (Z.eq_dec y g); [now rewrite IH | exact IH].
Qed.

End LifecycleFacts.

Import Lifecycle LifecycleFacts.

(** C5 as stated fails.  While the thread of run loop 1 is pumping,
    [runLoopStop] releases the reference 8 of the handler and returns with
    the loop only asked to stop: [CFRunLoopRun] has not returned. *)
Lemma reference_released_while_loop_is_stopping :
  In 8 (global_refs (pumping 1 8))
  /\ global_refs (runLoopStop false 1 8 (pumping 1 8)) = []
  /\ loops (runLoopStop false 1 8 (pumping 1 8)) 1 = StopRequested
  /\ ~ released_only_after_loop_stopped.
Proof.
  split; [now left|]. split; [reflexivity|]. split; [reflexivity|].
  intros asked.
  specialize (asked false 1 8 (pumping 1 8)).
  assert (H : loops (runLoopStop false 1 8 (pumping 1 8)) 1 = Stopped).
  { apply asked; [now left | intros []]. }
  discriminate H.
Qed.

(** C5, amended.  [runLoopStop] asks the run loop to stop and then deletes
    the global reference of the handler, once and in this order, without
    waiting for [CFRunLoopRun] to return: the loop is in the state the
    request leaves it in, [StopRequested] if it was pumping, and one
    reference to the handler is gone. *)
Theorem runLoopStop_signals_then_releases :
  forall (tracingEnabled : bool) (runLoopRef handlerThreadObject : Z)
         (n : Native),
    let n' := runLoopStop tracingEnabled runLoopRef handlerThreadObject n in
    effects n' = effects n ++ [CFRunLoopStop runLoopRef;
                               DeleteGlobalRef handlerThreadObject]
    /\ loops n' runLoopRef = request_stop (loops n runLoopRef)
    /\ (loops n runLoopRef = Pumping -> loops n' runLoopRef = StopRequested)
    /\ (loops n' runLoopRef = Stopped <-> loops n runLoopRef = Stopped)
    /\ (forall g, count_occ Z.eq_dec (global_refs n') g
                  = if g =? handlerThreadObject
                    then Nat.pred (count_occ Z.eq_dec (global_refs n) g)
                    else count_occ Z.eq_dec (global_refs n) g).
Proof.
  intros tracing l h n n'. subst n'. unfold runLoopStop.
  unfold do_DeleteGlobalRef, do_CFRunLoopStop, log, set_loop.
  cbn [effects loops global_refs streams out].
  rewrite effects_trace_if, loops_trace_if, global_refs_trace_if.
  rewrite Z.eqb_refl, <- app_assoc.
  split; [reflexivity|]. split; [reflexivity|]. split; [|split].
  - intros Hp. now rewrite Hp.
  - destruct (loops n l); cbn [request_stop]; split; congruence.
  - intros g. apply count_occ_remove_one.
Qed.

(** ** [createNewEventStreamFor] by cases *)

Lemma create_without_path tracing os dir latency flags handler n :
  toCFString_result os dir = None ->
  createNewEventStreamFor tracing os dir latency flags handler n
  = (0, note (Call_toCFString dir None) n).
Proof. intros H. unfold createNewEventStreamFor. now rewrite H. Qed.

Lemma create_without_array tracing os dir latency flags handler n path :
  toCFString_result os dir = Some path ->
  CFArrayCreate_succeeds os = false ->
  createNewEventStreamFor tracing os dir latency flags handler n
  = (0, note (Call_CFArrayCreate [path] false)
          (note (Call_toCFString dir (Some path)) n)).
Proof. intros H1 H2. unfold createNewEventStreamFor. now rewrite H1, H2. Qed.

Lemma create_without_stream tracing os dir latency flags handler n path :
  toCFString_result os dir = Some path ->
  CFArrayCreate_succeeds os = true ->
  FSEventStreamCreate_result os [path] = 0 ->
  let g := NewGlobalRef_result os handler in
  let n' := snd (createNewEventStreamFor tracing os dir latency flags handler n) in
  fst (createNewEventStreamFor tracing os dir latency flags handler n) = 0
  /\ streams n' = streams n
  /\ global_refs n' = g :: global_refs n
  /\ effects n'
     = effects n ++ [NewGlobalRef handler g;
                     FSEventStreamCreate g [path] kFSEventStreamEventIdSinceNow
                       latency flags 0].
Proof.
  intros H1 H2 H3 g n'. subst n'.
  unfold createNewEventStreamFor, do_NewGlobalRef, do_FSEventStreamCreate.
  rewrite H1, H2, H3. cbn [negb Z.eqb andb fst snd].
  rewrite streams_trace_if, global_refs_trace_if, effects_trace_if.
  unfold log, note. cbn [streams global_refs effects].
  rewrite <- app_assoc. repeat split; reflexivity.
Qed.

Lemma create_with_stream tracing os dir latency flags handler n path :
  toCFString_result os dir = Some path ->
  CFArrayCreate_succeeds os = true ->
  FSEventStreamCreate_result os [path] <> 0 ->
  let g := NewGlobalRef_result os handler in
  let r := FSEventStreamCreate_result os [path] in
  let n' := snd (createNewEventStreamFor tracing os dir latency flags handler n) in
  fst (createNewEventStreamFor tracing os dir latency flags handler n)
  = (if SetField_throws os then 0 else r)
  /\ streams n' r
     = Some {| delivering := false; scheduled_on := None; retain_count := 1;
               context_info := g;
               since_when := kFSEventStreamEventIdSinceNow |}
  /\ global_refs n' = g :: global_refs n
  /\ effects n'
     = effects n ++ [NewGlobalRef handler g;
                     FSEventStreamCreate g [path] kFSEventStreamEventIdSinceNow
                       latency flags r;
                     SetField_globalThisRef g g].
Proof.
  intros H1 H2 H3 g r n'. subst n'.
  assert (Hr : (r =? 0) = false) by (apply Z.eqb_neq; exact H3).
  unfold createNewEventStreamFor, do_NewGlobalRef, do_FSEventStreamCreate.
  rewrite H1, H2. fold r. fold g. cbn [negb].
  rewrite Hr. cbn [negb andb]. rewrite Hr. cbn [negb andb].
  destruct (SetField_throws os); cbn [fst snd];
    rewrite ?streams_trace_if, ?global_refs_trace_if, ?effects_trace_if;
    unfold log, set_stream, note; cbn [streams global_refs effects];
    rewrite Z.eqb_refl, <- !app_assoc; repeat split; reflexivity.
Qed.

Lemma cf_calls_create tracing os dir latency flags handler n path :
  toCFString_result os dir = Some path ->
  CFArrayCreate_succeeds os = true ->
  cf_calls (snd (createNewEventStreamFor tracing os dir latency flags handler n))
  = cf_calls n ++ [Call_toCFString dir (Some path);
                   Call_CFArrayCreate [path] true].
Proof.
  intros H1 H2.
  unfold createNewEventStreamFor, do_NewGlobalRef, do_FSEventStreamCreate.
  rewrite H1, H2. cbn [negb].
  destruct (FSEventStreamCreate_result os [path] =? 0) eqn:Er;
    cbn [negb andb]; rewrite ?Er; cbn [negb andb];
    [|destruct (SetField_throws os)]; cbn [fst snd];
    rewrite ?cf_calls_trace_if; unfold log, set_stream, note; cbn [cf_calls];
    now rewrite <- app_assoc.
Qed.

(** C6.  When the creation of a watch fails, because [toCFString] gives
    no path string, [CFArrayCreate] no array or [FSEventStreamCreate] no
    stream, [createNewEventStreamFor] returns 0, no stream has come into
    being, and the function has deleted no global reference: every
    reference that was alive is alive, the one it has made of the handler
    included. *)
Theorem create_failure_returns_zero_and_releases_nothing :
  forall (tracingEnabled : bool) (os : OS) (dir : string) (latency : jdouble)
         (flags : Z) (handler : jobject) (n : Native),
    creation_fails os dir = true ->
    let r := createNewEventStreamFor tracingEnabled os dir latency flags
               handler n in
    fst r = 0
    /\ streams (snd r) = streams n
    /\ (exists new, effects (snd r) = effects n ++ new
                    /\ forallb (fun e => negb (is_DeleteGlobalRef e)) new = true)
    /\ (global_refs (snd r) = global_refs n
        \/ global_refs (snd r)
           = NewGlobalRef_result os handler :: global_refs n).
Proof.
  intros tracing os dir latency flags handler n Hfail r. subst r.
  unfold creation_fails in Hfail.
  destruct (toCFString_result os dir) as [path|] eqn:Hpath.
  - destruct (CFArrayCreate_succeeds os) eqn:Harr.
    + cbn [negb orb] in Hfail. apply Z.eqb_eq in Hfail.
      destruct (create_without_stream tracing os dir latency flags handler n
                  path Hpath Harr Hfail) as (H0 & Hs & Hg & He).
      split; [exact H0|]. split; [exact Hs|]. split.
      * eexists. split; [exact He | reflexivity].
      * right. exact Hg.
    + rewrite (create_without_array tracing os dir latency flags handler n
                 path Hpath Harr).
      cbn [fst snd]. split; [reflexivity|]. split; [reflexivity|]. split.
      * exists []. now rewrite app_nil_r.
      * now left.
  - rewrite (create_without_path tracing os dir latency flags handler n Hpath).
    cbn [fst snd]. split; [reflexivity|]. split; [reflexivity|]. split.
    + exists []. now rewrite app_nil_r.
    + now left.
Qed.

(** C6 where FSEvents has no stream to give: 0 is returned and the new
    global reference stays. *)
Lemma create_failure_returns_zero_and_releases_nothing_witness :
  creation_fails exhausted "/tmp/a" = true
  /\ let r := createNewEventStreamFor false exhausted "/tmp/a" 1 0 8 empty in
     fst r = 0
     /\ streams (snd r) = streams empty
     /\ (exists new, effects (snd r) = effects empty ++ new
                     /\ forallb (fun e => negb (is_DeleteGlobalRef e)) new = true)
     /\ (global_refs (snd r) = global_refs empty
         \/ global_refs (snd r)
            = NewGlobalRef_result exhausted 8 :: global_refs empty).
Proof.
  split; [reflexivity|].
  apply (create_failure_returns_zero_and_releases_nothing false exhausted
           "/tmp/a" 1 0 8 empty).
  reflexivity.
Defined.

(** C7.  Once [toCFString] has given the path string and
    [CFArrayCreate] the array, [createNewEventStreamFor] makes the global
    reference of the handler and then asks FSEvents for a stream with this
    reference as its [info] and for the events since now,
    [kFSEventStreamEventIdSinceNow]; when it gets a stream it stores the
    reference into [globalThisRef], and it makes no other call: it
    schedules nothing and starts nothing.  The reference is held from then
    on, and the stream FSEvents has made is neither scheduled nor
    delivering and reports events from now on. *)
Theorem create_takes_reference_then_watches_from_now :
  forall (tracingEnabled : bool) (os : OS) (dir : string) (latency : jdouble)
         (flags : Z) (handler : jobject) (n : Native) (path : CFStringRef),
    toCFString_result os dir = Some path ->
    CFArrayCreate_succeeds os = true ->
    let r := createNewEventStreamFor tracingEnabled os dir latency flags
               handler n in
    let g := NewGlobalRef_result os handler in
    let stream := FSEventStreamCreate_result os [path] in
    effects (snd r)
    = effects n
      ++ NewGlobalRef handler g
         :: FSEventStreamCreate g [path] kFSEventStreamEventIdSinceNow
              latency flags stream
         :: (if stream =? 0 then [] else [SetField_globalThisRef g g])
    /\ global_refs (snd r) = g :: global_refs n
    /\ (stream = 0 -> fst r = 0 /\ streams (snd r) = streams n)
    /\ (stream <> 0 ->
        fst r = (if SetField_throws os then 0 else stream)
        /\ streams (snd r) stream
           = Some {| delivering := false; scheduled_on := None;
                     retain_count := 1; context_info := g;
                     since_when := kFSEventStreamEventIdSinceNow |}).
Proof.
  intros tracing os dir latency flags handler n path Hpath Harr r g stream.
  subst r.
  destruct (Z.eq_dec stream 0) as [E|E].
  - destruct (create_without_stream tracing os dir latency flags handler
                n path Hpath Harr E) as (H0 & Hs & Hg & He).
    fold g in Hg, He. rewrite E. cbn [Z.eqb].
    split; [exact He|]. split; [exact Hg|].
    split; [intros _; split; [exact H0 | exact Hs] | intros H; now elim H].
  - destruct (create_with_stream tracing os dir latency flags handler
                n path Hpath Harr E) as (H0 & Hs & Hg & He).
    fold g in Hs, Hg, He. fold stream in H0, Hs, He.
    assert (Hr : (stream =? 0) = false) by (apply Z.eqb_neq; exact E).
    rewrite Hr.
    split; [exact He|]. split; [exact Hg|].
    split; [intros H; now elim E | intros _; split; [exact H0 | exact Hs]].
Qed.

(** C7 at a watch on ["/tmp/a"] for the handler 8: the reference 108 is
    made, then the stream 7 is asked for, then the reference is stored. *)
Lemma create_takes_reference_then_watches_from_now_witness :
  let r := createNewEventStreamFor false generous "/tmp/a" 1 0 8 empty in
  effects (snd r)
  = effects empty
    ++ NewGlobalRef 8 108
       :: FSEventStreamCreate 108 ["/tmp/a"%string]
            kFSEventStreamEventIdSinceNow 1 0 7
       :: (if 7 =? 0 then [] else [SetField_globalThisRef 108 108])
  /\ global_refs (snd r) = 108 :: global_refs empty
  /\ (7 = 0 -> fst r = 0 /\ streams (snd r) = streams empty)
  /\ (7 <> 0 ->
      fst r = (if SetField_throws generous then 0 else 7)
      /\ streams (snd r) 7
         = Some {| delivering := false; scheduled_on := None;
                   retain_count := 1; context_info := 108;
                   since_when := kFSEventStreamEventIdSinceNow |}).
Proof.
  apply (create_takes_reference_then_watches_from_now false generous
           "/tmp/a"%string 1 0 8 empty "/tmp/a"%string);
    reflexivity.
Defined.

(** ** [FSEventStreamInvalidate], step by step *)

Lemma streams_update_stream_same r f n st :
  streams n r = Some st ->
  streams (update_stream r f n) r = Some (f st).
Proof.
  intros H. unfold update_stream. rewrite H. unfold set_stream.
  cbn [streams]. now rewrite Z.eqb_refl.
Qed.

Lemma streams_update_stream_other r r' f n :
  r' <> r -> streams (update_stream r f n) r' = streams n r'.
Proof.
  intros H. unfold update_stream.
  destruct (streams n r); [|reflexivity].
  unfold set_stream. cbn [streams].
  destruct (Z.eqb_spec r' r); [contradiction | reflexivity].
Qed.

Lemma effects_update_stream r f n :
  effects (update_stream r f n) = effects n.
Proof. unfold update_stream. now destruct (streams n r). Qed.

Lemma global_refs_update_stream r f n :
  global_refs (update_stream r f n) = global_refs n.
Proof. unfold update_stream. now destruct (streams n r). Qed.

Lemma effects_do_FSEventStreamStop r n :
  effects (do_FSEventStreamStop r n) = effects n ++ [FSEventStreamStop r].
Proof.
  unfold do_FSEventStreamStop, log. cbn [effects].
  now rewrite effects_update_stream.
Qed.

Lemma effects_do_FSEventStreamInvalidate r n :
  effects (do_FSEventStreamInvalidate r n)
  = effects n ++ [FSEventStreamInvalidate r].
Proof.
  unfold do_FSEventStreamInvalidate, log. cbn [effects].
  now rewrite effects_update_stream.
Qed.

Lemma effects_do_FSEventStreamRelease r n :
  effects (do_FSEventStreamRelease r n) = effects n ++ [FSEventStreamRelease r].
Proof.
  unfold do_FSEventStreamRelease, log. cbn [effects].
  destruct (streams n r) as [st|]; [|reflexivity].
  destruct (retain_count st) as [|[|k]]; reflexivity.
Qed.

Lemma global_refs_do_FSEventStreamRelease r n :
  global_refs (do_FSEventStreamRelease r n) = global_refs n.
Proof.
  unfold do_FSEventStreamRelease, log. cbn [global_refs].
  destruct (streams n r) as [st|]; [|reflexivity].
  destruct (retain_count st) as [|[|k]]; reflexivity.
Qed.

(** C8.  The disposal of a stream makes three calls, in this order:
    [FSEventStreamStop], after which the stream delivers no event, so
    that no callback is started for it; [FSEventStreamInvalidate], which
    takes it off its run loop; [FSEventStreamRelease], which gives up the
    reference the creation had taken.  A stream that was scheduled,
    started and held once is gone; no other stream is touched. *)
Theorem dispose_stops_then_unschedules_then_releases :
  forall (eventStreamRef : Z) (n : Native),
    let n1 := do_FSEventStreamStop eventStreamRef n in
    let n2 := do_FSEventStreamInvalidate eventStreamRef n1 in
    let n3 := do_FSEventStreamRelease eventStreamRef n2 in
    dispose eventStreamRef n = n3
    /\ effects (dispose eventStreamRef n)
       = effects n ++ [FSEventStreamStop eventStreamRef;
                       FSEventStreamInvalidate eventStreamRef;
                       FSEventStreamRelease eventStreamRef]
    /\ (forall st, streams n eventStreamRef = Some st ->
          (exists st1, streams n1 eventStreamRef = Some st1
                       /\ delivering st1 = false
                       /\ scheduled_on st1 = scheduled_on st
                       /\ retain_count st1 = retain_count st)
          /\ (exists st2, streams n2 eventStreamRef = Some st2
                          /\ delivering st2 = false
                          /\ scheduled_on st2 = None
                          /\ retain_count st2 = retain_count st)
          /\ (retain_count st = 1%nat ->
              streams (dispose eventStreamRef n) eventStreamRef = None))
    /\ (forall other, other <> eventStreamRef ->
          streams (dispose eventStreamRef n) other = streams n other)
    /\ global_refs (dispose eventStreamRef n) = global_refs n.
Proof.
  intros r n n1 n2 n3. split; [reflexivity|]. split; [|split; [|split]].
  - unfold dispose.
    rewrite effects_do_FSEventStreamRelease, effects_do_FSEventStreamInvalidate,
      effects_do_FSEventStreamStop.
    now rewrite <- !app_assoc.
  - intros st Hst.
    assert (H1 : streams n1 r
                 = Some {| delivering := false; scheduled_on := scheduled_on st;
                           retain_count := retain_count st;
                           context_info := context_info st;
                           since_when := since_when st |}).
    { subst n1. unfold do_FSEventStreamStop, log. cbn [streams].
      now rewrite (streams_update_stream_same _ _ _ _ Hst). }
    assert (H2 : streams n2 r
                 = Some {| delivering := false; scheduled_on := None;
                           retain_count := retain_count st;
                           context_info := context_info st;
                           since_when := since_when st |}).
    { subst n2. unfold do_FSEventStreamInvalidate, log. cbn [streams].
      now rewrite (streams_update_stream_same _ _ _ _ H1). }
    split; [eexists; split; [exact H1 | repeat split]|].
    split; [eexists; split; [exact H2 | repeat split]|].
    intros Hone. change (dispose r n) with n3. subst n3.
    unfold do_FSEventStreamRelease, log. cbn [streams].
    rewrite H2. cbn [retain_count]. rewrite Hone.
    unfold set_stream. cbn [streams]. now rewrite Z.eqb_refl.
  - intros other Hother. change (dispose r n) with n3. subst n3 n2 n1.
    unfold do_FSEventStreamRelease, log. cbn [streams].
    match goal with |- streams match ?s with _ => _ end _ = _ =>
      destruct s as [st|] eqn:Es end.
    + assert (Hrest : streams
                        (do_FSEventStreamInvalidate r (do_FSEventStreamStop r n))
                        other = streams n other).
      { unfold do_FSEventStreamInvalidate, do_FSEventStreamStop, log.
        cbn [streams]. rewrite streams_update_stream_other by exact Hother.
        cbn [streams]. now rewrite streams_update_stream_other. }
      destruct (retain_count st) as [|[|k]]; unfold set_stream; cbn [streams];
        (destruct (Z.eqb_spec other r); [contradiction | exact Hrest]).
    + unfold do_FSEventStreamInvalidate, do_FSEventStreamStop, log.
      cbn [streams]. rewrite streams_update_stream_other by exact Hother.
      cbn [streams]. now rewrite streams_update_stream_other.
  - unfold dispose. rewrite global_refs_do_FSEventStreamRelease.
    unfold do_FSEventStreamInvalidate, do_FSEventStreamStop, log.
    cbn [global_refs]. rewrite global_refs_update_stream.
    cbn [global_refs]. now rewrite global_refs_update_stream.
Qed.

(** ** A watch from creation to disposal *)

(** A watch on ["/tmp/a"] is created, scheduled on run loop 1 and
    disposed of before any event: the stream is gone, the calls are those
    of the three entry points in their order, and the global reference of
    the handler is still held, since only [runLoopStop] deletes it. *)
Example watch_created_scheduled_disposed :
  let r := createNewEventStreamFor false generous "/tmp/a" 1 0 8 empty in
  let n := dispose (fst r) (scheduleEventLoop false 1 (fst r) (snd r)) in
  fst r = 7
  /\ streams n 7 = None
  /\ global_refs n = [108]
  /\ effects n
     = [NewGlobalRef 8 108;
        FSEventStreamCreate 108 ["/tmp/a"%string] kFSEventStreamEventIdSinceNow
          1 0 7;
        SetField_globalThisRef 108 108;
        FSEventStreamScheduleWithRunLoop 7 1;
        FSEventStreamStart 7;
        FSEventStreamStop 7;
        FSEventStreamInvalidate 7;
        FSEventStreamRelease 7].
Proof. cbv zeta. repeat split; reflexivity. Qed.

(** * Further properties of the dispatcher *)

Import Batches.

(** ** Local frames *)

Lemma keeps_frames_ret {A} (a : A) : keeps_frames (ret a).
Proof. intros s r s' H. unfold ret in H. now inversion H. Qed.

Lemma keeps_frames_bind {A B} (m : M A) (k : A -> M B) :
  keeps_frames m -> (forall a, keeps_frames (k a)) -> keeps_frames (bind m k).
Proof.
  intros Hm Hk s r s' H. unfold bind in H.
  destruct (m s) as [a s1| |] eqn:E; try discriminate.
  rewrite (Hk a s1 r s' H). exact (Hm s a s1 E).
Qed.

Lemma keeps_frames_when b (m : M unit) :
  keeps_frames m -> keeps_frames (when b m).
Proof. intros H. destruct b; [exact H | apply keeps_frames_ret]. Qed.

Lemma keeps_frames_throw : keeps_frames throw.
Proof. intros s r s' H. unfold throw in H. now inversion H. Qed.

Lemma keeps_frames_ExceptionCheck : keeps_frames ExceptionCheck.
Proof. intros s r s' H. unfold ExceptionCheck in H. now inversion H. Qed.

Lemma keeps_frames_ExceptionDescribe : keeps_frames ExceptionDescribe.
Proof.
  intros s r s' H. unfold ExceptionDescribe in H.
  destruct (pending s); now inversion H.
Qed.

Lemma keeps_frames_read_path paths i : keeps_frames (read_path paths i).
Proof.
  intros s r s' H. unfold read_path in H.
  destruct (i <? 0); [discriminate|].
  destruct (nth_error paths (Z.to_nat i)); [|discriminate].
  unfold ret in H. now inversion H.
Qed.

Lemma keeps_frames_NewStringPlatform w p :
  keeps_frames (JNU_NewStringPlatform w p).
Proof.
  unfold JNU_NewStringPlatform.
  destruct (NewStringPlatform_result w p) as [js|throws].
  - apply keeps_frames_ret.
  - apply keeps_frames_bind; [|intros; apply keeps_frames_ret].
    apply keeps_frames_when, keeps_frames_throw.
Qed.

Lemma keeps_frames_SetObjectArrayElement a i v :
  keeps_frames (SetObjectArrayElement a i v).
Proof.
  unfold SetObjectArrayElement. destruct a as [elems|].
  - destruct ((0 <=? i) && (i <? Z.of_nat (List.length elems))).
    + apply keeps_frames_ret.
    + apply keeps_frames_bind; [apply keeps_frames_throw|].
      intros; apply keeps_frames_ret.
  - intros s r s' H. discriminate.
Qed.

Lemma keeps_frames_convert_from tracing w paths idx :
  forall todo i a, keeps_frames (convert_from tracing w todo i paths idx a).
Proof.
  induction todo as [|todo IH]; intros i a.
  - apply keeps_frames_ret.
  - rewrite convert_from_S.
    apply keeps_frames_bind; [apply keeps_frames_read_path|]. intros c.
    apply keeps_frames_bind; [apply keeps_frames_NewStringPlatform|].
    intros [p|].
    + apply keeps_frames_bind; [apply keeps_frames_SetObjectArrayElement|].
      intros a'. apply IH.
    + apply keeps_frames_bind; [apply keeps_frames_ExceptionCheck|]. intros exc.
      apply keeps_frames_bind;
        [apply keeps_frames_when, keeps_frames_ExceptionDescribe|].
      intros; apply keeps_frames_ret.
Qed.

Lemma keeps_frames_createJavaArray tracing w n :
  keeps_frames (createJavaArray tracing w n).
Proof.
  unfold createJavaArray.
  apply keeps_frames_bind.
  - unfold NewObjectArray.
    destruct ((0 <=? n) && NewObjectArray_succeeds w n).
    + apply keeps_frames_ret.
    + apply keeps_frames_bind; [apply keeps_frames_throw|].
      intros; apply keeps_frames_ret.
  - intros a. apply keeps_frames_bind; [apply keeps_frames_ExceptionCheck|].
    intros [|]; [|apply keeps_frames_ret].
    apply keeps_frames_bind;
      [apply keeps_frames_when, keeps_frames_ExceptionDescribe|].
    intros; apply keeps_frames_ret.
Qed.

Lemma PushLocalFrame_frames w capacity s rc s1 :
  PushLocalFrame w capacity s = Ok rc s1 ->
  frames s1 = (if rc =? JNI_OK then S (frames s) else frames s).
Proof.
  unfold PushLocalFrame.
  destruct (PushLocalFrame_outcome w capacity) as [|throws].
  - intros H. inversion H. reflexivity.
  - destruct throws; unfold bind, when, throw, ret; intros H; inversion H;
      reflexivity.
Qed.

Lemma build_chunk_frames tracing w paths idx n s pushed ok a s1 :
  build_chunk tracing w paths idx n s = Ok (pushed, ok, a) s1 ->
  frames s1 = (if pushed then S (frames s) else frames s).
Proof.
  unfold build_chunk. intros H. unfold bind at 1 in H.
  destruct (PushLocalFrame w (to_jint (n + 5)) s) as [rc s0| |] eqn:Ep;
    try discriminate.
  apply PushLocalFrame_frames in Ep.
  unfold bind at 1 in H.
  destruct (rc =? JNI_OK) eqn:Erc.
  - destruct (createJavaArray tracing w n s0) as [[ok1 a1] s2| |] eqn:Ec;
      try discriminate.
    apply keeps_frames_createJavaArray in Ec.
    cbn [fst snd] in H. unfold bind at 1 in H.
    destruct ok1.
    + destruct (convertToJavaStringArray tracing w paths idx n a1 s2)
        as [[ok2 a2] s3| |] eqn:Ev; try discriminate.
      apply keeps_frames_convert_from in Ev.
      unfold ret in H. inversion H; subst. congruence.
    + unfold ret in H. inversion H; subst. congruence.
  - unfold ret, bind in H. cbn [fst snd] in H. inversion H; subst. exact Ep.
Qed.

(** ** The shape of a turn *)

Lemma callback_turn_shape tracing w stream info total
    (paths : list cstring) idx s ok idx' s' :
  callback_turn tracing w stream info total paths idx s = Ok (ok, idx') s' ->
  idx' = to_size_t (idx + numEventsToReport_at total idx)
  /\ frames s' = frames s
  /\ exists arr,
       let c := {| fc_handler := info; fc_stream := stream;
                   fc_numEvents := numEventsToReport_at total idx;
                   fc_paths := arr; fc_flags := idx; fc_ids := idx |} in
       calls s' = calls s ++ [c]
       /\ (ok = true -> fully_constructed c = true).
Proof.
  unfold callback_turn. intros H. unfold bind at 1 in H.
  destruct (build_chunk tracing w paths idx (numEventsToReport_at total idx) s)
    as [[[pushed ok1] arr] s1| |] eqn:Eb; try discriminate.
  pose proof (keeps_calls_build_chunk _ _ _ _ _ _ _ _ Eb) as Hc.
  pose proof (build_chunk_frames _ _ _ _ _ _ _ _ _ _ Eb) as Hf.
  assert (Hfull : ok1 = true ->
                  fully_constructed
                    {| fc_handler := info; fc_stream := stream;
                       fc_numEvents := numEventsToReport_at total idx;
                       fc_paths := arr; fc_flags := idx; fc_ids := idx |}
                  = true).
  { intros ->. eapply built_chunk_is_complete. exact Eb. }
  unfold JNU_CallMethodByName, bind, when, ret, ExceptionDescribe,
    PopLocalFrame in H.
  rewrite <- Hc.
  destruct tracing, pushed, (pending s1) eqn:Ep, (handler_throws w _ _);
    cbn in H; rewrite ?Ep in H; inversion H; subst; cbn [frames];
    rewrite ?Hf; cbn [Nat.pred];
    (split; [reflexivity | split; [reflexivity | exists arr; split;
                                     [reflexivity | exact Hfull]]]).
Qed.

(** ** The calls of a run of the loop *)

Lemma callback_loop_chained tracing w stream info total (paths : list cstring) :
  forall fuel OK idx s s',
    callback_loop tracing w fuel stream info total paths OK idx s = Ok tt s' ->
    frames s' = frames s
    /\ exists new,
         calls s' = calls s ++ new
         /\ chained info stream total idx new
         /\ (OK = false -> new = []).
Proof.
  induction fuel as [|fuel IH]; intros OK idx s s' H; [discriminate|].
  rewrite callback_loop_S in H.
  destruct (OK && (idx <? total)) eqn:Econd.
  - unfold bind at 1 in H.
    destruct (callback_turn tracing w stream info total paths idx s)
      as [[ok idx'] s1| |] eqn:Et; try discriminate.
    cbn [fst snd] in H.
    apply callback_turn_shape in Et as (-> & Hf1 & arr & Hc1 & Hfull).
    apply IH in H as (Hf2 & rest & Hc2 & Hchain & Hnone).
    split; [congruence|].
    eexists (_ :: rest). split.
    + rewrite Hc2, Hc1, <- app_assoc. reflexivity.
    + split.
      * cbn [chained fc_handler fc_stream fc_flags fc_ids fc_numEvents].
        repeat split; try reflexivity; [|exact Hchain].
        intros Hrest. apply Hfull.
        destruct ok; [reflexivity|]. now specialize (Hnone eq_refl).
      * intros ->. discriminate.
  - inversion H; subst. split; [reflexivity|].
    exists []. rewrite app_nil_r. repeat split.
Qed.

Lemma callback_chained tracing w fuel stream info total (paths : list cstring)
    s s' :
  callback tracing w fuel stream info total paths s = Ok tt s' ->
  frames s' = frames s
  /\ exists new,
       calls s' = calls s ++ new /\ chained info stream total 0 new.
Proof.
  unfold callback. intros H.
  assert (Hs0 : exists s0, when tracing (printf "Callback fired!" ;;
                                         printf "handler thread 0x%p") s = Ok tt s0
                           /\ calls s0 = calls s /\ frames s0 = frames s).
  { destruct tracing; unfold when, bind, printf, ret; cbn; eauto. }
  destruct Hs0 as (s0 & Hs0 & Hc0 & Hf0).
  rewrite (bind_Ok _ _ _ _ _ Hs0) in H. clear Hs0. rewrite <- Hc0, <- Hf0.
  destruct (GetEnv_valid w).
  - apply callback_loop_chained in H as (Hf & new & Hc & Hchain & _).
    split; [exact Hf|]. exists new. now split.
  - inversion H; subst. split; [reflexivity|].
    exists []. rewrite app_nil_r. now split.
Qed.

Lemma chained_contiguous info stream total :
  forall new idx, chained info stream total idx new -> contiguous idx new = true.
Proof.
  induction new as [|c rest IH]; intros idx H; [reflexivity|].
  cbn [chained] in H. destruct H as (_ & _ & Hfl & Hid & _ & _ & Hrest).
  cbn [contiguous]. rewrite Hfl, Hid, !Z.eqb_refl. cbn [andb].
  rewrite <- Hfl at 1. rewrite Hfl. now apply IH.
Qed.

Lemma chained_addressed info stream total :
  forall new idx,
    chained info stream total idx new ->
    forallb (addressed_to info stream) new = true.
Proof.
  induction new as [|c rest IH]; intros idx H; [reflexivity|].
  cbn [chained] in H. destruct H as (Hh & Hs & _ & _ & _ & _ & Hrest).
  cbn [forallb]. unfold addressed_to at 1.
  rewrite Hh, Hs, !Z.eqb_refl. cbn [andb]. eapply IH. exact Hrest.
Qed.

Lemma chained_complete_but_last info stream total :
  forall new idx,
    chained info stream total idx new ->
    forallb fully_constructed (removelast new) = true.
Proof.
  induction new as [|c rest IH]; intros idx H; [reflexivity|].
  cbn [chained] in H. destruct H as (_ & _ & _ & _ & _ & Hfull & Hrest).
  destruct rest as [|d rest]; [reflexivity|].
  change (removelast (c :: d :: rest)) with (c :: removelast (d :: rest)).
  cbn [forallb]. rewrite Hfull by discriminate. cbn [andb].
  eapply IH. exact Hrest.
Qed.

Lemma chained_sized info stream total :
  forall new idx,
    chained info stream total idx new ->
    Forall (fun c => fc_numEvents c = numEventsToReport_at total (fc_flags c))
      new.
Proof.
  induction new as [|c rest IH]; intros idx H; [constructor|].
  cbn [chained] in H. destruct H as (_ & _ & Hfl & _ & Hn & _ & Hrest).
  constructor; [now rewrite Hfl | eapply IH; exact Hrest].
Qed.

(** ** Nothing in a turn runs out of fuel *)

Lemma ends_ret {A} (a : A) : ends (ret a).
Proof. intros s H. discriminate. Qed.

Lemma ends_bind {A B} (m : M A) (k : A -> M B) :
  ends m -> (forall a, ends (k a)) -> ends (bind m k).
Proof.
  intros Hm Hk s H. unfold bind in H.
  destruct (m s) as [a s1| |] eqn:E; try discriminate.
  - exact (Hk a s1 H).
  - exact (Hm s E).
Qed.

Lemma ends_when b (m : M unit) : ends m -> ends (when b m).
Proof. intros H. destruct b; [exact H | apply ends_ret]. Qed.

Lemma ends_throw : ends throw.
Proof. intros s H. discriminate. Qed.

Lemma ends_ExceptionDescribe : ends ExceptionDescribe.
Proof. intros s H. unfold ExceptionDescribe in H. now destruct (pending s). Qed.

Lemma ends_convert_from tracing w paths idx :
  forall todo i a, ends (convert_from tracing w todo i paths idx a).
Proof.
  induction todo as [|todo IH]; intros i a; [apply ends_ret|].
  rewrite convert_from_S.
  apply ends_bind.
  { intros s H. unfold read_path in H.
    destruct (idx + i <? 0); [discriminate|].
    now destruct (nth_error paths (Z.to_nat (idx + i))). }
  intros c. apply ends_bind.
  { unfold JNU_NewStringPlatform.
    destruct (NewStringPlatform_result w c); [apply ends_ret|].
    apply ends_bind; [apply ends_when, ends_throw | intros; apply ends_ret]. }
  intros [p|].
  - apply ends_bind; [|intros; apply IH].
    unfold SetObjectArrayElement. destruct a as [elems|]; [|intros s H; discriminate].
    destruct ((0 <=? i) && (i <? Z.of_nat (List.length elems)));
      [apply ends_ret|].
    apply ends_bind; [apply ends_throw | intros; apply ends_ret].
  - apply ends_bind; [intros s H; discriminate|]. intros exc.
    apply ends_bind; [apply ends_when, ends_ExceptionDescribe|].
    intros; apply ends_ret.
Qed.

Lemma ends_build_chunk tracing w paths idx n :
  ends (build_chunk tracing w paths idx n).
Proof.
  unfold build_chunk. apply ends_bind.
  { unfold PushLocalFrame.
    destruct (PushLocalFrame_outcome w (to_jint (n + 5)));
      [intros s H; discriminate|].
    apply ends_bind; [apply ends_when, ends_throw | intros; apply ends_ret]. }
  intros rc. apply ends_bind.
  { destruct (rc =? JNI_OK); [|apply ends_ret].
    unfold createJavaArray. apply ends_bind.
    - unfold NewObjectArray.
      destruct ((0 <=? n) && NewObjectArray_succeeds w n); [apply ends_ret|].
      apply ends_bind; [apply ends_throw | intros; apply ends_ret].
    - intros a. apply ends_bind; [intros s H; discriminate|].
      intros [|]; [|apply ends_ret].
      apply ends_bind; [apply ends_when, ends_ExceptionDescribe|].
      intros; apply ends_ret. }
  intros r1. apply ends_bind; [|intros; apply ends_ret].
  destruct (fst r1); [apply ends_convert_from | apply ends_ret].
Qed.

Lemma ends_callback_turn tracing w stream info total paths idx :
  ends (callback_turn tracing w stream info total paths idx).
Proof.
  unfold callback_turn. apply ends_bind; [apply ends_build_chunk|].
  intros [[pushed ok] arr].
  apply ends_bind; [intros s H; discriminate|]. intros hasException.
  apply ends_bind.
  { apply ends_when, ends_when, ends_ExceptionDescribe. }
  intros _. apply ends_bind; [|intros; apply ends_ret].
  apply ends_when. intros s H. discriminate.
Qed.

(** ** A turn that reports no event *)

Lemma callback_turn_empty tracing w stream info total (paths : list cstring)
    idx s :
  let c := {| fc_handler := info; fc_stream := stream; fc_numEvents := 0;
              fc_paths := Some []; fc_flags := idx; fc_ids := idx |} in
  numEventsToReport_at total idx = 0 ->
  pending s = false ->
  PushLocalFrame_outcome w (to_jint 5) = Succeeds ->
  NewObjectArray_succeeds w 0 = true ->
  callback_turn tracing w stream info total paths idx s
  = Ok (true, to_size_t (idx + 0))
       (forwarded tracing (handler_throws w (List.length (calls s)) c) c s).
Proof.
  intros c Hn Hp Hpush Hnew. unfold callback_turn. rewrite Hn.
  assert (Hb : build_chunk tracing w paths idx 0 s
               = Ok (true, true, Some [])
                    {| pending := pending s; frames := S (frames s);
                       calls := calls s; diag := diag s |}).
  { unfold build_chunk, PushLocalFrame.
    change (to_jint (0 + 5)) with (to_jint 5). rewrite Hpush.
    erewrite bind_Ok by reflexivity.
    change (JNI_OK =? JNI_OK) with true. cbv iota.
    erewrite bind_Ok
      by (apply createJavaArray_ok; [exact Hp | lia | exact Hnew]).
    reflexivity. }
  rewrite (bind_Ok _ _ _ _ _ Hb). fold c.
  unfold JNU_CallMethodByName, forwarded, bind, when, ret, ExceptionDescribe,
    PopLocalFrame.
  cbn [pending frames calls diag]. rewrite Hp. subst c.
  destruct (handler_throws w (List.length (calls s)) _), tracing;
    cbn; rewrite ?app_nil_r; reflexivity.
Qed.

(** ** [convertToJavaStringArray] up to a path that does not convert *)



(** * Runs that do not return *)

Section StuckFacts.
Import Batches.

Lemma stuck_ret {A} (a : A) : stuck_keeps_calls (ret a).
Proof. intros s s' H. discriminate. Qed.

Lemma stuck_bind {A B} (m : M A) (k : A -> M B) :
  keeps_calls m -> stuck_keeps_calls m ->
  (forall a, stuck_keeps_calls (k a)) ->
  stuck_keeps_calls (bind m k).
Proof.
  intros Hk Hm Hka s s' H. unfold bind in H.
  destruct (m s) as [a s1|s1|] eqn:E; try discriminate.
  - rewrite (Hka a s1 s' H). exact (Hk s a s1 E).
  - inversion H; subst. exact (Hm s s' E).
Qed.

Lemma stuck_when b (m : M unit) :
  stuck_keeps_calls m -> stuck_keeps_calls (when b m).
Proof. intros H. destruct b; [exact H | apply stuck_ret]. Qed.

Lemma stuck_throw : stuck_keeps_calls throw.
Proof. intros s s' H. discriminate. Qed.

Lemma stuck_ExceptionCheck : stuck_keeps_calls ExceptionCheck.
Proof. intros s s' H. discriminate. Qed.

Lemma stuck_ExceptionDescribe : stuck_keeps_calls ExceptionDescribe.
Proof.
  intros s s' H. unfold ExceptionDescribe in H.
  destruct (pending s); discriminate.
Qed.

Lemma stuck_read_path paths i : stuck_keeps_calls (read_path paths i).
Proof.
  intros s s' H. unfold read_path, undefined, ret in H.
  destruct (i <? 0); [now inversion H|].
  destruct (nth_error paths (Z.to_nat i)); [discriminate | now inversion H].
Qed.

Lemma stuck_NewStringPlatform w p :
  stuck_keeps_calls (JNU_NewStringPlatform w p).
Proof.
  unfold JNU_NewStringPlatform.
  destruct (NewStringPlatform_result w p) as [js|throws].
  - apply stuck_ret.
  - apply stuck_bind; [| |intros; apply stuck_ret].
    + apply keeps_calls_when, keeps_calls_throw.
    + apply stuck_when, stuck_throw.
Qed.

Lemma stuck_SetObjectArrayElement a i v :
  stuck_keeps_calls (SetObjectArrayElement a i v).
Proof.
  unfold SetObjectArrayElement. destruct a as [elems|].
  - destruct ((0 <=? i) && (i <? Z.of_nat (List.length elems))).
    + apply stuck_ret.
    + apply stuck_bind; [apply keeps_calls_throw | apply stuck_throw|].
      intros; apply stuck_ret.
  - intros s s' H. unfold undefined in H. now inversion H.
Qed.

Lemma stuck_convert_from tracing w paths idx :
  forall todo i a, stuck_keeps_calls (convert_from tracing w todo i paths idx a).
Proof.
  induction todo as [|todo IH]; intros i a.
  - apply stuck_ret.
  - rewrite convert_from_S.
    apply stuck_bind;
      [apply keeps_calls_read_path | apply stuck_read_path|]. intros c.
    apply stuck_bind;
      [apply keeps_calls_NewStringPlatform | apply stuck_NewStringPlatform|].
    intros [p|].
    + apply stuck_bind;
        [apply keeps_calls_SetObjectArrayElement
        |apply stuck_SetObjectArrayElement|].
      intros a'. apply IH.
    + apply stuck_bind;
        [apply keeps_calls_ExceptionCheck | apply stuck_ExceptionCheck|].
      intros exc.
      apply stuck_bind;
        [apply keeps_calls_when, keeps_calls_ExceptionDescribe
        |apply stuck_when, stuck_ExceptionDescribe|].
      intros; apply stuck_ret.
Qed.

Lemma stuck_build_chunk tracing w paths idx n :
  stuck_keeps_calls (build_chunk tracing w paths idx n).
Proof.
  unfold build_chunk.
  assert (Hpush : keeps_calls (PushLocalFrame w (to_jint (n + 5)))
                  /\ stuck_keeps_calls (PushLocalFrame w (to_jint (n + 5)))).
  { unfold PushLocalFrame.
    destruct (PushLocalFrame_outcome w (to_jint (n + 5))) as [|throws].
    - split; [intros s r s' H; now inversion H | intros s s' H; discriminate].
    - split.
      + apply keeps_calls_bind; [|intros; apply keeps_calls_ret].
        apply keeps_calls_when, keeps_calls_throw.
      + apply stuck_bind; [| |intros; apply stuck_ret].
        * apply keeps_calls_when, keeps_calls_throw.
        * apply stuck_when, stuck_throw. }
  destruct Hpush as [Hpk Hps].
  apply stuck_bind; [exact Hpk | exact Hps|].
  intros rc. apply stuck_bind.
  - destruct (rc =? JNI_OK);
      [apply keeps_calls_createJavaArray | apply keeps_calls_ret].
  - destruct (rc =? JNI_OK); [|apply stuck_ret].
    unfold createJavaArray. apply stuck_bind.
    + unfold NewObjectArray.
      destruct ((0 <=? n) && NewObjectArray_succeeds w n).
      * apply keeps_calls_ret.
      * apply keeps_calls_bind; [apply keeps_calls_throw|].
        intros; apply keeps_calls_ret.
    + unfold NewObjectArray.
      destruct ((0 <=? n) && NewObjectArray_succeeds w n).
      * apply stuck_ret.
      * apply stuck_bind; [apply keeps_calls_throw | apply stuck_throw|].
        intros; apply stuck_ret.
    + intros a. apply stuck_bind;
        [apply keeps_calls_ExceptionCheck | apply stuck_ExceptionCheck|].
      intros [|]; [|apply stuck_ret].
      apply stuck_bind;
        [apply keeps_calls_when, keeps_calls_ExceptionDescribe
        |apply stuck_when, stuck_ExceptionDescribe|].
      intros; apply stuck_ret.
  - intros r1. apply stuck_bind; [| |intros; apply stuck_ret].
    + destruct (fst r1); [|apply keeps_calls_ret].
      apply keeps_calls_convert_from.
    + destruct (fst r1); [|apply stuck_ret].
      apply stuck_convert_from.
Qed.

(** A turn runs into undefined behaviour only while it builds its chunk,
    before it calls the handler. *)
Lemma stuck_callback_turn tracing w stream info total paths idx :
  stuck_keeps_calls (callback_turn tracing w stream info total paths idx).
Proof.
  intros s s' H. unfold callback_turn in H. unfold bind at 1 in H.
  destruct (build_chunk tracing w paths idx (numEventsToReport_at total idx) s)
    as [[[pushed ok] arr] s1|s1|] eqn:Eb; try discriminate.
  - exfalso. revert H.
    unfold JNU_CallMethodByName, bind, when, ret, ExceptionDescribe,
      PopLocalFrame.
    destruct tracing, pushed, (pending s1) eqn:Ep, (handler_throws w _ _);
      cbn; rewrite ?Ep; discriminate.
  - inversion H; subst. exact (stuck_build_chunk _ _ _ _ _ _ _ Eb).
Qed.

Lemma callback_prefix_S tracing w turns stream info total paths OK idx :
  callback_prefix tracing w (S turns) stream info total paths OK idx =
  if OK && (idx <? total)
  then bind (callback_turn tracing w stream info total paths idx)
         (fun r => callback_prefix tracing w turns stream info total paths
                     (fst r) (snd r))
  else ret tt.
Proof. reflexivity. Qed.

(** What the loop has done when it stops, it has done in its first turns. *)
Lemma callback_loop_prefix tracing w stream info total (paths : list cstring) :
  forall fuel OK idx s s',
    reached (callback_loop tracing w fuel stream info total paths OK idx s)
    = Some s' ->
    reached (callback_prefix tracing w fuel stream info total paths OK idx s)
    = Some s'.
Proof.
  induction fuel as [|fuel IH]; intros OK idx s s' H; [discriminate|].
  rewrite callback_loop_S in H. rewrite callback_prefix_S.
  destruct (OK && (idx <? total)); [|exact H].
  unfold bind in *.
  destruct (callback_turn tracing w stream info total paths idx s)
    as [r s1|s1|]; [apply IH; exact H | exact H | exact H].
Qed.

Lemma callback_prefix_chained tracing w stream info total
    (paths : list cstring) :
  forall turns OK idx s s',
    reached (callback_prefix tracing w turns stream info total paths OK idx s)
    = Some s' ->
    exists new,
      calls s' = calls s ++ new
      /\ chained info stream total idx new
      /\ (OK = false -> new = []).
Proof.
  induction turns as [|turns IH]; intros OK idx s s' H.
  - inversion H; subst. exists []. rewrite app_nil_r. repeat split.
  - rewrite callback_prefix_S in H.
    destruct (OK && (idx <? total)) eqn:Econd.
    + unfold bind at 1 in H.
      destruct (callback_turn tracing w stream info total paths idx s)
        as [[ok idx'] s1|s1|] eqn:Et; try discriminate.
      * cbn [fst snd] in H.
        apply callback_turn_shape in Et as (-> & _ & arr & Hc1 & Hfull).
        apply IH in H as (rest & Hc2 & Hchain & Hnone).
        eexists (_ :: rest). split.
        -- rewrite Hc2, Hc1, <- app_assoc. reflexivity.
        -- split.
           ++ cbn [chained fc_handler fc_stream fc_flags fc_ids fc_numEvents].
              repeat split; try reflexivity; [|exact Hchain].
              intros Hrest. apply Hfull.
              destruct ok; [reflexivity|]. now specialize (Hnone eq_refl).
           ++ intros ->. discriminate.
      * inversion H; subst. apply stuck_callback_turn in Et.
        exists []. rewrite app_nil_r. split; [exact Et|]. split; [exact I|].
        reflexivity.
    + inversion H; subst. exists []. rewrite app_nil_r. repeat split.
Qed.

Lemma callback_reached_chained tracing w fuel stream info total
    (paths : list cstring) s s' :
  reached (callback tracing w fuel stream info total paths s) = Some s' ->
  exists new, calls s' = calls s ++ new /\ chained info stream total 0 new.
Proof.
  unfold callback. intros H.
  assert (Hs0 : exists s0, when tracing (printf "Callback fired!" ;;
                                         printf "handler thread 0x%p") s = Ok tt s0
                           /\ calls s0 = calls s).
  { destruct tracing; unfold when, bind, printf, ret; cbn; eauto. }
  destruct Hs0 as (s0 & Hs0 & Hc0).
  rewrite (bind_Ok _ _ _ _ _ Hs0) in H. clear Hs0. rewrite <- Hc0.
  destruct (GetEnv_valid w).
  - apply callback_loop_prefix, callback_prefix_chained in H
      as (new & Hc & Hchain & _).
    exists new. now split.
  - inversion H; subst. exists []. rewrite app_nil_r. now split.
Qed.

(** The run of 4294967302 events in which the handler throws in its
    second call, with tracing off: three calls, the last with six empty
    slots. *)
Lemma three_calls_of_4294967302_events :
  exists s' c1 c2 c3,
    callback false world_throwing_second 4 7 8 4294967302
      (repeat "/p"%string (Z.to_nat 4294967302)) initial
    = Ok tt s'
    /\ calls s' = [c1; c2; c3]
    /\ map fc_numEvents [c1; c2; c3] = [2147483645; 2147483645; 6]
    /\ map fc_flags [c1; c2; c3] = [0; 2147483645; 4294967290]
    /\ fc_paths c3 = Some (repeat None 6).
Proof.
  assert (Hlen : Z.of_nat (List.length (repeat "/p"%string (Z.to_nat 4294967302)))
                 = 2 * 2147483645 + 12)
    by (rewrite repeat_length; now rewrite Z2Nat.id).
  assert (Hall : forall l, forallb (convertible world_throwing_second) l = true)
    by (induction l as [|p t IH]; [reflexivity | exact IH]).
  destruct (callback_goes_on_after_throw world_throwing_second 0 7 8
              (repeat "/p"%string (Z.to_nat 4294967302)) initial 2147483645
              eq_refl Hlen eq_refl eq_refl (fun _ => eq_refl)
              (fun _ => eq_refl) (Hall _) (fun _ => eq_refl)
              (fun _ => eq_refl))
    as (s' & c1 & c2 & c3 & Hrun & Hcalls & Hcounts & Hfrom & Hnull & _).
  exists s', c1, c2, c3. split; [exact Hrun|]. split; [exact Hcalls|].
  split; [exact Hcounts|]. split; [exact Hfrom | exact Hnull].
Qed.

End StuckFacts.

(** * Further statements about the dispatcher *)

(** X1.  A callback that returns has popped every local frame it has
    pushed, whatever failed on the way: the thread has as many local
    frames as before. *)
Theorem callback_pops_every_frame_it_pushed :
  forall tracing w fuel stream info total (paths : list cstring) s s',
    callback tracing w fuel stream info total paths s = Ok tt s' ->
    frames s' = frames s.
Proof.
  intros tracing w fuel stream info total paths s s' H.
  now apply callback_chained in H as [Hf _].
Qed.

(** X1 at two events of which the second has no Java string. *)
Lemma callback_pops_every_frame_it_pushed_witness :
  frames {| pending := true; frames := 0;
            calls := [{| fc_handler := 8; fc_stream := 7; fc_numEvents := 2;
                         fc_paths := Some [Some "/a"%string; None];
                         fc_flags := 0; fc_ids := 0 |}];
            diag := [] |}
  = frames initial.
Proof.
  apply (callback_pops_every_frame_it_pushed false
           (world_failing_on "/b"%string) 2 7 8 2 ["/a"; "/b"]%string initial).
  vm_compute. reflexivity.
Defined.

(** X2.  A callback adds calls to those made before and changes none of
    them, and each call it adds is made to the handler it was given as
    [clientCallBackInfo], with the stream it was given as [streamRef]. *)
Theorem callback_calls_only_its_handler :
  forall tracing w fuel stream info total (paths : list cstring) s s',
    callback tracing w fuel stream info total paths s = Ok tt s' ->
    exists new,
      calls s' = calls s ++ new
      /\ forallb (addressed_to info stream) new = true.
Proof.
  intros tracing w fuel stream info total paths s s' H.
  apply callback_chained in H as (_ & new & Hc & Hchain).
  exists new. split; [exact Hc|].
  eapply chained_addressed. exact Hchain.
Qed.

(** X2 at three events in a JVM where nothing fails. *)
Lemma callback_calls_only_its_handler_witness :
  exists new,
    calls {| pending := false; frames := 0;
             calls := [{| fc_handler := 8; fc_stream := 7; fc_numEvents := 3;
                          fc_paths := Some [Some "/a"; Some "/b"; Some "/c"]%string;
                          fc_flags := 0; fc_ids := 0 |}];
             diag := [] |}
    = calls initial ++ new
    /\ forallb (addressed_to 8 7) new = true.
Proof.
  apply (callback_calls_only_its_handler false calm 2 7 8 3
           ["/a"; "/b"; "/c"]%string initial).
  vm_compute. reflexivity.
Defined.

(** X3.  The calls of a callback walk through the arrays of FSEvents
    without a gap: the first passes the addresses of the flags and the ids
    at index 0, and each next one passes the addresses at the index where
    the one before it ends, its index plus its count as a [size_t]; in
    each call the flags and the ids start at the same index.  This holds
    of the calls made when the callback returns, of those made when it
    runs into undefined behaviour, and of those made in any number of
    turns of a loop that goes on, from whatever index the turns start. *)
Theorem callback_chunks_follow_one_another :
  forall tracing w stream info total (paths : list cstring) s s',
    (forall fuel,
        reached (callback tracing w fuel stream info total paths s) = Some s' ->
        exists new, calls s' = calls s ++ new /\ contiguous 0 new = true)
    /\ (forall turns idx,
          reached (callback_prefix tracing w turns stream info total paths
                     true idx s) = Some s' ->
          exists new, calls s' = calls s ++ new /\ contiguous idx new = true).
Proof.
  intros tracing w stream info total paths s s'. split.
  - intros fuel H.
    apply callback_reached_chained in H as (new & Hc & Hchain).
    exists new. split; [exact Hc|]. eapply chained_contiguous. exact Hchain.
  - intros turns idx H.
    apply callback_prefix_chained in H as (new & Hc & Hchain & _).
    exists new. split; [exact Hc|]. eapply chained_contiguous. exact Hchain.
Qed.

(** X3 at 4294967302 events and a handler that throws in its second
    call, with tracing off: three calls, at the indices 0, 2147483645 and
    4294967290. *)
Lemma callback_chunks_follow_one_another_witness :
  exists s' new,
    callback false world_throwing_second 4 7 8 4294967302
      (repeat "/p"%string (Z.to_nat 4294967302)) initial
    = Ok tt s'
    /\ calls s' = calls initial ++ new
    /\ map fc_flags new = [0; 2147483645; 4294967290]
    /\ map fc_numEvents new = [2147483645; 2147483645; 6]
    /\ contiguous 0 new = true.
Proof.
  destruct three_calls_of_4294967302_events
    as (s' & c1 & c2 & c3 & Hrun & Hcalls & Hcounts & Hfrom & _).
  destruct (proj1 (callback_chunks_follow_one_another false
                     world_throwing_second 7 8 4294967302
                     (repeat "/p"%string (Z.to_nat 4294967302)) initial s')
              4%nat (f_equal reached Hrun))
    as (new & Hc & Hcont).
  exists s', new. split; [exact Hrun|]. split; [exact Hc|].
  assert (Hnew : new = [c1; c2; c3])
    by (rewrite Hcalls in Hc; symmetry; exact Hc).
  rewrite Hnew in Hcont |- *.
  split; [exact Hfrom|]. split; [exact Hcounts | exact Hcont].
Defined.

(** X4.  Among the calls a callback makes, only the last one can carry an
    array that is [NULL], too short or not filled: the loop goes on to a
    next turn only when [OK] is [TRUE], and then the array of the turn has
    a string in each of its [numEventsToReport] slots.  This holds of the
    calls made when the callback returns, of those made when it runs into
    undefined behaviour, and of those made in any number of turns of a
    loop that goes on. *)
Theorem only_the_last_call_can_be_unfinished :
  forall tracing w stream info total (paths : list cstring) s s',
    (forall fuel,
        reached (callback tracing w fuel stream info total paths s) = Some s' ->
        exists new,
          calls s' = calls s ++ new
          /\ forallb fully_constructed (removelast new) = true)
    /\ (forall turns idx,
          reached (callback_prefix tracing w turns stream info total paths
                     true idx s) = Some s' ->
          exists new,
            calls s' = calls s ++ new
            /\ forallb fully_constructed (removelast new) = true).
Proof.
  intros tracing w stream info total paths s s'. split.
  - intros fuel H.
    apply callback_reached_chained in H as (new & Hc & Hchain).
    exists new. split; [exact Hc|].
    eapply chained_complete_but_last. exact Hchain.
  - intros turns idx H.
    apply callback_prefix_chained in H as (new & Hc & Hchain & _).
    exists new. split; [exact Hc|].
    eapply chained_complete_but_last. exact Hchain.
Qed.

(** X4 at 4294967302 events and a handler that throws in its second
    call, with tracing off: of the three calls the first two carry full
    arrays and the third one six empty slots. *)
Lemma only_the_last_call_can_be_unfinished_witness :
  exists s' new,
    callback false world_throwing_second 4 7 8 4294967302
      (repeat "/p"%string (Z.to_nat 4294967302)) initial
    = Ok tt s'
    /\ calls s' = calls initial ++ new
    /\ List.length new = 3%nat
    /\ forallb fully_constructed (removelast new) = true
    /\ forallb fully_constructed new = false.
Proof.
  destruct three_calls_of_4294967302_events
    as (s' & c1 & c2 & c3 & Hrun & Hcalls & Hcounts & _ & Hnull).
  destruct (proj1 (only_the_last_call_can_be_unfinished false
                     world_throwing_second 7 8 4294967302
                     (repeat "/p"%string (Z.to_nat 4294967302)) initial s')
              4%nat (f_equal reached Hrun))
    as (new & Hc & Hfull).
  exists s', new. split; [exact Hrun|]. split; [exact Hc|].
  assert (Hnew : new = [c1; c2; c3])
    by (rewrite Hcalls in Hc; symmetry; exact Hc).
  rewrite Hnew in Hfull |- *.
  split; [reflexivity|]. split; [exact Hfull|].
  assert (H3 : fully_constructed c3 = false)
    by (unfold fully_constructed; rewrite Hnull; apply andb_false_r).
  cbn [forallb]. rewrite H3. now rewrite !andb_false_r.
Defined.

(** X5.  With at most [INT_MAX - 2] events the loop makes one turn at
    most, whatever the JVM answers and whatever fails: given fuel for two
    tests of its condition the callback does not run out of it, and when
    it returns it has made at most one call to the handler. *)
Theorem callback_ends_when_the_events_fit_one_chunk :
  forall tracing w fuel stream info total (paths : list cstring) s,
    0 <= total <= MAX_EVENTS_TO_REPORT_AT_ONCE ->
    callback tracing w (S (S fuel)) stream info total paths s <> OutOfFuel
    /\ forall s',
         callback tracing w (S (S fuel)) stream info total paths s = Ok tt s' ->
         exists new,
           calls s' = calls s ++ new /\ (List.length new <= 1)%nat.
Proof.
  intros tracing w fuel stream info total paths s Htotal.
  pose proof max_events_value as Hmax. rewrite Hmax in Htotal.
  unfold callback.
  assert (Hs0 : exists s0, when tracing (printf "Callback fired!" ;;
                                         printf "handler thread 0x%p") s = Ok tt s0
                           /\ calls s0 = calls s).
  { destruct tracing; unfold when, bind, printf, ret; cbn; eauto. }
  destruct Hs0 as (s0 & Hs0 & Hc0).
  rewrite (bind_Ok _ _ _ _ _ Hs0). clear Hs0. rewrite <- Hc0.
  destruct (GetEnv_valid w).
  2:{ split; [discriminate|]. intros s' H. inversion H; subst.
      exists []. rewrite app_nil_r. split; [reflexivity | cbn; lia]. }
  rewrite callback_loop_S. cbn [andb].
  destruct (Z.ltb_spec 0 total) as [Hpos|Hzero].
  2:{ split; [discriminate|]. intros s' H. inversion H; subst.
      exists []. rewrite app_nil_r. split; [reflexivity | cbn; lia]. }
  destruct (callback_turn tracing w stream info total paths 0 s0)
    as [[ok idx'] s1|s1|] eqn:Et.
  - rewrite (bind_Ok _ _ _ _ _ Et).
    apply callback_turn_shape in Et as (-> & _ & arr & Hc1 & _).
    rewrite numEventsToReport_at_fits by (rewrite Hmax; lia).
    rewrite Z.add_0_l, to_size_t_small by lia.
    cbn [fst snd]. rewrite callback_loop_S, Z.ltb_irrefl, andb_false_r.
    split; [discriminate|]. intros s' H. inversion H; subst.
    eexists. split; [exact Hc1 | cbn; lia].
  - rewrite (bind_Undefined _ _ _ _ Et).
    split; [discriminate|]. intros s' H. discriminate.
  - exfalso. exact (ends_callback_turn _ _ _ _ _ _ _ _ Et).
Qed.

(** X5 at three events, tracing off, in a JVM where nothing fails. *)
Lemma callback_ends_when_the_events_fit_one_chunk_witness :
  callback false calm 2 7 8 3 ["/a"; "/b"; "/c"]%string initial <> OutOfFuel
  /\ forall s',
       callback false calm 2 7 8 3 ["/a"; "/b"; "/c"]%string initial = Ok tt s' ->
       exists new,
         calls s' = calls initial ++ new /\ (List.length new <= 1)%nat.
Proof.
  apply (callback_ends_when_the_events_fit_one_chunk false calm 0 7 8 3
           ["/a"; "/b"; "/c"]%string initial).
  unfold MAX_EVENTS_TO_REPORT_AT_ONCE, INT_MAX. lia.
Defined.

(** X6.  A turn that reports no event does not advance [eventIndex].  In
    a JVM that gives the local frame and the empty array and a handler
    that does not throw, the loop then repeats that turn for ever: it
    runs out of any fuel. *)
Theorem empty_turn_repeats_for_ever :
  forall tracing w stream info total (paths : list cstring) idx s fuel,
    0 <= idx < total ->
    idx < 18446744073709551616 ->
    numEventsToReport_at total idx = 0 ->
    pending s = false ->
    PushLocalFrame_outcome w (to_jint 5) = Succeeds ->
    NewObjectArray_succeeds w 0 = true ->
    (forall k c, handler_throws w k c = false) ->
    callback_loop tracing w fuel stream info total paths true idx s = OutOfFuel.
Proof.
  intros tracing w stream info total paths idx s fuel Hidx Hsize Hn Hp Hpush
    Hnew Hquiet.
  revert s Hp. induction fuel as [|fuel IH]; intros s Hp; [reflexivity|].
  rewrite callback_loop_S.
  destruct (Z.ltb_spec idx total); [|lia]. cbn [andb].
  rewrite (bind_Ok _ _ _ _ _
             (callback_turn_empty tracing w stream info total paths idx s
                Hn Hp Hpush Hnew)).
  cbn [fst snd]. rewrite Hquiet, Z.add_0_r, to_size_t_small by lia.
  apply IH. reflexivity.
Qed.

(** X6 at 4294967296 events, of which six are left at index 4294967290:
    the count of the turn is the total cut to a [jsize], which is 0. *)
Lemma empty_turn_repeats_for_ever_witness :
  numEventsToReport_at 4294967296 4294967290 = 0
  /\ callback_loop false calm 1000 7 8 4294967296 [] true 4294967290 initial
     = OutOfFuel.
Proof.
  split; [reflexivity|].
  apply (empty_turn_repeats_for_ever false calm 7 8 4294967296 [] 4294967290
           initial 1000);
    try reflexivity; try lia.
Defined.



(** X8.  Called with no exception pending, [createJavaArray] returns
    [TRUE] exactly when the length is not negative and the JVM has the
    memory, and then with an array of that many null slots.  Otherwise it
    returns [FALSE] with [NULL] for the array, and the exception of
    [NewObjectArray] is still pending with tracing off and cleared with
    tracing on.  It calls no handler and pushes or pops no frame. *)
Theorem createJavaArray_succeeds_iff :
  forall tracing w n s,
    pending s = false ->
    exists ok a s',
      createJavaArray tracing w n s = Ok (ok, a) s'
      /\ (ok = true <-> 0 <= n /\ NewObjectArray_succeeds w n = true)
      /\ a = (if ok then Some (repeat None (Z.to_nat n)) else None)
      /\ pending s' = negb ok && negb tracing
      /\ calls s' = calls s
      /\ frames s' = frames s.
Proof.
  intros tracing w n s Hp.
  unfold createJavaArray, NewObjectArray, bind, ret, throw, ExceptionCheck, when,
    ExceptionDescribe.
  destruct (Z.leb_spec 0 n) as [Hn|Hn]; cbn [andb];
    destruct (NewObjectArray_succeeds w n) eqn:Ew;
    destruct tracing; cbn [pending frames calls diag]; rewrite ?Hp;
    do 3 eexists; (split; [reflexivity|]);
    cbn [pending frames calls diag negb andb];
    (split; [split; [intros H; first [discriminate | split; [exact Hn | reflexivity]]
                    |intros [H1 H2]; first [reflexivity | discriminate | lia]]|]);
    repeat split; try reflexivity; exact Hp.
Qed.

(** X8 at the length -6, which the turn at index 2147483645 of
    4294967290 events asks for: no array, and with tracing off the
    exception stays. *)
Lemma createJavaArray_succeeds_iff_witness :
  exists ok a s',
    createJavaArray false calm (-6) initial = Ok (ok, a) s'
    /\ (ok = true <-> 0 <= -6 /\ NewObjectArray_succeeds calm (-6) = true)
    /\ a = (if ok then Some (repeat None (Z.to_nat (-6))) else None)
    /\ pending s' = negb ok && negb false
    /\ calls s' = calls initial
    /\ frames s' = frames initial.
Proof.
  apply (createJavaArray_succeeds_iff false calm (-6) initial).
  reflexivity.
Defined.

(** X9.  When the total number of events, cut to a [jsize], is not
    negative, each call of a callback reports one of two counts, whatever
    is left to report: [INT_MAX - 2], or the total cut to a [jsize]; no
    call reports a negative count.  This holds of the calls made when the
    callback returns, of those made when it runs into undefined
    behaviour, and of those made in any number of turns of a loop that
    goes on. *)
Theorem each_call_reports_the_limit_or_the_total :
  forall tracing w stream info total (paths : list cstring) s s',
    0 <= to_jint total ->
    let limit_or_total c :=
      (fc_numEvents c = MAX_EVENTS_TO_REPORT_AT_ONCE
       \/ fc_numEvents c = to_jint total)
      /\ 0 <= fc_numEvents c in
    (forall fuel,
        reached (callback tracing w fuel stream info total paths s) = Some s' ->
        exists new, calls s' = calls s ++ new /\ Forall limit_or_total new)
    /\ (forall turns idx,
          reached (callback_prefix tracing w turns stream info total paths
                     true idx s) = Some s' ->
          exists new, calls s' = calls s ++ new /\ Forall limit_or_total new).
Proof.
  intros tracing w stream info total paths s s' Htotal limit_or_total.
  assert (Hsized : forall idx new,
             chained info stream total idx new -> Forall limit_or_total new).
  { intros idx new Hchain. apply chained_sized in Hchain.
    eapply Forall_impl; [|exact Hchain].
    intros c Hc. unfold limit_or_total. rewrite Hc.
    unfold numEventsToReport_at, numEventsToReport_for.
    destruct (_ >? _).
    - assert (Hmax : to_jint MAX_EVENTS_TO_REPORT_AT_ONCE
                     = MAX_EVENTS_TO_REPORT_AT_ONCE) by reflexivity.
      rewrite Hmax. split; [now left|]. rewrite max_events_value. lia.
    - split; [now right | exact Htotal]. }
  split.
  - intros fuel H.
    apply callback_reached_chained in H as (new & Hc & Hchain).
    exists new. split; [exact Hc | eapply Hsized; exact Hchain].
  - intros turns idx H.
    apply callback_prefix_chained in H as (new & Hc & Hchain & _).
    exists new. split; [exact Hc | eapply Hsized; exact Hchain].
Qed.

(** X9 at 4294967302 events, a total that is 6 as a [jsize], and a
    handler that throws in its second call: the calls report 2147483645,
    2147483645 and 6 events. *)
Lemma each_call_reports_the_limit_or_the_total_witness :
  exists s' new,
    callback false world_throwing_second 4 7 8 4294967302
      (repeat "/p"%string (Z.to_nat 4294967302)) initial
    = Ok tt s'
    /\ calls s' = calls initial ++ new
    /\ map fc_numEvents new = [2147483645; 2147483645; 6]
    /\ Forall (fun c =>
                 (fc_numEvents c = MAX_EVENTS_TO_REPORT_AT_ONCE
                  \/ fc_numEvents c = to_jint 4294967302)
                 /\ 0 <= fc_numEvents c) new.
Proof.
  destruct three_calls_of_4294967302_events
    as (s' & c1 & c2 & c3 & Hrun & Hcalls & Hcounts & _).
  assert (Htotal : 0 <= to_jint 4294967302) by (vm_compute; discriminate).
  destruct (proj1 (each_call_reports_the_limit_or_the_total false
                     world_throwing_second 7 8 4294967302
                     (repeat "/p"%string (Z.to_nat 4294967302)) initial s'
                     Htotal)
              4%nat (f_equal reached Hrun))
    as (new & Hc & Hall).
  exists s', new. split; [exact Hrun|]. split; [exact Hc|].
  assert (Hnew : new = [c1; c2; c3])
    by (rewrite Hcalls in Hc; symmetry; exact Hc).
  rewrite Hnew in Hall |- *.
  split; [exact Hcounts | exact Hall].
Defined.

(** X10.  Without an event the callback makes no call, pushes no frame
    and leaves a pending exception as it is, whether or not the thread has
    a JNI environment; with tracing on it prints its two lines. *)
Theorem callback_without_an_event_does_nothing :
  forall tracing w fuel stream info (paths : list cstring) s,
    callback tracing w (S fuel) stream info 0 paths s
    = Ok tt {| pending := pending s; frames := frames s; calls := calls s;
               diag := diag s
                       ++ (if tracing
                           then ["Callback fired!"; "handler thread 0x%p"]%string
                           else []) |}.
Proof.
  intros tracing w fuel stream info paths s. unfold callback.
  destruct (GetEnv_valid w), tracing; unfold when, bind, printf, ret;
    cbn [pending frames calls diag callback_loop andb Z.ltb Z.compare];
    rewrite <- ?app_assoc, ?app_nil_r; try reflexivity; now destruct s.
Qed.

(** X11 at three events in a JVM where nothing fails: with tracing on and
    off the handler gets the same call, and no exception is pending. *)
Lemma tracing_only_prints_when_nothing_fails_witness :
  exists s_on s_off,
    callback true calm 2 7 8 (Z.of_nat (List.length ["/a"; "/b"; "/c"]%string))
      ["/a"; "/b"; "/c"]%string initial = Ok tt s_on
    /\ callback false calm 2 7 8
         (Z.of_nat (List.length ["/a"; "/b"; "/c"]%string))
         ["/a"; "/b"; "/c"]%string initial = Ok tt s_off
    /\ calls s_on = calls s_off
    /\ pending s_on = pending s_off
    /\ frames s_on = frames s_off.
Proof.
  apply (tracing_only_prints_when_nothing_fails calm 0 7 8
           ["/a"; "/b"; "/c"]%string initial);
    try reflexivity.
  unfold MAX_EVENTS_TO_REPORT_AT_ONCE, INT_MAX. cbn. lia.
Defined.

(** * Further properties of the start-up and of the entry points *)

(** X12.  [initIDs] stores the value of the static field [tracingEnabled]
    and leaves no exception pending.  When the class has no such field it
    describes the [NoSuchFieldError] and does not return: it goes on to
    read the field through the [NULL] id, for which JNI defines nothing. *)
Theorem initIDs_reads_the_field_also_through_a_null_id :
  forall (field : option bool) s,
    match field with
    | Some b =>
        exists s', Startup.initIDs (Some b) s = Ok b s'
                   /\ pending s' = false
                   /\ calls s' = calls s /\ frames s' = frames s
    | None =>
        exists s', Startup.initIDs None s = Undefined s'
                   /\ pending s' = false
                   /\ diag s' = diag s ++ ["Exception in thread"%string]
    end.
Proof.
  intros [b|] s; unfold Startup.initIDs, Startup.GetStaticFieldID,
    Startup.GetStaticBooleanField, bind, ret, when, throw, ExceptionCheck,
    ExceptionDescribe, undefined; cbn.
  - destruct (pending s) eqn:Ep; rewrite ?Ep; eexists; repeat split;
      try reflexivity; exact Ep.
  - eexists. repeat split.
Qed.

Section EntryPointFacts.
Import Watch.

Lemma out_trace_if_off lines n : out (trace_if false lines n) = out n.
Proof. reflexivity. Qed.

Lemma same_watches_refl n : same_watches n n.
Proof. repeat split. Qed.

Lemma same_watches_trace_if tracing lines n :
  same_watches (trace_if tracing lines n) n.
Proof.
  unfold same_watches.
  now rewrite streams_trace_if, loops_trace_if, global_refs_trace_if,
    effects_trace_if.
Qed.

Lemma loops_update_stream r f n : loops (update_stream r f n) = loops n.
Proof. unfold update_stream. now destruct (streams n r). Qed.

Lemma out_update_stream r f n : out (update_stream r f n) = out n.
Proof. unfold update_stream. now destruct (streams n r). Qed.

Lemma cf_calls_update_stream r f n :
  cf_calls (update_stream r f n) = cf_calls n.
Proof. unfold update_stream. now destruct (streams n r). Qed.

Lemma cf_calls_do_FSEventStreamRelease r n :
  cf_calls (do_FSEventStreamRelease r n) = cf_calls n.
Proof.
  unfold do_FSEventStreamRelease, log. cbn [cf_calls].
  destruct (streams n r) as [st|]; [|reflexivity].
  destruct (retain_count st) as [|[|k]]; reflexivity.
Qed.

Lemma cf_calls_scheduleEventLoop tracing current r n :
  cf_calls (scheduleEventLoop tracing current r n)
  = cf_calls n
    ++ Call_CFRunLoopGetCurrent current
       :: (if tracing then [Call_CFRunLoopGetCurrent current] else []).
Proof.
  assert (Hgoal : forall m,
             cf_calls (do_FSEventStreamStart r
                         (do_FSEventStreamScheduleWithRunLoop r current m))
             = cf_calls m).
  { intros m.
    unfold do_FSEventStreamStart, do_FSEventStreamScheduleWithRunLoop, log.
    cbn [cf_calls]. rewrite cf_calls_update_stream. cbn [cf_calls].
    now rewrite cf_calls_update_stream. }
  unfold scheduleEventLoop.
  destruct tracing.
  - change (cf_calls (print ?l ?m)) with (cf_calls m).
    change (cf_calls (note ?c ?m)) with (cf_calls m ++ [c]).
    rewrite Hgoal. cbn [note cf_calls]. now rewrite <- app_assoc.
  - rewrite Hgoal. reflexivity.
Qed.

Lemma out_scheduleEventLoop_off current r n :
  out (scheduleEventLoop false current r n) = out n.
Proof.
  unfold scheduleEventLoop, do_FSEventStreamStart,
    do_FSEventStreamScheduleWithRunLoop, log.
  cbn [out]. rewrite out_update_stream. cbn [out].
  now rewrite out_update_stream.
Qed.

Lemma cf_calls_runLoopStop tracing l g n :
  cf_calls (runLoopStop tracing l g n) = cf_calls n.
Proof.
  unfold runLoopStop, do_DeleteGlobalRef, do_CFRunLoopStop, log, set_loop.
  cbn [cf_calls]. apply cf_calls_trace_if.
Qed.

Lemma cf_calls_dispose r n : cf_calls (dispose r n) = cf_calls n.
Proof.
  unfold dispose. rewrite cf_calls_do_FSEventStreamRelease.
  unfold do_FSEventStreamInvalidate, do_FSEventStreamStop, log.
  cbn [cf_calls]. rewrite cf_calls_update_stream.
  cbn [cf_calls]. now rewrite cf_calls_update_stream.
Qed.

Lemma loops_do_FSEventStreamRelease r n :
  loops (do_FSEventStreamRelease r n) = loops n.
Proof.
  unfold do_FSEventStreamRelease, log. cbn [loops].
  destruct (streams n r) as [st|]; [|reflexivity].
  destruct (retain_count st) as [|[|k]]; reflexivity.
Qed.

(** *** [scheduleEventLoop], field by field *)

Lemma streams_scheduleEventLoop_same tracing current r n st :
  streams n r = Some st ->
  streams (scheduleEventLoop tracing current r n) r
  = Some {| delivering := true; scheduled_on := Some current;
            retain_count := retain_count st;
            context_info := context_info st;
            since_when := since_when st |}.
Proof.
  intros Hst.
  assert (Hgoal : forall m,
             streams m r = Some st ->
             streams (do_FSEventStreamStart r
                        (do_FSEventStreamScheduleWithRunLoop r current m)) r
             = Some {| delivering := true; scheduled_on := Some current;
                       retain_count := retain_count st;
                       context_info := context_info st;
                       since_when := since_when st |}).
  { intros m Hm.
    assert (H1 : streams (do_FSEventStreamScheduleWithRunLoop r current m) r
                 = Some {| delivering := delivering st;
                           scheduled_on := Some current;
                           retain_count := retain_count st;
                           context_info := context_info st;
                           since_when := since_when st |}).
    { unfold do_FSEventStreamScheduleWithRunLoop, log. cbn [streams].
      now rewrite (streams_update_stream_same _ _ _ _ Hm). }
    unfold do_FSEventStreamStart, log. cbn [streams].
    now rewrite (streams_update_stream_same _ _ _ _ H1). }
  unfold scheduleEventLoop.
  destruct tracing;
    [change (streams (print ?l ?m)) with (streams m);
     change (streams (note ?c ?m)) with (streams m)|];
    apply Hgoal; exact Hst.
Qed.

Lemma streams_scheduleEventLoop_other tracing current r n other :
  other <> r ->
  streams (scheduleEventLoop tracing current r n) other = streams n other.
Proof.
  intros Ho.
  assert (Hgoal : forall m,
             streams (do_FSEventStreamStart r
                        (do_FSEventStreamScheduleWithRunLoop r current m)) other
             = streams m other).
  { intros m.
    unfold do_FSEventStreamStart, do_FSEventStreamScheduleWithRunLoop, log.
    cbn [streams]. rewrite streams_update_stream_other by exact Ho.
    cbn [streams]. now rewrite streams_update_stream_other. }
  unfold scheduleEventLoop.
  destruct tracing;
    [change (streams (print ?l ?m)) with (streams m);
     change (streams (note ?c ?m)) with (streams m)|];
    rewrite Hgoal; reflexivity.
Qed.

Lemma effects_scheduleEventLoop tracing current r n :
  effects (scheduleEventLoop tracing current r n)
  = effects n ++ [FSEventStreamScheduleWithRunLoop r current;
                  FSEventStreamStart r].
Proof.
  assert (Hgoal : forall m,
             effects (do_FSEventStreamStart r
                        (do_FSEventStreamScheduleWithRunLoop r current m))
             = effects m ++ [FSEventStreamScheduleWithRunLoop r current;
                             FSEventStreamStart r]).
  { intros m.
    unfold do_FSEventStreamStart, do_FSEventStreamScheduleWithRunLoop, log.
    cbn [effects]. rewrite effects_update_stream. cbn [effects].
    rewrite effects_update_stream. now rewrite <- app_assoc. }
  unfold scheduleEventLoop.
  destruct tracing;
    [change (effects (print ?l ?m)) with (effects m);
     change (effects (note ?c ?m)) with (effects m)|];
    rewrite Hgoal; reflexivity.
Qed.

Lemma global_refs_scheduleEventLoop tracing current r n :
  global_refs (scheduleEventLoop tracing current r n) = global_refs n.
Proof.
  assert (Hgoal : forall m,
             global_refs (do_FSEventStreamStart r
                            (do_FSEventStreamScheduleWithRunLoop r current m))
             = global_refs m).
  { intros m.
    unfold do_FSEventStreamStart, do_FSEventStreamScheduleWithRunLoop, log.
    cbn [global_refs]. rewrite global_refs_update_stream. cbn [global_refs].
    now rewrite global_refs_update_stream. }
  unfold scheduleEventLoop.
  destruct tracing;
    [change (global_refs (print ?l ?m)) with (global_refs m);
     change (global_refs (note ?c ?m)) with (global_refs m)|];
    rewrite Hgoal; reflexivity.
Qed.

Lemma loops_scheduleEventLoop tracing current r n :
  loops (scheduleEventLoop tracing current r n) = loops n.
Proof.
  assert (Hgoal : forall m,
             loops (do_FSEventStreamStart r
                      (do_FSEventStreamScheduleWithRunLoop r current m))
             = loops m).
  { intros m.
    unfold do_FSEventStreamStart, do_FSEventStreamScheduleWithRunLoop, log.
    cbn [loops]. rewrite loops_update_stream. cbn [loops].
    now rewrite loops_update_stream. }
  unfold scheduleEventLoop.
  destruct tracing;
    [change (loops (print ?l ?m)) with (loops m);
     change (loops (note ?c ?m)) with (loops m)|];
    rewrite Hgoal; reflexivity.
Qed.

(** *** [runLoopStop], field by field *)

Lemma streams_runLoopStop tracing l g n :
  streams (runLoopStop tracing l g n) = streams n.
Proof.
  unfold runLoopStop, do_DeleteGlobalRef, do_CFRunLoopStop, log, set_loop.
  cbn [streams]. apply streams_trace_if.
Qed.

Lemma global_refs_runLoopStop tracing l g n :
  global_refs (runLoopStop tracing l g n) = remove_one g (global_refs n).
Proof.
  unfold runLoopStop, do_DeleteGlobalRef, do_CFRunLoopStop, log, set_loop.
  cbn [global_refs]. now rewrite global_refs_trace_if.
Qed.

Lemma loops_runLoopStop tracing l g n l' :
  loops (runLoopStop tracing l g n) l'
  = if l' =? l then request_stop (loops n l) else loops n l'.
Proof.
  unfold runLoopStop, do_DeleteGlobalRef, do_CFRunLoopStop, log, set_loop.
  cbn [loops]. now rewrite loops_trace_if.
Qed.

Lemma effects_runLoopStop tracing l g n :
  effects (runLoopStop tracing l g n)
  = effects n ++ [CFRunLoopStop l; DeleteGlobalRef g].
Proof.
  unfold runLoopStop, do_DeleteGlobalRef, do_CFRunLoopStop, log, set_loop.
  cbn [effects]. now rewrite effects_trace_if, <- app_assoc.
Qed.

(** *** The disposal, field by field *)

Lemma streams_dispose_held_once r n st :
  streams n r = Some st ->
  retain_count st = 1%nat ->
  streams (dispose r n) r = None.
Proof.
  intros Hst Hone. unfold dispose.
  assert (H2 : streams (do_FSEventStreamInvalidate r (do_FSEventStreamStop r n)) r
               = Some {| delivering := false; scheduled_on := None;
                         retain_count := retain_count st;
                         context_info := context_info st;
                         since_when := since_when st |}).
  { assert (H1 : streams (do_FSEventStreamStop r n) r
                 = Some {| delivering := false;
                           scheduled_on := scheduled_on st;
                           retain_count := retain_count st;
                           context_info := context_info st;
                           since_when := since_when st |}).
    { unfold do_FSEventStreamStop, log. cbn [streams].
      now rewrite (streams_update_stream_same _ _ _ _ Hst). }
    unfold do_FSEventStreamInvalidate, log. cbn [streams].
    now rewrite (streams_update_stream_same _ _ _ _ H1). }
  unfold do_FSEventStreamRelease at 1, log. cbn [streams].
  rewrite H2. cbn [retain_count]. rewrite Hone.
  unfold set_stream. cbn [streams]. now rewrite Z.eqb_refl.
Qed.

Lemma streams_dispose_other r n other :
  other <> r -> streams (dispose r n) other = streams n other.
Proof.
  intros Ho. unfold dispose.
  assert (Hrest : streams
                    (do_FSEventStreamInvalidate r (do_FSEventStreamStop r n))
                    other = streams n other).
  { unfold do_FSEventStreamInvalidate, do_FSEventStreamStop, log.
    cbn [streams]. rewrite streams_update_stream_other by exact Ho.
    cbn [streams]. now rewrite streams_update_stream_other. }
  unfold do_FSEventStreamRelease at 1, log. cbn [streams].
  destruct (streams _ r) as [st|]; [|exact Hrest].
  destruct (retain_count st) as [|[|k]]; unfold set_stream; cbn [streams];
    (destruct (Z.eqb_spec other r); [contradiction | exact Hrest]).
Qed.

Lemma global_refs_dispose r n : global_refs (dispose r n) = global_refs n.
Proof.
  unfold dispose. rewrite global_refs_do_FSEventStreamRelease.
  unfold do_FSEventStreamInvalidate, do_FSEventStreamStop, log.
  cbn [global_refs]. rewrite global_refs_update_stream.
  cbn [global_refs]. now rewrite global_refs_update_stream.
Qed.

Lemma loops_dispose r n : loops (dispose r n) = loops n.
Proof.
  unfold dispose. rewrite loops_do_FSEventStreamRelease.
  unfold do_FSEventStreamInvalidate, do_FSEventStreamStop, log.
  cbn [loops]. rewrite loops_update_stream.
  cbn [loops]. now rewrite loops_update_stream.
Qed.

Lemma effects_dispose r n :
  effects (dispose r n)
  = effects n ++ [FSEventStreamStop r; FSEventStreamInvalidate r;
                  FSEventStreamRelease r].
Proof.
  unfold dispose.
  rewrite effects_do_FSEventStreamRelease, effects_do_FSEventStreamInvalidate,
    effects_do_FSEventStreamStop.
  now rewrite <- !app_assoc.
Qed.

(** *** The creation: the other streams, the run loops and the output *)

Lemma streams_create_other tracing os dir latency flags handler n path other :
  toCFString_result os dir = Some path ->
  other <> FSEventStreamCreate_result os [path] ->
  streams (snd (createNewEventStreamFor tracing os dir latency flags handler n))
    other
  = streams n other.
Proof.
  intros H1 Ho.
  unfold createNewEventStreamFor, do_NewGlobalRef, do_FSEventStreamCreate.
  rewrite H1.
  destruct (CFArrayCreate_succeeds os); cbn [negb]; [|reflexivity].
  destruct (FSEventStreamCreate_result os [path] =? 0) eqn:Er;
    cbn [negb andb]; rewrite ?Er; cbn [negb andb];
    [|destruct (SetField_throws os)]; cbn [fst snd];
    rewrite ?streams_trace_if; unfold log, set_stream; cbn [streams];
    try reflexivity;
    (destruct (Z.eqb_spec other (FSEventStreamCreate_result os [path]));
     [contradiction | reflexivity]).
Qed.

Lemma loops_create tracing os dir latency flags handler n :
  loops (snd (createNewEventStreamFor tracing os dir latency flags handler n))
  = loops n.
Proof.
  unfold createNewEventStreamFor, do_NewGlobalRef, do_FSEventStreamCreate.
  destruct (toCFString_result os dir) as [path|]; [|reflexivity].
  destruct (CFArrayCreate_succeeds os); cbn [negb]; [|reflexivity].
  destruct (FSEventStreamCreate_result os [path] =? 0) eqn:Er;
    cbn [negb andb]; rewrite ?Er; cbn [negb andb];
    [|destruct (SetField_throws os)]; cbn [fst snd];
    rewrite ?loops_trace_if; reflexivity.
Qed.

Lemma out_create_thrown tracing os dir latency flags handler n path :
  toCFString_result os dir = Some path ->
  FSEventStreamCreate_result os [path] <> 0 ->
  SetField_throws os = true ->
  out (snd (createNewEventStreamFor tracing os dir latency flags handler n))
  = out n.
Proof.
  intros H1 H3 H4. apply Z.eqb_neq in H3.
  unfold createNewEventStreamFor, do_NewGlobalRef, do_FSEventStreamCreate.
  rewrite H1.
  destruct (CFArrayCreate_succeeds os); cbn [negb]; [|reflexivity].
  rewrite H3. cbn [negb andb]. rewrite H3, H4. reflexivity.
Qed.

End EntryPointFacts.

Import Watch.

(** X13.  [scheduleEventLoop] of a stream that exists puts it on the run
    loop of the calling thread and then starts it: the stream is
    scheduled there and delivering, holds the references and the context
    it had, and the two calls to FSEvents are made in this order.  No
    other stream, no run loop and no global reference is changed. *)
Theorem scheduleEventLoop_schedules_then_starts :
  forall tracing current r n st,
    streams n r = Some st ->
    let n' := scheduleEventLoop tracing current r n in
    streams n' r
    = Some {| delivering := true; scheduled_on := Some current;
              retain_count := retain_count st;
              context_info := context_info st;
              since_when := since_when st |}
    /\ (forall other, other <> r -> streams n' other = streams n other)
    /\ effects n'
       = effects n ++ [FSEventStreamScheduleWithRunLoop r current;
                       FSEventStreamStart r]
    /\ global_refs n' = global_refs n
    /\ loops n' = loops n.
Proof.
  intros tracing current r n st Hst n'. subst n'.
  split; [now apply streams_scheduleEventLoop_same|].
  split; [intros other Ho; now apply streams_scheduleEventLoop_other|].
  split; [apply effects_scheduleEventLoop|].
  split; [apply global_refs_scheduleEventLoop | apply loops_scheduleEventLoop].
Qed.

(** X13 at the stream 7 that was made for the handler 108, on run loop 1. *)
Lemma scheduleEventLoop_schedules_then_starts_witness :
  let n := snd (createNewEventStreamFor false generous "/tmp/a" 1 0 8 empty) in
  let n' := scheduleEventLoop false 1 7 n in
  streams n' 7
  = Some {| delivering := true; scheduled_on := Some 1;
            retain_count := retain_count (created_stream 108);
            context_info := context_info (created_stream 108);
            since_when := since_when (created_stream 108) |}
  /\ (forall other, other <> 7 -> streams n' other = streams n other)
  /\ effects n'
     = effects n ++ [FSEventStreamScheduleWithRunLoop 7 1;
                     FSEventStreamStart 7]
  /\ global_refs n' = global_refs n
  /\ loops n' = loops n.
Proof.
  exact (scheduleEventLoop_schedules_then_starts false 1 7
           (snd (createNewEventStreamFor false generous "/tmp/a" 1 0 8 empty))
           (created_stream 108) eq_refl).
Defined.

(** X14.  When the field [globalThisRef] of the handler cannot be set,
    [createNewEventStreamFor] returns 0 as for a failure, but the stream
    has been created and is still held once, and the global reference to
    the handler has been taken: the caller gets no handle to release
    either.  Nothing is printed, also with tracing on. *)
Theorem create_returns_zero_with_the_stream_made :
  forall tracing os dir latency flags handler n path,
    toCFString_result os dir = Some path ->
    CFArrayCreate_succeeds os = true ->
    FSEventStreamCreate_result os [path] <> 0 ->
    SetField_throws os = true ->
    let g := NewGlobalRef_result os handler in
    let r := FSEventStreamCreate_result os [path] in
    let res := createNewEventStreamFor tracing os dir latency flags handler n in
    fst res = 0
    /\ streams (snd res) r = Some (created_stream g)
    /\ global_refs (snd res) = g :: global_refs n
    /\ effects (snd res)
       = effects n ++ [NewGlobalRef handler g;
                       FSEventStreamCreate g [path]
                         kFSEventStreamEventIdSinceNow latency flags r;
                       SetField_globalThisRef g g]
    /\ out (snd res) = out n.
Proof.
  intros tracing os dir latency flags handler n path H1 H2 H3 H4 g r res.
  destruct (create_with_stream tracing os dir latency flags handler n path
              H1 H2 H3) as (Hf & Hs & Hg & He).
  rewrite H4 in Hf. subst res.
  split; [exact Hf|]. split; [exact Hs|]. split; [exact Hg|].
  split; [exact He|]. now apply (out_create_thrown _ _ _ _ _ _ _ path).
Qed.

(** X14 at a watch on ["/tmp/a"] for the handler 8, with tracing on. *)
Lemma create_returns_zero_with_the_stream_made_witness :
  let res := createNewEventStreamFor true unsettable "/tmp/a" 1 0 8 empty in
  fst res = 0
  /\ streams (snd res) 7 = Some (created_stream 108)
  /\ global_refs (snd res) = 108 :: global_refs empty
  /\ effects (snd res)
     = effects empty ++ [NewGlobalRef 8 108;
                         FSEventStreamCreate 108 ["/tmp/a"%string]
                           kFSEventStreamEventIdSinceNow 1 0 7;
                         SetField_globalThisRef 108 108]
  /\ out (snd res) = out empty.
Proof.
  apply (create_returns_zero_with_the_stream_made true unsettable
           "/tmp/a"%string 1 0 8 empty "/tmp/a"%string);
    [reflexivity | reflexivity | discriminate | reflexivity].
Defined.

(** X15.  A watch that is created, scheduled on a run loop, stopped with
    the reference that the creation has taken and then disposed of gives
    back its stream and its global reference: the stream is gone, no other
    stream is touched, the global references are those from before, and
    of the run loops only the one of the watch was asked to stop.  The
    ten calls on references, streams and run loops are made in the order
    of the four entry points.  The string of [toCFString] and the array of
    [CFArrayCreate] are given back by no call: besides these two the
    cycle calls CoreFoundation only to look up the run loop, once, and
    once more with tracing on. *)
Theorem watch_gives_back_stream_and_reference :
  forall tracing os dir latency flags handler current n path,
    toCFString_result os dir = Some path ->
    CFArrayCreate_succeeds os = true ->
    FSEventStreamCreate_result os [path] <> 0 ->
    SetField_throws os = false ->
    let g := NewGlobalRef_result os handler in
    let created :=
      createNewEventStreamFor tracing os dir latency flags handler n in
    let stream := fst created in
    let n1 := scheduleEventLoop tracing current stream (snd created) in
    let n2 := runLoopStop tracing current g n1 in
    let n3 := dispose stream n2 in
    stream = FSEventStreamCreate_result os [path]
    /\ streams n3 stream = None
    /\ (forall other, other <> stream -> streams n3 other = streams n other)
    /\ global_refs n3 = global_refs n
    /\ (forall l, loops n3 l
                  = if l =? current then request_stop (loops n l)
                    else loops n l)
    /\ effects n3
       = effects n ++ [NewGlobalRef handler g;
                       FSEventStreamCreate g [path]
                         kFSEventStreamEventIdSinceNow latency flags stream;
                       SetField_globalThisRef g g;
                       FSEventStreamScheduleWithRunLoop stream current;
                       FSEventStreamStart stream;
                       CFRunLoopStop current;
                       DeleteGlobalRef g;
                       FSEventStreamStop stream;
                       FSEventStreamInvalidate stream;
                       FSEventStreamRelease stream]
    /\ cf_calls n3
       = cf_calls n ++ [Call_toCFString dir (Some path);
                        Call_CFArrayCreate [path] true;
                        Call_CFRunLoopGetCurrent current]
         ++ (if tracing then [Call_CFRunLoopGetCurrent current] else []).
Proof.
  intros tracing os dir latency flags handler current n path H1 H2 H3 H4
    g created stream n1 n2 n3.
  destruct (create_with_stream tracing os dir latency flags handler n path
              H1 H2 H3) as (Hf & Hs & Hg & He).
  rewrite H4 in Hf. fold created in Hf, Hs, Hg, He. fold g in Hs, Hg, He.
  assert (Hstream : stream = FSEventStreamCreate_result os [path])
    by exact Hf.
  rewrite <- Hstream in Hs, He.
  split; [exact Hstream|].
  assert (Hs1 := streams_scheduleEventLoop_same tracing current stream
                   (snd created) _ Hs).
  fold n1 in Hs1. cbn [retain_count context_info since_when] in Hs1.
  assert (Hs2 : streams n2 stream = streams n1 stream)
    by (subst n2; now rewrite streams_runLoopStop).
  rewrite Hs1 in Hs2.
  split.
  { subst n3. eapply streams_dispose_held_once; [exact Hs2 | reflexivity]. }
  split.
  { intros other Ho. subst n3 n2 n1.
    rewrite streams_dispose_other, streams_runLoopStop,
      streams_scheduleEventLoop_other by exact Ho.
    subst created. apply (streams_create_other _ _ _ _ _ _ _ path);
      [exact H1 | now rewrite <- Hstream]. }
  split.
  { subst n3 n2 n1.
    rewrite global_refs_dispose, global_refs_runLoopStop,
      global_refs_scheduleEventLoop, Hg.
    cbn [remove_one]. now rewrite Z.eqb_refl. }
  split.
  { intros l. subst n3 n2 n1.
    rewrite loops_dispose, loops_runLoopStop, loops_scheduleEventLoop.
    subst created. rewrite !loops_create.
    destruct (Z.eqb_spec l current) as [->|]; reflexivity. }
  split.
  { subst n3 n2 n1.
    rewrite effects_dispose, effects_runLoopStop, effects_scheduleEventLoop, He.
    now rewrite <- !app_assoc. }
  subst n3 n2 n1.
  rewrite cf_calls_dispose, cf_calls_runLoopStop, cf_calls_scheduleEventLoop.
  subst created.
  rewrite (cf_calls_create _ _ _ _ _ _ _ path H1 H2).
  now rewrite <- app_assoc.
Qed.

(** X15 at a watch on ["/tmp/a"] for the handler 8 on run loop 1, beside a
    thread that pumps run loop 1 and holds the reference 9, with tracing
    on. *)
Lemma watch_gives_back_stream_and_reference_witness :
  let n := pumping 1 9 in
  let created := createNewEventStreamFor true generous "/tmp/a" 1 0 8 n in
  let stream := fst created in
  let n1 := scheduleEventLoop true 1 stream (snd created) in
  let n2 := runLoopStop true 1 108 n1 in
  let n3 := dispose stream n2 in
  stream = 7
  /\ streams n3 stream = None
  /\ (forall other, other <> stream -> streams n3 other = streams n other)
  /\ global_refs n3 = global_refs n
  /\ (forall l, loops n3 l
                = if l =? 1 then request_stop (loops n l) else loops n l)
  /\ effects n3
     = effects n ++ [NewGlobalRef 8 108;
                     FSEventStreamCreate 108 ["/tmp/a"%string]
                       kFSEventStreamEventIdSinceNow 1 0 stream;
                     SetField_globalThisRef 108 108;
                     FSEventStreamScheduleWithRunLoop stream 1;
                     FSEventStreamStart stream;
                     CFRunLoopStop 1;
                     DeleteGlobalRef 108;
                     FSEventStreamStop stream;
                     FSEventStreamInvalidate stream;
                     FSEventStreamRelease stream]
  /\ cf_calls n3
     = cf_calls n ++ [Call_toCFString "/tmp/a" (Some "/tmp/a"%string);
                      Call_CFArrayCreate ["/tmp/a"%string] true;
                      Call_CFRunLoopGetCurrent 1]
       ++ [Call_CFRunLoopGetCurrent 1].
Proof.
  apply (watch_gives_back_stream_and_reference true generous "/tmp/a"%string
           1 0 8 1 (pumping 1 9) "/tmp/a"%string);
    [reflexivity | reflexivity | discriminate | reflexivity].
Defined.

(** X16.  What tracing changes in the entry points.  With tracing on
    and off [createNewEventStreamFor] returns the same value, and it,
    [scheduleEventLoop], [CFRunLoopGetCurrent] and [runLoopStop] make the
    same calls on references, streams and run loops and leave the same
    streams, run loops and global references.  Of the calls to
    CoreFoundation one is made with tracing on only: [scheduleEventLoop]
    then looks up the run loop a second time, for the line it prints; the
    three others make the same calls.  [CFRunLoopGetCurrent] returns the
    run loop of the thread, which it looks up once.  With tracing off
    nothing is printed. *)
Theorem tracing_prints_and_looks_up_the_run_loop :
  forall tracing os dir latency flags handler current stream runLoop g n,
    (fst (createNewEventStreamFor tracing os dir latency flags handler n)
     = fst (createNewEventStreamFor false os dir latency flags handler n)
     /\ same_watches
          (snd (createNewEventStreamFor tracing os dir latency flags handler n))
          (snd (createNewEventStreamFor false os dir latency flags handler n))
     /\ cf_calls
          (snd (createNewEventStreamFor tracing os dir latency flags handler n))
        = cf_calls
            (snd (createNewEventStreamFor false os dir latency flags handler n))
     /\ out (snd (createNewEventStreamFor false os dir latency flags handler n))
        = out n)
    /\ (same_watches (scheduleEventLoop tracing current stream n)
          (scheduleEventLoop false current stream n)
        /\ cf_calls (scheduleEventLoop tracing current stream n)
           = cf_calls (scheduleEventLoop false current stream n)
             ++ (if tracing then [Call_CFRunLoopGetCurrent current] else [])
        /\ cf_calls (scheduleEventLoop false current stream n)
           = cf_calls n ++ [Call_CFRunLoopGetCurrent current]
        /\ out (scheduleEventLoop false current stream n) = out n)
    /\ (fst (CFRunLoopGetCurrent tracing current n) = current
        /\ same_watches (snd (CFRunLoopGetCurrent tracing current n)) n
        /\ cf_calls (snd (CFRunLoopGetCurrent tracing current n))
           = cf_calls n ++ [Call_CFRunLoopGetCurrent current]
        /\ out (snd (CFRunLoopGetCurrent false current n)) = out n)
    /\ (same_watches (runLoopStop tracing runLoop g n)
          (runLoopStop false runLoop g n)
        /\ cf_calls (runLoopStop tracing runLoop g n) = cf_calls n
        /\ out (runLoopStop false runLoop g n) = out n).
Proof.
  intros tracing os dir latency flags handler current stream runLoop g n.
  split; [|split; [|split]].
  - unfold createNewEventStreamFor, do_NewGlobalRef, do_FSEventStreamCreate.
    destruct (toCFString_result os dir) as [path|];
      [|repeat split; reflexivity].
    destruct (CFArrayCreate_succeeds os); cbn [negb];
      [|repeat split; reflexivity].
    destruct (FSEventStreamCreate_result os [path] =? 0) eqn:Er;
      cbn [negb andb]; rewrite ?Er; cbn [negb andb];
      [|destruct (SetField_throws os)]; cbn [fst snd];
      (split; [reflexivity|]);
      (split; [first [apply same_watches_trace_if | apply same_watches_refl]|]);
      rewrite ?cf_calls_trace_if; split; reflexivity.
  - split.
    { unfold same_watches.
      rewrite !effects_scheduleEventLoop, !global_refs_scheduleEventLoop,
        !loops_scheduleEventLoop.
      repeat split. intros r.
      destruct (Z.eq_dec r stream) as [->|Hr].
      - destruct (streams n stream) as [st|] eqn:Hst.
        + now rewrite !(streams_scheduleEventLoop_same _ _ _ _ st Hst).
        + unfold scheduleEventLoop, do_FSEventStreamStart,
            do_FSEventStreamScheduleWithRunLoop, update_stream, log, note,
            print.
          destruct tracing; cbn [streams]; rewrite Hst; cbn [streams];
            rewrite Hst; reflexivity.
      - now rewrite !streams_scheduleEventLoop_other by exact Hr. }
    rewrite !cf_calls_scheduleEventLoop.
    split; [now rewrite <- app_assoc|].
    split; [reflexivity | apply out_scheduleEventLoop_off].
  - split; [reflexivity|]. unfold CFRunLoopGetCurrent. cbn [fst snd].
    split; [|split; [now rewrite cf_calls_trace_if | reflexivity]].
    unfold same_watches.
    now rewrite streams_trace_if, loops_trace_if, global_refs_trace_if,
      effects_trace_if.
  - split; [|split; [apply cf_calls_runLoopStop | reflexivity]].
    unfold same_watches.
    rewrite !streams_runLoopStop, !global_refs_runLoopStop,
      !effects_runLoopStop.
    repeat split. intros l. now rewrite !loops_runLoopStop.
Qed.

(** * Exceptions and frames across the turns of the loop *)

Section PendingFacts.
Import Batches.

Lemma keeps_exception_ret {A} (a : A) : keeps_exception (ret a).
Proof. intros s r s' H Hp. unfold ret in H. inversion H; subst. exact Hp. Qed.

Lemma keeps_exception_bind {A B} (m : M A) (k : A -> M B) :
  keeps_exception m -> (forall a, keeps_exception (k a)) ->
  keeps_exception (bind m k).
Proof.
  intros Hm Hk s r s' H Hp. unfold bind in H.
  destruct (m s) as [a s1| |] eqn:E; try discriminate.
  exact (Hk a s1 r s' H (Hm s a s1 E Hp)).
Qed.

Lemma keeps_exception_when b (m : M unit) :
  keeps_exception m -> keeps_exception (when b m).
Proof. intros H. destruct b; [exact H | apply keeps_exception_ret]. Qed.

Lemma keeps_exception_throw : keeps_exception throw.
Proof. intros s r s' H Hp. unfold throw in H. now inversion H. Qed.

Lemma keeps_exception_ExceptionCheck : keeps_exception ExceptionCheck.
Proof.
  intros s r s' H Hp. unfold ExceptionCheck in H. inversion H; subst. exact Hp.
Qed.

Lemma keeps_exception_read_path paths i : keeps_exception (read_path paths i).
Proof.
  intros s r s' H Hp. unfold read_path in H.
  destruct (i <? 0); [discriminate|].
  destruct (nth_error paths (Z.to_nat i)); [|discriminate].
  unfold ret in H. inversion H; subst. exact Hp.
Qed.

Lemma keeps_exception_NewStringPlatform w p :
  keeps_exception (JNU_NewStringPlatform w p).
Proof.
  unfold JNU_NewStringPlatform.
  destruct (NewStringPlatform_result w p) as [js|throws].
  - apply keeps_exception_ret.
  - apply keeps_exception_bind; [|intros; apply keeps_exception_ret].
    apply keeps_exception_when, keeps_exception_throw.
Qed.

Lemma keeps_exception_SetObjectArrayElement a i v :
  keeps_exception (SetObjectArrayElement a i v).
Proof.
  unfold SetObjectArrayElement. destruct a as [elems|].
  - destruct ((0 <=? i) && (i <? Z.of_nat (List.length elems))).
    + apply keeps_exception_ret.
    + apply keeps_exception_bind; [apply keeps_exception_throw|].
      intros; apply keeps_exception_ret.
  - intros s r s' H. discriminate.
Qed.

Lemma keeps_exception_convert_from w paths idx :
  forall todo i a, keeps_exception (convert_from false w todo i paths idx a).
Proof.
  induction todo as [|todo IH]; intros i a.
  - apply keeps_exception_ret.
  - rewrite convert_from_S.
    apply keeps_exception_bind; [apply keeps_exception_read_path|]. intros c.
    apply keeps_exception_bind; [apply keeps_exception_NewStringPlatform|].
    intros [p|].
    + apply keeps_exception_bind; [apply keeps_exception_SetObjectArrayElement|].
      intros a'. apply IH.
    + apply keeps_exception_bind; [apply keeps_exception_ExceptionCheck|].
      intros exc. rewrite andb_false_r.
      apply keeps_exception_bind; [apply keeps_exception_ret|].
      intros; apply keeps_exception_ret.
Qed.

Lemma keeps_exception_createJavaArray w n :
  keeps_exception (createJavaArray false w n).
Proof.
  unfold createJavaArray.
  apply keeps_exception_bind.
  - unfold NewObjectArray.
    destruct ((0 <=? n) && NewObjectArray_succeeds w n).
    + apply keeps_exception_ret.
    + apply keeps_exception_bind; [apply keeps_exception_throw|].
      intros; apply keeps_exception_ret.
  - intros a. apply keeps_exception_bind; [apply keeps_exception_ExceptionCheck|].
    intros [|]; [|apply keeps_exception_ret].
    apply keeps_exception_bind; [apply keeps_exception_ret|].
    intros; apply keeps_exception_ret.
Qed.

Lemma keeps_exception_build_chunk w paths idx n :
  keeps_exception (build_chunk false w paths idx n).
Proof.
  unfold build_chunk.
  apply keeps_exception_bind.
  - unfold PushLocalFrame.
    destruct (PushLocalFrame_outcome w (to_jint (n + 5))) as [|throws].
    + intros s r s' H Hp. inversion H; subst. exact Hp.
    + apply keeps_exception_bind; [|intros; apply keeps_exception_ret].
      apply keeps_exception_when, keeps_exception_throw.
  - intros rc. apply keeps_exception_bind.
    + destruct (rc =? JNI_OK);
        [apply keeps_exception_createJavaArray | apply keeps_exception_ret].
    + intros r1. apply keeps_exception_bind; [|intros; apply keeps_exception_ret].
      destruct (fst r1); [|apply keeps_exception_ret].
      apply keeps_exception_convert_from.
Qed.

(** With tracing off a turn leaves an exception pending when one was
    pending before it or the handler throws in its call. *)
Lemma callback_turn_untraced w stream info total (paths : list cstring)
    idx s r s' :
  callback_turn false w stream info total paths idx s = Ok r s' ->
  exists c,
    calls s' = calls s ++ [c]
    /\ (pending s || handler_throws w (List.length (calls s)) c = true ->
        pending s' = true).
Proof.
  unfold callback_turn. intros H. unfold bind at 1 in H.
  destruct (build_chunk false w paths idx (numEventsToReport_at total idx) s)
    as [[[pushed ok1] arr] s1| |] eqn:Eb; try discriminate.
  pose proof (keeps_calls_build_chunk _ _ _ _ _ _ _ _ Eb) as Hc.
  pose proof (keeps_exception_build_chunk _ _ _ _ _ _ _ Eb) as Hp.
  unfold JNU_CallMethodByName, bind, when, ret, PopLocalFrame in H.
  rewrite <- Hc.
  eexists. destruct pushed; cbn in H; inversion H; subst; cbn [calls pending];
    (split; [reflexivity|]);
    intros Hor; apply orb_true_iff in Hor as [Hs|Ht];
    apply orb_true_iff; [left; now apply Hp | right; exact Ht
                        |left; now apply Hp | right; exact Ht].
Qed.

Lemma callback_loop_untraced w stream info total (paths : list cstring) :
  forall fuel OK idx s s',
    callback_loop false w fuel stream info total paths OK idx s = Ok tt s' ->
    exists new,
      calls s' = calls s ++ new
      /\ (pending s || thrown w (List.length (calls s)) new = true ->
          pending s' = true).
Proof.
  induction fuel as [|fuel IH]; intros OK idx s s' H; [discriminate|].
  rewrite callback_loop_S in H.
  destruct (OK && (idx <? total)).
  - unfold bind at 1 in H.
    destruct (callback_turn false w stream info total paths idx s)
      as [r s1| |] eqn:Et; try discriminate.
    apply callback_turn_untraced in Et as (c & Hc1 & Hp1).
    apply IH in H as (rest & Hc2 & Hp2).
    exists (c :: rest). split.
    + rewrite Hc2, Hc1, <- app_assoc. reflexivity.
    + intros Hor. apply Hp2. apply orb_true_iff.
      cbn [thrown] in Hor. rewrite orb_assoc in Hor.
      apply orb_true_iff in Hor as [Hfirst|Hrest].
      * left. now apply Hp1.
      * right. rewrite Hc1, length_app, Nat.add_1_r. exact Hrest.
  - inversion H; subst. exists []. rewrite app_nil_r. split; [reflexivity|].
    cbn [thrown]. now rewrite orb_false_r.
Qed.

(** With tracing on a turn leaves no exception pending. *)
Lemma callback_turn_traced w stream info total (paths : list cstring)
    idx s r s' :
  callback_turn true w stream info total paths idx s = Ok r s' ->
  pending s' = false.
Proof.
  unfold callback_turn. intros H. unfold bind at 1 in H.
  destruct (build_chunk true w paths idx (numEventsToReport_at total idx) s)
    as [[[pushed ok1] arr] s1| |] eqn:Eb; try discriminate.
  unfold JNU_CallMethodByName, bind, when, ret, ExceptionDescribe,
    PopLocalFrame in H.
  destruct pushed, (pending s1) eqn:Ep, (handler_throws w _ _);
    cbn in H; rewrite ?Ep in H; inversion H; subst; reflexivity.
Qed.

Lemma callback_loop_traced w stream info total (paths : list cstring) :
  forall fuel OK idx s s',
    callback_loop true w fuel stream info total paths OK idx s = Ok tt s' ->
    s' = s \/ pending s' = false.
Proof.
  induction fuel as [|fuel IH]; intros OK idx s s' H; [discriminate|].
  rewrite callback_loop_S in H.
  destruct (OK && (idx <? total)).
  - unfold bind at 1 in H.
    destruct (callback_turn true w stream info total paths idx s)
      as [r s1| |] eqn:Et; try discriminate.
    apply callback_turn_traced in Et.
    apply IH in H as [->|H]; right; assumption.
  - inversion H; subst. now left.
Qed.

(** A turn for which the JVM gives no local frame. *)
Lemma build_chunk_without_frame tracing w paths idx n s throws :
  PushLocalFrame_outcome w (to_jint (n + 5)) = Fails throws ->
  exists s1,
    build_chunk tracing w paths idx n s = Ok (false, false, None) s1
    /\ pending s1 = pending s || throws.
Proof.
  intros Hpush. unfold build_chunk, PushLocalFrame. rewrite Hpush.
  destruct throws; unfold bind, when, throw, ret; cbn;
    eexists; (split; [reflexivity|]); cbn [pending];
    [now rewrite orb_true_r | now rewrite orb_false_r].
Qed.

Lemma numEventsToReport_at_full total :
  MAX_EVENTS_TO_REPORT_AT_ONCE < total < 18446744073709551616 ->
  numEventsToReport_at total 0 = MAX_EVENTS_TO_REPORT_AT_ONCE.
Proof.
  rewrite max_events_value. intros H.
  unfold numEventsToReport_at, numEventsToReport_for.
  rewrite max_events_value, Z.sub_0_r, to_size_t_small by lia.
  destruct (Z.gtb_spec total 2147483645); [|lia].
  apply to_jint_small. lia.
Qed.

End PendingFacts.

(** X17.  With tracing off the callback clears no exception: when one is
    pending as it starts, or the handler throws in one of its calls, an
    exception is pending as it returns.  The turns after the throw are
    made with the exception pending. *)
Theorem untraced_callback_returns_with_the_exception :
  forall w fuel stream info total (paths : list cstring) s s',
    callback false w fuel stream info total paths s = Ok tt s' ->
    exists new,
      calls s' = calls s ++ new
      /\ (pending s || thrown w (List.length (calls s)) new = true ->
          pending s' = true).
Proof.
  intros w fuel stream info total paths s s' H.
  unfold callback in H. cbn [when] in H.
  unfold bind, ret in H.
  destruct (GetEnv_valid w).
  - now apply callback_loop_untraced in H.
  - inversion H; subst. exists []. rewrite app_nil_r. split; [reflexivity|].
    cbn [thrown]. now rewrite orb_false_r.
Qed.

(** X17 at three events and a handler that throws. *)
Lemma untraced_callback_returns_with_the_exception_witness :
  exists new,
    calls {| pending := true; frames := 0;
             calls := [{| fc_handler := 8; fc_stream := 7; fc_numEvents := 3;
                          fc_paths := Some [Some "/a"; Some "/b"; Some "/c"]%string;
                          fc_flags := 0; fc_ids := 0 |}];
             diag := [] |}
    = calls initial ++ new
    /\ (pending initial
        || thrown (world_of JString (fun _ => true))
             (List.length (calls initial)) new = true ->
        pending {| pending := true; frames := 0;
                   calls := [{| fc_handler := 8; fc_stream := 7;
                                fc_numEvents := 3;
                                fc_paths :=
                                  Some [Some "/a"; Some "/b"; Some "/c"]%string;
                                fc_flags := 0; fc_ids := 0 |}];
                   diag := [] |} = true).
Proof.
  apply (untraced_callback_returns_with_the_exception
           (world_of JString (fun _ => true)) 2 7 8 3
           ["/a"; "/b"; "/c"]%string initial).
  vm_compute. reflexivity.
Defined.

(** X18.  With tracing on a callback that has called the handler returns
    with no exception pending, whatever was thrown and whatever failed:
    each turn describes the exception it finds after the call, and
    [ExceptionDescribe] clears it. *)
Theorem traced_callback_returns_without_exception :
  forall w fuel stream info total (paths : list cstring) s s',
    callback true w fuel stream info total paths s = Ok tt s' ->
    calls s' <> calls s ->
    pending s' = false.
Proof.
  intros w fuel stream info total paths s s' H Hcalls.
  unfold callback in H. cbn [when] in H.
  unfold bind at 1 in H. unfold bind, printf in H. cbn in H.
  destruct (GetEnv_valid w).
  - apply callback_loop_traced in H as [->|H]; [|exact H].
    now contradiction Hcalls.
  - unfold ret in H. inversion H; subst. now contradiction Hcalls.
Qed.

(** X18 at two events of which the second has no Java string, with the
    exception of the conversion pending when the handler is called. *)
Lemma traced_callback_returns_without_exception_witness :
  pending {| pending := false; frames := 0;
             calls := [{| fc_handler := 8; fc_stream := 7; fc_numEvents := 2;
                          fc_paths := Some [Some "/a"%string; None];
                          fc_flags := 0; fc_ids := 0 |}];
             diag := ["Callback fired!"; "handler thread 0x%p";
                      "Exception in thread"]%string |}
  = false.
Proof.
  apply (traced_callback_returns_without_exception
           (world_failing_on "/b"%string) 2 7 8 2 ["/a"; "/b"]%string initial).
  - vm_compute. reflexivity.
  - discriminate.
Defined.

(** X19.  When [PushLocalFrame] fails in a turn the handler is called all
    the same, with [NULL] for the array and the count of the turn, no
    frame is popped, and the loop ends after this call. *)
Theorem turn_without_frame_calls_the_handler_with_null :
  forall tracing w fuel stream info total (paths : list cstring) idx s throws,
    idx < total ->
    PushLocalFrame_outcome w (to_jint (numEventsToReport_at total idx + 5))
    = Fails throws ->
    exists s',
      callback_loop tracing w (S (S fuel)) stream info total paths true idx s
      = Ok tt s'
      /\ calls s'
         = calls s ++ [{| fc_handler := info; fc_stream := stream;
                          fc_numEvents := numEventsToReport_at total idx;
                          fc_paths := None; fc_flags := idx; fc_ids := idx |}]
      /\ frames s' = frames s.
Proof.
  intros tracing w fuel stream info total paths idx s throws Hidx Hpush.
  destruct (build_chunk_without_frame tracing w paths idx _ s throws Hpush)
    as (s1 & Hb & _).
  destruct (callback_loop_after_failure tracing w fuel stream info total paths
              idx s false None s1 Hidx Hb) as (s' & Hrun & Hc).
  exists s'. split; [exact Hrun|]. split; [exact Hc|].
  now apply callback_loop_chained in Hrun as [Hf _].
Qed.

(** X19 at two events in a JVM that has no local frame to give. *)
Lemma turn_without_frame_calls_the_handler_with_null_witness :
  exists s',
    callback_loop false world_without_frames 2 7 8 2 ["/a"; "/b"]%string true 0
      initial
    = Ok tt s'
    /\ calls s'
       = calls initial ++ [{| fc_handler := 8; fc_stream := 7;
                              fc_numEvents := numEventsToReport_at 2 0;
                              fc_paths := None; fc_flags := 0; fc_ids := 0 |}]
    /\ frames s' = frames initial.
Proof.
  apply (turn_without_frame_calls_the_handler_with_null false
           world_without_frames 0 7 8 2 ["/a"; "/b"]%string 0 initial false);
    [lia | reflexivity].
Defined.

(** X20.  With more than [INT_MAX - 2] events the first turn asks
    [PushLocalFrame] for [INT_MAX - 2 + 5] slots, which as an [int] is
    -2147483646.  In a JVM that refuses this capacity no event reaches the
    handler: the callback makes one call, which reports [INT_MAX - 2]
    events with [NULL] for their paths, and returns. *)
Theorem full_chunk_asks_for_a_negative_frame :
  forall tracing w fuel stream info total (paths : list cstring) s throws,
    MAX_EVENTS_TO_REPORT_AT_ONCE < total < 18446744073709551616 ->
    GetEnv_valid w = true ->
    PushLocalFrame_outcome w (-2147483646) = Fails throws ->
    to_jint (MAX_EVENTS_TO_REPORT_AT_ONCE + 5) = -2147483646
    /\ exists s',
         callback tracing w (S (S fuel)) stream info total paths s = Ok tt s'
         /\ calls s'
            = calls s ++ [{| fc_handler := info; fc_stream := stream;
                             fc_numEvents := MAX_EVENTS_TO_REPORT_AT_ONCE;
                             fc_paths := None; fc_flags := 0; fc_ids := 0 |}]
         /\ frames s' = frames s.
Proof.
  intros tracing w fuel stream info total paths s throws Htotal Henv Hpush.
  split; [reflexivity|].
  pose proof (numEventsToReport_at_full total Htotal) as Hn.
  rewrite max_events_value in Htotal.
  unfold callback.
  assert (Hs0 : exists s0, when tracing (printf "Callback fired!" ;;
                                         printf "handler thread 0x%p") s = Ok tt s0
                           /\ calls s0 = calls s /\ frames s0 = frames s).
  { destruct tracing; unfold when, bind, printf, ret; cbn; eauto. }
  destruct Hs0 as (s0 & Hs0 & Hc0 & Hf0).
  rewrite (bind_Ok _ _ _ _ _ Hs0). clear Hs0. rewrite <- Hc0, <- Hf0, Henv.
  assert (Hpush' : PushLocalFrame_outcome w
                     (to_jint (numEventsToReport_at total 0 + 5))
                   = Fails throws).
  { rewrite Hn. exact Hpush. }
  destruct (build_chunk_without_frame tracing w paths 0 _ s0 throws Hpush')
    as (s1 & Hb & _).
  destruct (callback_loop_after_failure tracing w fuel stream info total paths
              0 s0 false None s1 ltac:(lia) Hb) as (s' & Hrun & Hc).
  exists s'. split; [exact Hrun|]. split.
  - rewrite Hc, Hn. reflexivity.
  - now apply callback_loop_chained in Hrun as [Hf _].
Qed.

(** X20 at [INT_MAX - 1] events, of which no path is read. *)
Lemma full_chunk_asks_for_a_negative_frame_witness :
  to_jint (MAX_EVENTS_TO_REPORT_AT_ONCE + 5) = -2147483646
  /\ exists s',
       callback false world_checking_capacity 2 7 8 2147483646 [] initial
       = Ok tt s'
       /\ calls s'
          = calls initial ++ [{| fc_handler := 8; fc_stream := 7;
                                 fc_numEvents := MAX_EVENTS_TO_REPORT_AT_ONCE;
                                 fc_paths := None; fc_flags := 0; fc_ids := 0 |}]
       /\ frames s' = frames initial.
Proof.
  apply (full_chunk_asks_for_a_negative_frame false world_checking_capacity 0
           7 8 2147483646 [] initial false);
    [unfold MAX_EVENTS_TO_REPORT_AT_ONCE, INT_MAX; lia
    | reflexivity | reflexivity].
Defined.
